(** * RocketSheet v2 ingestor: line classification, accumulation, reduction

    A shallow embedding of [ingest_v2.py] (the log ingestor of the
    RocketSheet v2 pipeline) together with the properties its specification
    states about it.

    Conventions of the embedding:
    - Python [str] is [string]; a character is a code point below 256.
    - Python [float] is IEEE 754 binary64, taken from [SpecFloat] with
      precision 53 and maximal exponent 1024.
    - Python [dict] is an insertion-ordered association list.
    - A function that may raise returns in [result]; a method that mutates
      its receiver takes the receiver and returns the new one. *)

From Stdlib Require Import ZArith List String Ascii Bool Lia SpecFloat.
From Stdlib Require Import Permutation Sorted.
From Stdlib Require Import DecimalString.
Import ListNotations.

Local Open Scope string_scope.
Local Open Scope list_scope.

(** ** Exceptions *)

Inductive exn : Type :=
| ValueError
| ZeroDivisionError
| IndexError
| KeyError
| OverflowError
| StatisticsError.

Inductive result (A : Type) : Type :=
| Ok (a : A)
| Raise (e : exn).

Arguments Ok {A} a.
Arguments Raise {A} e.

Definition bind {A B : Type} (c : result A) (k : A -> result B) : result B :=
  match c with
  | Ok a => k a
  | Raise e => Raise e
  end.

Notation "x <- c ;; k" := (bind c (fun x => k))
  (at level 61, c at next level, right associativity).
Notation "' pat <- c ;; k" := (bind c (fun x => match x with pat => k end))
  (at level 61, pat pattern, c at next level, right associativity).

(** ** Strings: the [str] methods the ingestor calls *)

Module PyStr.

Definition code (c : ascii) : nat := nat_of_ascii c.

Definition in_range (lo hi : nat) (c : ascii) : bool :=
  (lo <=? code c)%nat && (code c <=? hi)%nat.

(** [str.isspace] on one character: the code points below 256 that Python
    treats as whitespace. *)
Definition isspace (c : ascii) : bool :=
  in_range 9 13 c || in_range 28 32 c
  || (code c =? 133)%nat || (code c =? 160)%nat.

Definition is_digit (c : ascii) : bool := in_range 48 57 c.

(** [str.lower] on one character: ASCII and Latin-1 capitals. *)
Definition lower_char (c : ascii) : ascii :=
  if in_range 65 90 c
     || (in_range 192 222 c && negb (code c =? 215)%nat)
  then ascii_of_nat (code c + 32)
  else c.

Fixpoint lower (s : string) : string :=
  match s with
  | EmptyString => EmptyString
  | String c s' => String (lower_char c) (lower s')
  end.

Fixpoint lstrip_by (p : ascii -> bool) (s : string) : string :=
  match s with
  | EmptyString => EmptyString
  | String c s' => if p c then lstrip_by p s' else s
  end.

Fixpoint rstrip_by (p : ascii -> bool) (s : string) : string :=
  match s with
  | EmptyString => EmptyString
  | String c s' =>
      match rstrip_by p s' with
      | EmptyString => if p c then EmptyString else String c EmptyString
      | r => String c r
      end
  end.

(** [s.strip()] *)
Definition strip (s : string) : string := rstrip_by isspace (lstrip_by isspace s).

(** [s.rstrip("\n")] *)
Definition rstrip_newline (s : string) : string :=
  rstrip_by (Ascii.eqb "010"%char) s.

(** [s.split(sep)] for a one-character separator. *)
Fixpoint split (sep : ascii) (s : string) : list string :=
  match s with
  | EmptyString => [EmptyString]
  | String c s' =>
      if Ascii.eqb c sep then EmptyString :: split sep s'
      else match split sep s' with
           | [] => [String c EmptyString]
           | h :: t => String c h :: t
           end
  end.

(** [needle in hay] *)
Fixpoint str_in (needle hay : string) : bool :=
  prefix needle hay
  || match hay with
     | EmptyString => false
     | String _ hay' => str_in needle hay'
     end.

(** [os.path.basename]: what follows the last ["/"]. *)
Definition basename (p : string) : string :=
  last (split "/"%char p) EmptyString.

(** The longest prefix whose characters satisfy [p], and the rest. *)
Fixpoint span (p : ascii -> bool) (s : string) : string * string :=
  match s with
  | EmptyString => (EmptyString, EmptyString)
  | String c s' =>
      if p c then let '(a, b) := span p s' in (String c a, b)
      else (EmptyString, s)
  end.

(** [s[len(pre):]] when [s.startswith(pre)]. *)
Fixpoint strip_prefix (pre s : string) : option string :=
  match pre, s with
  | EmptyString, _ => Some s
  | String a pre', String b s' =>
      if Ascii.eqb a b then strip_prefix pre' s' else None
  | String _ _, EmptyString => None
  end.

Definition is_empty (s : string) : bool :=
  match s with EmptyString => true | _ => false end.

End PyStr.

(** ** Dictionaries: insertion-ordered, keyed by strings *)

Module Dict.

Definition dict (V : Type) : Type := list (string * V).

Definition empty {V : Type} : dict V := [].

(** [d.get(k)] *)
Fixpoint get {V : Type} (k : string) (d : dict V) : option V :=
  match d with
  | [] => None
  | (k', v) :: d' => if String.eqb k' k then Some v else get k d'
  end.

(** [k in d] *)
Definition mem {V : Type} (k : string) (d : dict V) : bool :=
  match get k d with Some _ => true | None => false end.

(** [d[k] = v]: an existing key keeps its place, a new one goes last. *)
Fixpoint set {V : Type} (k : string) (v : V) (d : dict V) : dict V :=
  match d with
  | [] => [(k, v)]
  | (k', v') :: d' =>
      if String.eqb k' k then (k, v) :: d' else (k', v') :: set k v d'
  end.

(** [d[k]] *)
Definition getitem {V : Type} (k : string) (d : dict V) : result V :=
  match get k d with
  | Some v => Ok v
  | None => Raise KeyError
  end.

Definition keys {V : Type} (d : dict V) : list string := map fst d.

End Dict.

Import Dict.

(** ** Role inference *)

(** Truth value of an [Optional[Dict]]: [None] and the empty dict are false. *)
Definition truthy {V : Type} (d : option (dict V)) : bool :=
  match d with
  | Some (_ :: _) => true
  | _ => false
  end.

Definition entries {V : Type} (d : option (dict V)) : dict V :=
  match d with
  | Some rm => rm
  | None => []
  end.

(** [infer_role(filename, rolemap)] *)
Definition infer_role (filename : string) (rolemap : option (dict string))
  : result string :=
  let base := PyStr.basename filename in
  if truthy rolemap && mem base (entries rolemap) then
    getitem base (entries rolemap)
  else
    let lower := PyStr.lower base in
    if PyStr.str_in "client" lower then Ok "client"
    else if PyStr.str_in "server" lower && negb (PyStr.str_in "client" lower)
         then Ok "server"
    else if PyStr.str_in "dedicated" lower then Ok "dedicated"
    else Ok "unknown".

(** ** Floats: binary64 and the conversions Python performs *)

Module PyFloat.

Local Open Scope Z_scope.

Definition prec : Z := 53.
Definition emax : Z := 1024.

Definition float : Type := spec_float.


Definition nan : float := S754_nan.
Definition zero : float := S754_zero false.

Definition ltb (x y : float) : bool := SFltb x y.
Definition eqb (x y : float) : bool := SFeqb x y.
Definition leb (x y : float) : bool := SFleb x y.

Definition add (x y : float) : float := SFadd prec emax x y.
Definition mul (x y : float) : float := SFmul prec emax x y.

(** [x / y]: Python raises on a zero divisor instead of returning an
    infinity or a NaN. *)
Definition div (x y : float) : result float :=
  if eqb y zero then Raise ZeroDivisionError
  else Ok (SFdiv prec emax x y).

(** [float(z)] for an [int], as done implicitly in [int * float] and
    [float / int]: nearest, ties to even; too large an [int] raises. *)
Definition of_int (z : Z) : result float :=
  match binary_normalize prec emax z 0 false with
  | S754_infinity _ => Raise OverflowError
  | f => Ok f
  end.

(** [round(x)] with one argument: the nearest [int], ties to even. *)
Definition round_half_even (m : Z) (shift : Z) : Z :=
  let q := Z.shiftr m shift in
  let r := m - Z.shiftl q shift in
  match Z.compare (2 * r) (Z.shiftl 1 shift) with
  | Lt => q
  | Gt => q + 1
  | Eq => if Z.even q then q else q + 1
  end.

Definition round (x : float) : result Z :=
  match x with
  | S754_nan => Raise ValueError
  | S754_infinity _ => Raise OverflowError
  | S754_zero _ => Ok 0%Z
  | S754_finite s m e =>
      let a := if (0 <=? e)%Z then Z.shiftl (Zpos m) e
               else round_half_even (Zpos m) (- e) in
      Ok (if s then (- a)%Z else a)
  end.

(** The binary64 nearest to [n * 10 ^ e], ties to even, for [n >= 0]. *)
Definition of_decimal (neg : bool) (n e : Z) : float :=
  match n with
  | Zpos p =>
      if (0 <=? e)%Z then
        match (Zpos p * 10 ^ e)%Z with
        | Zpos m => binary_round prec emax neg m 0
        | _ => S754_zero neg
        end
      else
        let '(q, e', l) := SFdiv_core_binary prec emax (Zpos p) 0 (10 ^ (- e)) 0 in
        binary_round_aux prec emax neg q e' l
  | _ => S754_zero neg
  end.

(** *** [float(s)] for a [str] *)

Definition digit_val (c : ascii) : Z := Z.of_nat (PyStr.code c) - 48.

Fixpoint digits_value (acc : Z) (s : string) : Z :=
  match s with
  | EmptyString => acc
  | String c s' => digits_value (10 * acc + digit_val c) s'
  end.

(** Non-ASCII whitespace becomes a blank, any other non-ASCII character
    one that no number contains. *)
Definition to_ascii_char (c : ascii) : ascii :=
  if (PyStr.code c <? 127)%nat then c
  else if PyStr.isspace c then " "%char
  else "?"%char.

Fixpoint to_ascii (s : string) : string :=
  match s with
  | EmptyString => EmptyString
  | String c s' => String (to_ascii_char c) (to_ascii s')
  end.

Definition is_c_space (c : ascii) : bool :=
  PyStr.in_range 9 13 c || (PyStr.code c =? 32)%nat.

Definition is_underscore (c : ascii) : bool := Ascii.eqb c "_"%char.

(** Underscores are dropped when each one stands between two digits. *)
Fixpoint drop_underscores (prev : ascii) (s : string) : option string :=
  match s with
  | EmptyString => if is_underscore prev then None else Some EmptyString
  | String c s' =>
      if is_underscore c then
        if PyStr.is_digit prev then drop_underscores c s' else None
      else if is_underscore prev && negb (PyStr.is_digit c) then None
      else option_map (String c) (drop_underscores c s')
  end.

Definition without_underscores (s : string) : option string :=
  if PyStr.str_in "_" s then drop_underscores "000"%char s else Some s.

Definition parse_sign (s : string) : bool * string :=
  match s with
  | String "-"%char s' => (true, s')
  | String "+"%char s' => (false, s')
  | _ => (false, s)
  end.

Definition is_exp_mark (c : ascii) : bool :=
  Ascii.eqb c "e"%char || Ascii.eqb c "E"%char.

(** The exponent part, when it is complete; otherwise nothing is read. *)
Definition parse_exponent (s : string) : Z * string :=
  match s with
  | String c s' =>
      if is_exp_mark c then
        let '(neg, s'') := parse_sign s' in
        let '(ds, rest) := PyStr.span PyStr.is_digit s'' in
        if PyStr.is_empty ds then (0%Z, s)
        else ((if neg then - digits_value 0 ds else digits_value 0 ds)%Z, rest)
      else (0%Z, s)
  | EmptyString => (0%Z, s)
  end.

(** Digits with an optional point and exponent: the mantissa as an
    integer, the decimal exponent, and what is left. *)
Definition parse_number (s : string) : option (Z * Z * string) :=
  let '(ip, r1) := PyStr.span PyStr.is_digit s in
  let '(fp, r2) :=
    match r1 with
    | String "."%char r => PyStr.span PyStr.is_digit r
    | _ => (EmptyString, r1)
    end in
  if PyStr.is_empty ip && PyStr.is_empty fp then None
  else
    let '(ex, rest) := parse_exponent r2 in
    Some (digits_value 0 (ip ++ fp), (ex - Z.of_nat (String.length fp))%Z, rest).

Definition parse_inf_or_nan (s : string) : option (float * string) :=
  let '(neg, body) := parse_sign s in
  match PyStr.strip_prefix "inf" (PyStr.lower (substring 0 3 body)) with
  | Some _ =>
      let rest := substring 3 (String.length body) body in
      let rest' :=
        if String.eqb (PyStr.lower (substring 0 5 rest)) "inity"
        then substring 5 (String.length rest) rest else rest in
      Some (S754_infinity neg, rest')
  | None =>
      if String.eqb (PyStr.lower (substring 0 3 body)) "nan"
      then Some (S754_nan, substring 3 (String.length body) body)
      else None
  end.

Definition of_str (s : string) : result float :=
  match without_underscores (to_ascii s) with
  | None => Raise ValueError
  | Some t =>
      let t := PyStr.rstrip_by is_c_space (PyStr.lstrip_by is_c_space t) in
      match parse_inf_or_nan t with
      | Some (x, EmptyString) => Ok x
      | Some _ => Raise ValueError
      | None =>
          let '(neg, body) := parse_sign t in
          match parse_number body with
          | Some (n, e, EmptyString) => Ok (of_decimal neg n e)
          | _ => Raise ValueError
          end
      end
  end.

(** A float literal of the source text. *)
Definition literal (s : string) : float :=
  match of_str s with
  | Ok x => x
  | Raise _ => nan
  end.

End PyFloat.

Import PyFloat.

(** ** Lists: indexing and sorting *)

(** [data[k]]: a negative index counts from the end. *)
Definition list_getitem {A : Type} (data : list A) (k : Z) : result A :=
  let n := Z.of_nat (List.length data) in
  let i := if (k <? 0)%Z then (k + n)%Z else k in
  if ((0 <=? i) && (i <? n))%Z then
    match nth_error data (Z.to_nat i) with
    | Some x => Ok x
    | None => Raise IndexError
    end
  else Raise IndexError.

(** [sorted(data)] on a list without NaN: a new list, ascending, stable,
    comparing with [<] only.  Without NaN, [<] orders the floats up to the
    sign of zero, so the ascending arrangement that keeps equal values in
    their order is unique and any stable sort returns it (lemma
    [sorted_spec]).  With a NaN among the elements the comparisons are not
    consistent and what Python returns depends on the merge strategy of
    its sort, which is not modelled: the statements that give a value of
    the sorted list assume that the list holds no NaN. *)
Fixpoint insert_sorted (x : float) (l : list float) : list float :=
  match l with
  | [] => [x]
  | y :: l' => if ltb y x then y :: insert_sorted x l' else x :: l
  end.

Definition sorted (data : list float) : list float :=
  fold_right insert_sorted [] data.

(** [try: c except exc: handler] *)
Definition exn_eqb (a b : exn) : bool :=
  match a, b with
  | ValueError, ValueError | ZeroDivisionError, ZeroDivisionError
  | IndexError, IndexError | KeyError, KeyError
  | OverflowError, OverflowError | StatisticsError, StatisticsError => true
  | _, _ => false
  end.

Definition try_except {A : Type} (c : result A) (exc : exn) (handler : result A)
  : result A :=
  match c with
  | Ok a => Ok a
  | Raise e => if exn_eqb e exc then handler else Raise e
  end.

(** [for x in l: s = body(s, x)] *)
Fixpoint for_each {A S : Type} (body : S -> A -> result S) (l : list A) (s : S)
  : result S :=
  match l with
  | [] => Ok s
  | x :: l' => s' <- body s x ;; for_each body l' s'
  end.

(** [statistics.median(data)] *)
Definition median (data : list float) : result float :=
  let data := sorted data in
  let n := List.length data in
  if (n =? 0)%nat then Raise StatisticsError
  else if (n mod 2 =? 1)%nat then list_getitem data (Z.of_nat (n / 2))
  else
    let i := Z.of_nat (n / 2) in
    a <- list_getitem data (i - 1)%Z ;;
    b <- list_getitem data i ;;
    two <- of_int 2 ;;
    div (add a b) two.

(** ** The accumulator *)

Record LogMetrics : Type := {
  loading_times : dict float;
  aggregate_samples : dict (list float);
  frametimes : list float
}.

(** [LogMetrics()] *)
Definition new_metrics : LogMetrics :=
  {| loading_times := []; aggregate_samples := []; frametimes := [] |}.

Definition record_loading_time (self : LogMetrics) (label : string) (value : float)
  : LogMetrics :=
  {| loading_times := set label value (loading_times self);
     aggregate_samples := aggregate_samples self;
     frametimes := frametimes self |}.

(** [d.setdefault(label, []).append(val)] *)
Definition setdefault_append (label : string) (val : float) (d : dict (list float))
  : dict (list float) :=
  match get label d with
  | Some vals => set label (vals ++ [val]) d
  | None => set label [val] d
  end.

Definition record_aggregate (self : LogMetrics) (legend : list string)
  (values : list float) : LogMetrics :=
  {| loading_times := loading_times self;
     aggregate_samples :=
       fold_left (fun d '(label, val) => setdefault_append label val d)
         (combine legend values) (aggregate_samples self);
     frametimes := frametimes self |}.

Definition record_fps (self : LogMetrics) (fps : float) : result LogMetrics :=
  if ltb zero fps then
    ft <- div (literal "1000.0") fps ;;
    Ok {| loading_times := loading_times self;
          aggregate_samples := aggregate_samples self;
          frametimes := frametimes self ++ [ft] |}
  else Ok self.

(** ** The line patterns *)

Module Re.

Import PyStr.

Definition not_in (cs : string) (c : ascii) : bool :=
  negb (str_in (String c EmptyString) cs).

(** [[0-9]+(?:\.[0-9]+)?] at the start of [s]: the text it matches. *)
Definition number (s : string) : option string :=
  let '(ip, r) := span is_digit s in
  if is_empty ip then None
  else
    match r with
    | String "."%char r' =>
        let '(fp, _) := span is_digit r' in
        if is_empty fp then Some ip else Some (ip ++ "." ++ fp)%string
    | _ => Some ip
    end.

(** [loading_re.match(raw)]: groups 1 and 2. *)
Definition loading_re (raw : string) : option (string * string) :=
  match strip_prefix "LOADING_TIME|" raw with
  | None => None
  | Some r =>
      let '(label, r1) := span (not_in "=|") r in
      if is_empty label then None
      else
        match r1 with
        | String _ r2 =>
            match number r2 with
            | Some num => Some (label, num)
            | None => None
            end
        | EmptyString => None
        end
  end.

(** [aggregate_re.match(raw)]: groups 1, 2 and 3. *)
Definition aggregate_re (raw : string) : option (string * string * string) :=
  match strip_prefix "AGGREGATE_" raw with
  | None => None
  | Some r =>
      let '(name, r1) := span (not_in "|") r in
      if is_empty name then None
      else
        match r1 with
        | String _ r2 =>
            let '(legend, r3) := span (not_in "|") r2 in
            match r3 with
            | String _ r4 =>
                let '(values, _) := span (fun c => negb (Ascii.eqb c "010"%char)) r4 in
                if is_empty values then None
                else Some (name, legend, values)
            | EmptyString => None
            end
        | EmptyString => None
        end
  end.

Definition fps_re_at (s : string) : option string :=
  match strip_prefix "Perf: FPS=" s with
  | Some r => number r
  | None => None
  end.

(** [fps_re.search(raw)]: group 1 of the leftmost match. *)
Fixpoint fps_re (raw : string) : option string :=
  match fps_re_at raw with
  | Some g => Some g
  | None =>
      match raw with
      | EmptyString => None
      | String _ raw' => fps_re raw'
      end
  end.

End Re.

(** ** Events *)

Inductive payload : Type :=
| LoadingTime (label : string) (value : float)
| Aggregate (legend : list string) (values : list float)
| FrameRate (fps : float).

Record event : Type := { raw : string; kv : option payload }.

(** ** Parsing a log file *)

(** The text of a file as the lines that iterating over it yields, each
    with its terminator. *)
Fixpoint universal_newlines (s : string) : string :=
  match s with
  | EmptyString => EmptyString
  | String c s' =>
      if Ascii.eqb c "013"%char then
        match s' with
        | String c' s'' =>
            if Ascii.eqb c' "010"%char then String "010"%char (universal_newlines s'')
            else String "010"%char (universal_newlines s')
        | EmptyString => String "010"%char EmptyString
        end
      else String c (universal_newlines s')
  end.

Fixpoint lines_of (s : string) : list string :=
  match s with
  | EmptyString => []
  | String c s' =>
      if Ascii.eqb c "010"%char then String c EmptyString :: lines_of s'
      else match s' with
           | EmptyString => [String c EmptyString]
           | _ => match lines_of s' with
                  | [] => [String c EmptyString]
                  | l :: ls => String c l :: ls
                  end
           end
  end.

Definition file_lines (text : string) : list string :=
  lines_of (universal_newlines text).

(** The three list-building steps of the aggregate branch. *)
Definition parse_legend (legend_str : string) : list string :=
  map PyStr.strip
    (filter (fun s => negb (PyStr.is_empty (PyStr.strip s)))
       (PyStr.split ";"%char legend_str)).

Definition parse_values (values_str : string) : result (list float) :=
  for_each (fun vals token =>
      let token := PyStr.strip token in
      if PyStr.is_empty token then Ok vals
      else
        v <- try_except (of_str token) ValueError (Ok (literal "0.0")) ;;
        Ok (vals ++ [v]))
    (PyStr.split ";"%char values_str) [].

(** The body of the loop of [parse_log_file], on one line of the file. *)
Definition parse_line (st : LogMetrics * list event) (line : string)
  : result (LogMetrics * list event) :=
  let '(metrics, events_fh) := st in
  let raw := PyStr.rstrip_newline line in
  match Re.loading_re raw with
  | Some (g1, g2) =>
      let label := PyStr.strip g1 in
      value <- try_except (of_str g2) ValueError (Ok (literal "0.0")) ;;
      let metrics := record_loading_time metrics label value in
      Ok (metrics, events_fh ++ [{| raw := raw; kv := Some (LoadingTime label value) |}])
  | None =>
  match Re.aggregate_re raw with
  | Some (_, legend_str, values_str) =>
      let legend := parse_legend legend_str in
      vals <- parse_values values_str ;;
      let metrics := record_aggregate metrics legend vals in
      Ok (metrics, events_fh ++ [{| raw := raw; kv := Some (Aggregate legend vals) |}])
  | None =>
  match Re.fps_re raw with
  | Some g1 =>
      '(metrics, kv) <-
        try_except
          (fps_val <- of_str g1 ;;
           metrics <- record_fps metrics fps_val ;;
           Ok (metrics, Some (FrameRate fps_val)))
          ValueError (Ok (metrics, None)) ;;
      Ok (metrics, events_fh ++ [{| raw := raw; kv := kv |}])
  | None =>
      Ok (metrics, events_fh ++ [{| raw := raw; kv := None |}])
  end end end.

(** [parse_log_file(path, metrics, events_fh)], on the text of the file. *)
Definition parse_log_file (text : string) (metrics : LogMetrics)
  (events_fh : list event) : result (LogMetrics * list event) :=
  for_each parse_line (file_lines text) (metrics, events_fh).

(** ** The reducer *)

(** The helper [percentile] of [compute_metrics]. *)
Definition percentile (data : list float) (pct : float) : result float :=
  match data with
  | [] => Ok (literal "0.0")
  | _ =>
      n1 <- of_int (Z.of_nat (List.length data) - 1) ;;
      k <- round (mul n1 pct) ;;
      list_getitem data k
  end.

Definition loading_metric_id (label : string) : string :=
  "loading_time_" ++ label ++ "_ms".

Definition aggregate_metric_id (label : string) : string :=
  "aggregate_median_" ++ label.

(** [compute_metrics(metrics)]: the report, and the accumulator as the call
    leaves it. *)
Definition compute_metrics (metrics : LogMetrics)
  : result (dict float * LogMetrics) :=
  let result : dict float := Dict.empty in
  let result :=
    fold_left (fun r '(label, val) => set (loading_metric_id label) val r)
      (loading_times metrics) result in
  result <-
    for_each (fun r '(label, vals) =>
        match vals with
        | [] => Ok r
        | _ =>
            median_val <- try_except (median vals) StatisticsError (Ok (literal "0.0")) ;;
            Ok (set (aggregate_metric_id label) median_val r)
        end)
      (aggregate_samples metrics) result ;;
  match frametimes metrics with
  | [] => Ok (result, metrics)
  | _ =>
      let sorted_frames := sorted (frametimes metrics) in
      p50 <- percentile sorted_frames (literal "0.50") ;;
      let result := set "frametime_p50_ms" p50 result in
      p95 <- percentile sorted_frames (literal "0.95") ;;
      let result := set "frametime_p95_ms" p95 result in
      Ok (result, metrics)
  end.

(* ################################################################# *)
(** * Notions used by the statements *)

(** The largest length a Python sequence or string can have. *)
Definition PY_SSIZE_T_MAX : Z := 2 ^ 63 - 1.

(** ** Role inference as the specification words it *)

Module RoleSpec.

(** The rule on a name [name]: an entry of the override mapping first, then
    the substring rules on the lower-cased name. *)
Definition spec_infer_role (name : string) (rolemap : option (dict string))
  : string :=
  match get name (entries rolemap) with
  | Some role => role
  | None =>
      let lower := PyStr.lower name in
      if PyStr.str_in "client" lower then "client"
      else if PyStr.str_in "server" lower then "server"
      else if PyStr.str_in "dedicated" lower then "dedicated"
      else "unknown"
  end.

Definition roles : list string := ["client"; "server"; "dedicated"; "unknown"].

End RoleSpec.

Import RoleSpec.

(** ** Reduction as the specification words it *)

Module ReducerSpec.

(** [index = round((n-1) * p)], in the arithmetic of the program. *)
Definition percentile_index (n : nat) (p : float) : result Z :=
  n1 <- of_int (Z.of_nat n - 1) ;;
  round (mul n1 p).

(** The metric identifiers of a report that name frame-time metrics. *)
Definition frame_metric_ids (report : dict float) : list string :=
  filter (prefix "frametime_") (keys report).

(** No element is smaller than the one before it. *)
Definition ascending (l : list float) : Prop :=
  Sorted (fun a b => ltb b a = false) l.

Definition is_nan (x : float) : bool :=
  match x with
  | S754_nan => true
  | _ => false
  end.

Definition no_nan (l : list float) : Prop :=
  Forall (fun x => is_nan x = false) l.

(** [a <= b], for floats that are not NaN. *)
Definition float_le (a b : float) : Prop := ltb b a = false.

(** [l'] holds the elements of [l] in ascending order, equal ones in the
    order they have in [l]: what a stable sort makes of [l]. *)
Definition stable_sort_of (l l' : list float) : Prop :=
  Permutation l' l
  /\ StronglySorted float_le l'
  /\ forall x, filter (eqb x) l' = filter (eqb x) l.

(** [s] is the only such arrangement of [l]. *)
Definition ascending_arrangement (l s : list float) : Prop :=
  stable_sort_of l s /\ forall l', stable_sort_of l l' -> l' = s.

Definition two : float := S754_finite false 4503599627370496 (-51).

(** The standard median: the middle value of the sorted samples, or the
    average of the two middle values when their number is even. *)
Definition spec_median (samples : list float) : option float :=
  let s := sorted samples in
  let n := List.length s in
  if (n =? 0)%nat then None
  else if Nat.odd n then nth_error s (n / 2)
  else
    match nth_error s (n / 2 - 1), nth_error s (n / 2) with
    | Some a, Some b => Some (SFdiv prec emax (add a b) two)
    | _, _ => None
    end.


End ReducerSpec.

Import ReducerSpec.

(** ** Aggregate tokens as the specification words them *)

Module AggregateSpec.

Definition float_or_zero (token : string) : float :=
  match of_str token with
  | Ok v => v
  | Raise _ => literal "0.0"
  end.

Definition trimmed (s : string) : Prop := PyStr.strip s = s.

(** Every token is kept; an empty one counts as 0.0. *)
Definition spec_values_keep_empty (values_str : string) : list float :=
  map (fun t =>
         let t := PyStr.strip t in
         if PyStr.is_empty t then literal "0.0" else float_or_zero t)
    (PyStr.split ";"%char values_str).

(** The tokens that are not empty once trimmed, trimmed. *)
Definition nonempty_tokens (s : string) : list string :=
  filter (fun t => negb (PyStr.is_empty t)) (map PyStr.strip (PyStr.split ";"%char s)).

End AggregateSpec.

Import AggregateSpec.

(** ** Sequences of record operations *)

Inductive record_op : Type :=
| OpLoadingTime (label : string) (value : float)
| OpAggregate (legend : list string) (values : list float)
| OpFps (fps : float).

Definition apply_op (self : LogMetrics) (op : record_op) : result LogMetrics :=
  match op with
  | OpLoadingTime label value => Ok (record_loading_time self label value)
  | OpAggregate legend values => Ok (record_aggregate self legend values)
  | OpFps fps => record_fps self fps
  end.



Definition nonneg_float (x : float) : Prop := leb zero x = true.

(** The right shift that rounding [m * 2 ^ e] to binary64 performs. *)
Definition shift_of (m e : Z) : Z :=
  Z.max 0 (fexp prec emax (Zdigits2 m + e) - e).

(** ** Auxiliary notions *)

Definition not_frame (k : string) : Prop := prefix "frametime_" k = false.

Definition loading_step (r : dict float) (p : string * float) : dict float :=
  let '(label, val) := p in set (loading_metric_id label) val r.

Definition aggregate_step (r : dict float) (p : string * list float)
  : result (dict float) :=
  let '(label, vals) := p in
  match vals with
  | [] => Ok r
  | _ =>
      median_val <- try_except (median vals) StatisticsError (Ok (literal "0.0")) ;;
      Ok (set (aggregate_metric_id label) median_val r)
  end.

Definition median_of (vals : list float) : option float :=
  match vals with
  | [] => None
  | _ => spec_median vals
  end.

(** The report before the frame-time metrics are added. *)
Definition samples_report (m : LogMetrics) (r : dict float) : Prop :=
  for_each aggregate_step (aggregate_samples m)
    (fold_left loading_step (loading_times m) Dict.empty) = Ok r.

Definition value_step (vals : list float) (token : string) : result (list float) :=
  let token := PyStr.strip token in
  if PyStr.is_empty token then Ok vals
  else
    v <- try_except (of_str token) ValueError (Ok (literal "0.0")) ;;
    Ok (vals ++ [v]).

Definition append_frametime (self : LogMetrics) (ft : float) : LogMetrics :=
  {| loading_times := loading_times self;
     aggregate_samples := aggregate_samples self;
     frametimes := frametimes self ++ [ft] |}.

(** What recording the payload of an event does to the accumulator. *)
Definition record_payload (metrics : LogMetrics) (p : option payload)
  : result LogMetrics :=
  match p with
  | Some (LoadingTime label value) => Ok (record_loading_time metrics label value)
  | Some (Aggregate legend values) => Ok (record_aggregate metrics legend values)
  | Some (FrameRate fps) => record_fps metrics fps
  | None => Ok metrics
  end.

Definition sample_frames : LogMetrics :=
  {| loading_times := [];
     aggregate_samples := [];
     frametimes := [literal "10.0"; literal "20.0"; literal "5.0"] |}.


Definition two_sessions : string :=
  "LOADING_TIME|Session=12.5" ++ String "010"%char "LOADING_TIME|Session=20".

Definition sample_aggregates : LogMetrics :=
  {| loading_times := [];
     aggregate_samples :=
       [("GPUTime", [literal "5"; literal "3"; literal "4"]);
        ("RenderThread", [literal "7"; literal "9"; literal "5"])];
     frametimes := [] |}.

(** The report of a file read into a fresh accumulator. *)
Definition file_report (text : string) : result (dict float) :=
  '(m, _) <- parse_log_file text new_metrics [] ;;
  '(report, _) <- compute_metrics m ;;
  Ok report.

Definition line_break : string := String "010"%char EmptyString.



(* ################################################################# *)
(** * Further notions: the accumulator, the role map and the run *)
(** ** Notions for the accumulator and the event stream *)

(** The values that a legend pairs with [label], in order. *)
Definition paired_values (label : string) (legend : list string)
  (values : list float) : list float :=
  map snd (filter (fun p => String.eqb (fst p) label) (combine legend values)).

(** The frame rates of a sequence of record operations, in order. *)
Definition recorded_fps (ops : list record_op) : list float :=
  flat_map (fun op => match op with OpFps fps => [fps] | _ => [] end) ops.

(** The frame rates of the events of a stream, in order. *)
Definition event_fps (events : list event) : list float :=
  flat_map (fun e => match kv e with Some (FrameRate fps) => [fps] | _ => [] end)
    events.

(** The frame times that a list of frame rates contributes. *)
Definition frame_times_of (fps : list float) : list float :=
  map (SFdiv prec emax (literal "1000.0")) (filter (ltb zero) fps).

(** What holds of every accumulator that record operations build: both
    mappings have unique keys and no label has an empty sample list. *)
Definition well_formed (m : LogMetrics) : Prop :=
  NoDup (keys (loading_times m))
  /\ NoDup (keys (aggregate_samples m))
  /\ Forall (fun p => snd p <> []) (aggregate_samples m).

(** The labels of the accumulator that have at least one sample. *)
Definition sampled_labels (agg : dict (list float)) : list string :=
  keys (filter (fun p => match snd p with [] => false | _ => true end) agg).

(** The metric identifiers of an accumulator, in the order of emission. *)
Definition metric_ids (m : LogMetrics) : list string :=
  map loading_metric_id (keys (loading_times m))
  ++ map aggregate_metric_id (sampled_labels (aggregate_samples m))
  ++ match frametimes m with
     | [] => []
     | _ => ["frametime_p50_ms"; "frametime_p95_ms"]
     end.

(** Whether a text ends with a line terminator. *)
Fixpoint ends_with_newline (s : string) : bool :=
  match s with
  | EmptyString => false
  | String c EmptyString => Ascii.eqb c "010"%char
  | String _ s' => ends_with_newline s'
  end.

(** Every character of the string satisfies [p]. *)
Fixpoint all_chars (p : ascii -> bool) (s : string) : bool :=
  match s with
  | EmptyString => true
  | String c s' => p c && all_chars p s'
  end.

(** The text of a number as the line patterns capture it: digits, and
    possibly a point followed by digits. *)
Definition number_text (ip fp : string) : string :=
  ip ++ (if PyStr.is_empty fp then EmptyString else String "."%char fp).

(** A digit or the decimal point. *)
Definition plain_char (c : ascii) : bool :=
  PyStr.is_digit c || Ascii.eqb c "."%char.

(** The texts of the lines of a text, without their terminators. *)
Definition raw_lines (t : string) : list string :=
  map PyStr.rstrip_newline (lines_of t).

(** ** The role map file *)

(** [s.split(sep, 1)] for a one-character separator. *)
Definition split_once (sep : ascii) (s : string) : list string :=
  let '(a, b) := PyStr.span (fun c => negb (Ascii.eqb c sep)) s in
  match b with
  | EmptyString => [a]
  | String _ r => [a; r]
  end.

(** [a, b = l] *)
Definition unpack2 {A : Type} (l : list A) : result (A * A) :=
  match l with
  | [a; b] => Ok (a, b)
  | _ => Raise ValueError
  end.

(** The body of the loop of [read_rolemap], on one line of the file. *)
Definition rolemap_line (mapping : dict string) (line : string)
  : result (dict string) :=
  let line := PyStr.strip line in
  if PyStr.is_empty line || prefix "#" line then Ok mapping
  else if negb (PyStr.str_in "=" line) then Ok mapping
  else
    '(fname, role) <- unpack2 (split_once "="%char line) ;;
    Ok (set (PyStr.strip fname) (PyStr.strip role) mapping).

(** [read_rolemap(path)].  [open_text p] is the text of the file at [p], or
    [None] when opening it raises [OSError]. *)
Definition read_rolemap (open_text : string -> option string)
  (path : option string) : result (option (dict string)) :=
  match path with
  | None | Some EmptyString => Ok None
  | Some p =>
      mapping <-
        match open_text p with
        | Some text => for_each rolemap_line (file_lines text) Dict.empty
        | None => Ok Dict.empty
        end ;;
      Ok (match mapping with
          | [] => None
          | _ => Some mapping
          end)
  end.

(** ** The run over a directory *)

(** [f"{value:.3f}"]: the decimal with three places nearest to the value,
    ties to even. *)
Definition digit_char (d : Z) : ascii := ascii_of_nat (48 + Z.to_nat d).

Definition format_3f (value : float) : string :=
  match value with
  | S754_nan => "nan"
  | S754_infinity s => if s then "-inf" else "inf"
  | S754_zero s => if s then "-0.000" else "0.000"
  | S754_finite s m e =>
      let n := if (0 <=? e)%Z then (Zpos m * 2 ^ e * 1000)%Z
               else round_half_even (Zpos m * 1000) (- e) in
      let q := (n / 1000)%Z in
      let r := (n mod 1000)%Z in
      ((if s then "-" else EmptyString)
       ++ NilZero.string_of_uint (N.to_uint (Z.to_N q))
       ++ String "."%char
            (String (digit_char (r / 100))
               (String (digit_char (r / 10 mod 10))
                  (String (digit_char (r mod 10)) EmptyString))))%string
  end.

(** What a name of the input directory is: a regular file with its text
    ([None] when opening it raises [OSError]), or anything else. *)
Inductive dir_entry : Type :=
| RegularFile (text : option string)
| NotAFile.

(** [sorted(names)] on strings. *)
Fixpoint insert_name (x : string) (l : list string) : list string :=
  match l with
  | [] => [x]
  | y :: l' => if String.ltb y x then y :: insert_name x l' else x :: l
  end.

Definition sorted_names (names : list string) : list string :=
  fold_right insert_name [] names.

Definition header : list string :=
  ["machine"; "build"; "origin"; "source_role"; "metric_id"; "value"].

(** How a run ends: normally, by an [OSError], or by another exception. *)
Inductive ending : Type :=
| Completed
| FileError
| Raised (e : exn).

(** What a run leaves behind: the events written to [events.jsonl], the
    rows written to [metrics.csv], each [None] when the file was never
    opened, and how the run ended. *)
Record outcome : Type := {
  events_jsonl : option (list event);
  metrics_csv : option (list (list string));
  ended : ending
}.

(** The first loop of [main], over the sorted names: the events written,
    the per-file reports collected, and how the loop ended. *)
Fixpoint process_files (indir : dict dir_entry) (names : list string)
  (events_fh : list event) (aggregated_metrics : list (string * dict float))
  : list event * list (string * dict float) * ending :=
  match names with
  | [] => (events_fh, aggregated_metrics, Completed)
  | fname :: names' =>
      match get fname indir with
      | Some (RegularFile (Some text)) =>
          match parse_log_file text new_metrics events_fh with
          | Ok (metrics, events_fh') =>
              match compute_metrics metrics with
              | Ok (per_file_metrics, _) =>
                  process_files indir names' events_fh'
                    (aggregated_metrics ++ [(fname, per_file_metrics)])
              | Raise e => (events_fh', aggregated_metrics, Raised e)
              end
          | Raise e => (events_fh, aggregated_metrics, Raised e)
          end
      | Some (RegularFile None) => (events_fh, aggregated_metrics, FileError)
      | Some NotAFile | None => process_files indir names' events_fh aggregated_metrics
      end
  end.

(** The rows of one file. *)
Definition file_rows (machine build origin role : string)
  (metric_map : dict float) : list (list string) :=
  map (fun '(metric_id, value) =>
         [machine; build; origin; role; metric_id; format_3f value])
    metric_map.

(** The second loop of [main]: the rows written, and how the loop ended. *)
Fixpoint write_rows (machine build origin : string)
  (rolemap : option (dict string))
  (aggregated_metrics : list (string * dict float))
  (rows : list (list string)) : list (list string) * ending :=
  match aggregated_metrics with
  | [] => (rows, Completed)
  | (fname, metric_map) :: rest =>
      match infer_role fname rolemap with
      | Ok role =>
          write_rows machine build origin rolemap rest
            (rows ++ file_rows machine build origin role metric_map)
      | Raise e => (rows, Raised e)
      end
  end.

(** [main()], after the arguments are parsed and the output directory is
    made, for an input directory [indir] that does not hold the output
    files. *)
Definition main (open_text : string -> option string) (indir : dict dir_entry)
  (machine build origin : string) (rolemap_path : option string) : outcome :=
  match read_rolemap open_text rolemap_path with
  | Raise e =>
      {| events_jsonl := None; metrics_csv := None; ended := Raised e |}
  | Ok rolemap =>
      let '(events, aggregated_metrics, e1) :=
        process_files indir (sorted_names (keys indir)) [] [] in
      match e1 with
      | Completed =>
          let '(rows, e2) :=
            write_rows machine build origin rolemap aggregated_metrics [header] in
          {| events_jsonl := Some events; metrics_csv := Some rows; ended := e2 |}
      | _ => {| events_jsonl := Some events; metrics_csv := None; ended := e1 |}
      end
  end.

(** ** Notions for the statements about a run *)

(** The event of a line: its text and its payload, whatever the
    accumulator holds. *)
Definition classify (line : string) : event :=
  let raw := PyStr.rstrip_newline line in
  {| raw := raw;
     kv :=
       match Re.loading_re raw with
       | Some (g1, g2) => Some (LoadingTime (PyStr.strip g1) (float_or_zero g2))
       | None =>
       match Re.aggregate_re raw with
       | Some (_, legend_str, values_str) =>
           Some (Aggregate (nonempty_tokens legend_str)
                   (map float_or_zero (nonempty_tokens values_str)))
       | None =>
       match Re.fps_re raw with
       | Some g1 =>
           match of_str g1 with
           | Ok fps => Some (FrameRate fps)
           | Raise _ => None
           end
       | None => None
       end end end |}.

(** The events of a file. *)
Definition file_events (text : string) : list event :=
  map classify (file_lines text).

(** The names of the regular files of a directory, sorted, with their
    texts, up to the first one that cannot be opened. *)
Fixpoint readable_prefix (indir : dict dir_entry) (names : list string)
  : list (string * string) :=
  match names with
  | [] => []
  | fname :: names' =>
      match get fname indir with
      | Some (RegularFile (Some text)) => (fname, text) :: readable_prefix indir names'
      | Some (RegularFile None) => []
      | _ => readable_prefix indir names'
      end
  end.

(** Whether every regular file among the names can be opened. *)
Definition all_readable (indir : dict dir_entry) (names : list string) : bool :=
  forallb (fun fname =>
             match get fname indir with
             | Some (RegularFile None) => false
             | _ => true
             end) names.

(** ** Notions for the statements about the role map *)

(** The entry that a line of the role map file contributes, if any. *)
Definition rolemap_entry (line : string) : option (string * string) :=
  let line := PyStr.strip line in
  if PyStr.is_empty line || prefix "#" line then None
  else
    let '(fname, rest) := PyStr.span (fun c => negb (Ascii.eqb c "="%char)) line in
    match rest with
    | EmptyString => None
    | String _ role => Some (PyStr.strip fname, PyStr.strip role)
    end.

(** The role that the lines give to [name]: that of the last entry for it. *)
Definition last_entry (name : string) (lines : list string) : option string :=
  fold_left (fun acc line =>
      match rolemap_entry line with
      | Some (k, v) => if String.eqb k name then Some v else acc
      | None => acc
      end)
    lines None.

Definition no_equals (s : string) : bool :=
  all_chars (fun c => negb (Ascii.eqb c "="%char)) s.

(** What holds of every file name that the role map can hold. *)
Definition overridable (name : string) : Prop :=
  trimmed name /\ no_equals name = true /\ prefix "#" name = false.


(** The name is that of a regular file of the directory. *)
Definition regular (indir : dict dir_entry) (fname : string) : bool :=
  match get fname indir with
  | Some (RegularFile _) => true
  | _ => false
  end.

(** The order of [sorted] on names: by code points. *)
Definition name_le (a b : string) : Prop := String.leb a b = true.

(** The text of every file of the directory is a Python string. *)
Definition texts_bounded (indir : dict dir_entry) : Prop :=
  Forall (fun entry =>
            match snd entry with
            | RegularFile (Some text) =>
                (Z.of_nat (String.length text) <= PY_SSIZE_T_MAX)%Z
            | _ => True
            end) indir.

(** No aggregate value among the events is a NaN ([float] accepts the
    token [nan]). *)
Definition nan_free_event (e : event) : bool :=
  match kv e with
  | Some (Aggregate _ values) => forallb (fun v => negb (is_nan v)) values
  | _ => true
  end.

Definition nan_free (events : list event) : bool :=
  forallb nan_free_event events.

(** No list that the reducer sorts holds a NaN. *)
Definition sorts_no_nan (m : LogMetrics) : Prop :=
  no_nan (frametimes m)
  /\ Forall (fun p => no_nan (snd p)) (aggregate_samples m).

(** A decimal numeral with exactly three fractional digits. *)
Definition decimal_3 (s : string) : bool :=
  let body := match s with
              | String c r => if Ascii.eqb c "-"%char then r else s
              | EmptyString => s
              end in
  let '(int_part, rest) := PyStr.span PyStr.is_digit body in
  negb (PyStr.is_empty int_part)
  && match rest with
     | String "."%char (String d1 (String d2 (String d3 EmptyString))) =>
         PyStr.is_digit d1 && PyStr.is_digit d2 && PyStr.is_digit d3
     | _ => false
     end.

Definition is_finite (v : float) : bool :=
  match v with
  | S754_zero _ | S754_finite _ _ _ => true
  | _ => false
  end.

(** A directory of two logs and a subdirectory, and one with a log that
    cannot be opened. *)
Definition sample_dir : dict dir_entry :=
  [("server.log", RegularFile (Some two_sessions));
   ("old", NotAFile);
   ("client.log", RegularFile (Some "Perf: FPS=50"))].

Definition locked_dir : dict dir_entry :=
  [("c.log", RegularFile (Some "Perf: FPS=50"));
   ("b.log", RegularFile None);
   ("a.log", RegularFile (Some two_sessions))].

(* ################################################################# *)
(** * Properties *)

Section FloatFacts.

Local Open Scope Z_scope.

(** ** Facts on binary64 rounding *)

Lemma digits2_pos_size (p : positive) : digits2_pos p = Pos.size p.
Proof.
  induction p; simpl; congruence.
Qed.

Lemma Zdigits2_log2 (m : Z) : 0 < m -> Zdigits2 m = Z.log2 m + 1.
Proof.
  destruct m as [|p|p]; try lia. intros _. simpl.
  rewrite digits2_pos_size. destruct p; simpl; lia.
Qed.

Lemma Zdigits2_bounds (m : Z) :
  0 < m -> 2 ^ (Zdigits2 m - 1) <= m < 2 ^ Zdigits2 m.
Proof.
  intros Hm. rewrite (Zdigits2_log2 m Hm).
  replace (Z.log2 m + 1 - 1) with (Z.log2 m) by lia.
  exact (Z.log2_spec m Hm).
Qed.

Lemma shr_1_m (r : shr_record) :
  0 <= shr_m r -> shr_m (shr_1 r) = shr_m r / 2.
Proof.
  destruct r as [m r s]. unfold shr_1, shr_m.
  destruct m as [|[p|p|]|p]; intros H; try lia; try reflexivity.
  - change (Z.pos p~1) with (2 * Z.pos p + 1). 
    apply Z.div_unique with 1; lia.
  - change (Z.pos p~0) with (2 * Z.pos p).
    apply Z.div_unique with 0; lia.
Qed.

Lemma iter_pos_shr_1_m (p : positive) (r : shr_record) :
  0 <= shr_m r -> shr_m (iter_pos shr_1 p r) = shr_m r / 2 ^ Zpos p.
Proof.
  revert r. induction p as [p IH|p IH|]; intros r Hr; cbn [iter_pos].
  - assert (H1 : 0 <= shr_m (shr_1 r)) by (rewrite shr_1_m by assumption; apply Z.div_pos; lia).
    assert (H2 : 0 <= shr_m (iter_pos shr_1 p (shr_1 r)))
      by (rewrite IH by assumption; apply Z.div_pos; lia).
    assert (Hp : 0 < 2 ^ Z.pos p) by (apply Z.pow_pos_nonneg; lia).
    rewrite IH, IH, shr_1_m by assumption.
    rewrite !Z.div_div by lia. f_equal.
    replace (Z.pos p~1) with (1 + Z.pos p + Z.pos p) by lia.
    rewrite !Z.pow_add_r by lia. change (2 ^ 1) with 2. lia.
  - assert (H2 : 0 <= shr_m (iter_pos shr_1 p r))
      by (rewrite IH by assumption; apply Z.div_pos; lia).
    assert (Hp : 0 < 2 ^ Z.pos p) by (apply Z.pow_pos_nonneg; lia).
    rewrite IH, IH by assumption.
    rewrite !Z.div_div by lia. f_equal.
    replace (Z.pos p~0) with (Z.pos p + Z.pos p) by lia.
    rewrite !Z.pow_add_r by lia. lia.
  - rewrite shr_1_m by assumption. reflexivity.
Qed.

Lemma shr_fexp_spec (m e : Z) (l : location) :
  0 <= m ->
  shr_m (fst (shr_fexp prec emax m e l)) = m / 2 ^ shift_of m e
  /\ snd (shr_fexp prec emax m e l) = e + shift_of m e.
Proof.
  intros Hm. unfold shr_fexp, shift_of, shr.
  assert (Hl : shr_m (shr_record_of_loc m l) = m) by (destruct l as [|[]]; reflexivity).
  destruct (fexp prec emax (Zdigits2 m + e) - e) as [|p|p] eqn:E; cbn [fst snd].
  - rewrite Hl. change (Z.max 0 0) with 0. rewrite Z.div_1_r. lia.
  - rewrite iter_pos_shr_1_m by lia. rewrite Hl.
    replace (Z.max 0 (Z.pos p)) with (Z.pos p) by lia. lia.
  - rewrite Hl. replace (Z.max 0 (Z.neg p)) with 0 by lia.
    rewrite Z.div_1_r. lia.
Qed.

Lemma round_nearest_even_bounds (m : Z) (l : location) :
  m <= round_nearest_even m l <= m + 1.
Proof.
  destruct l as [|[]]; simpl; try lia. destruct (Z.even m); lia.
Qed.

Lemma binary_round_aux_spec (s : bool) (m e : Z) (l : location) :
  0 <= m ->
  exists m2,
    m / 2 ^ shift_of m e <= m2 <= m / 2 ^ shift_of m e + 1
    /\ binary_round_aux prec emax s m e l
       = match m2 / 2 ^ shift_of m2 (e + shift_of m e) with
         | Z0 => S754_zero s
         | Zpos p =>
             if e + shift_of m e + shift_of m2 (e + shift_of m e) <=? emax - prec
             then S754_finite s p (e + shift_of m e + shift_of m2 (e + shift_of m e))
             else S754_infinity s
         | Zneg _ => S754_nan
         end.
Proof.
  intros Hm. unfold binary_round_aux.
  destruct (shr_fexp_spec m e l Hm) as [H1 H2].
  destruct (shr_fexp prec emax m e l) as [r1 e1]. cbn [fst snd] in H1, H2.
  set (m2 := round_nearest_even (shr_m r1) (loc_of_shr_record r1)).
  assert (Hm1 : 0 <= shr_m r1).
  { rewrite H1. apply Z.div_pos; [assumption|]. apply Z.pow_pos_nonneg; unfold shift_of; lia. }
  assert (Hb : shr_m r1 <= m2 <= shr_m r1 + 1) by apply round_nearest_even_bounds.
  destruct (shr_fexp_spec m2 e1 loc_Exact ltac:(lia)) as [H3 H4].
  destruct (shr_fexp prec emax m2 e1 loc_Exact) as [r2 e2]. cbn [fst snd] in H3, H4.
  exists m2. split; [lia|].
  subst e1. rewrite H3, H4. reflexivity.
Qed.

Lemma Zdigits2_le_pow (m n : Z) : 0 < m -> m < 2 ^ n -> Zdigits2 m <= n.
Proof.
  intros Hm Hlt.
  destruct (Z_lt_le_dec n (Zdigits2 m)) as [H|H]; [|assumption].
  exfalso. pose proof (Zdigits2_bounds m Hm) as [Hlo _].
  assert (0 <= n).
  { destruct (Z_lt_le_dec n 0) as [Hn|]; [|assumption].
    rewrite Z.pow_neg_r in Hlt by assumption. lia. }
  assert (2 ^ n <= 2 ^ (Zdigits2 m - 1)) by (apply Z.pow_le_mono_r; lia).
  lia.
Qed.

Lemma Zdigits2_ge_pow (m n : Z) : 0 <= n -> 2 ^ n <= m -> n + 1 <= Zdigits2 m.
Proof.
  intros Hn Hle.
  assert (Hm : 0 < m) by (pose proof (Z.pow_pos_nonneg 2 n); lia).
  rewrite (Zdigits2_log2 m Hm).
  apply Z.log2_le_pow2 in Hle; lia.
Qed.

Lemma binary_round_aux_normal (s : bool) (m e : Z) (l : location) :
  0 < m ->
  -1074 <= Zdigits2 m + e - 53 ->
  exists p3 e3,
    binary_round_aux prec emax s m e l
    = (if e3 <=? emax - prec then S754_finite s p3 e3 else S754_infinity s)
    /\ e <= e3 <= e + Z.max 0 (Zdigits2 m - 53) + 1
    /\ Zpos p3 * 2 ^ (e3 - e) <= m + 2 ^ Z.max 0 (Zdigits2 m - 53)
    /\ Zpos p3 < 2 ^ 53.
Proof.
  intros Hm Hn.
  destruct (binary_round_aux_spec s m e l ltac:(lia)) as (m2 & Hm2 & ->).
  pose proof (Zdigits2_bounds m Hm) as [Hlo Hhi].
  set (d := Zdigits2 m) in *.
  assert (Hd : 1 <= d) by (subst d; destruct m; simpl in *; lia).
  assert (Hsh1 : shift_of m e = Z.max 0 (d - 53)).
  { unfold shift_of, fexp, SpecFloat.emin, prec, emax. fold d. lia. }
  rewrite Hsh1 in *.
  set (sh1 := Z.max 0 (d - 53)) in *.
  assert (Hp1 : 0 < 2 ^ sh1) by (apply Z.pow_pos_nonneg; lia).
  assert (Hm1lo : 1 <= m / 2 ^ sh1).
  { apply Z.div_le_lower_bound; [assumption|].
    rewrite Z.mul_1_r. transitivity (2 ^ (d - 1)); [|assumption].
    apply Z.pow_le_mono_r; lia. }
  assert (Hm1hi : m / 2 ^ sh1 < 2 ^ 53).
  { apply Z.div_lt_upper_bound; [assumption|].
    rewrite <- Z.pow_add_r by lia.
    eapply Z.lt_le_trans; [exact Hhi|]. apply Z.pow_le_mono_r; lia. }
  pose proof (Z.mul_div_le m (2 ^ sh1) Hp1) as Hmd.
  assert (Hm2pos : 0 < m2) by lia.
  assert (Hd2hi : Zdigits2 m2 <= 54).
  { apply Zdigits2_le_pow; [assumption|]. change (2 ^ 54) with (2 * 2 ^ 53). lia. }
  assert (Hd2lo : 1 <= Zdigits2 m2) by (destruct m2; simpl in *; lia).
  assert (Hsh2 : shift_of m2 (e + sh1) = Z.max 0 (Zdigits2 m2 - 53)).
  { unfold shift_of, fexp, SpecFloat.emin, prec, emax. lia. }
  rewrite Hsh2.
  set (sh2 := Z.max 0 (Zdigits2 m2 - 53)) in *.
  assert (Hcase : (sh2 = 0 /\ m2 < 2 ^ 53) \/ (sh2 = 1 /\ m2 = 2 ^ 53)).
  { destruct (Z_lt_le_dec m2 (2 ^ 53)) as [Hlt|Hge].
    - left. split; [|assumption]. 
      pose proof (Zdigits2_le_pow m2 53 Hm2pos Hlt). lia.
    - right. pose proof (Zdigits2_ge_pow m2 53 ltac:(lia) Hge). lia. }
  destruct Hcase as [[E2 Hlt]|[E2 Heq]]; rewrite E2.
  - change (2 ^ 0) with 1. rewrite Z.div_1_r.
    destruct m2 as [|p3|]; try lia.
    exists p3, (e + sh1 + 0). split; [reflexivity|].
    split; [lia|]. split; [|assumption].
    replace (e + sh1 + 0 - e) with sh1 by lia. nia.
  - rewrite Heq. change (2 ^ 53 / 2 ^ 1) with (Zpos (4503599627370496)).
    exists 4503599627370496%positive, (e + sh1 + 1). split; [reflexivity|].
    split; [lia|]. split; [|reflexivity].
    replace (e + sh1 + 1 - e) with (sh1 + 1) by lia.
    rewrite Z.pow_add_r by lia. change (2 ^ 1) with 2.
    change (Z.pos 4503599627370496 * (2 ^ sh1 * 2)) with (2 ^ 52 * (2 ^ sh1 * 2)).
    change (2 ^ 53) with (2 ^ 52 * 2) in Heq. nia.
Qed.

Lemma iter_xO_pow (mx d : positive) :
  Zpos (Pos.iter xO mx d) = Zpos mx * 2 ^ Zpos d.
Proof.
  induction d as [|d IH] using Pos.peano_ind.
  - simpl. lia.
  - rewrite Pos.iter_succ, Pos2Z.inj_xO, IH, Pos2Z.inj_succ, Z.pow_succ_r by lia. lia.
Qed.

Lemma shl_align_spec (mx : positive) (ex ex' : Z) :
  snd (shl_align mx ex ex') = Z.min ex ex'
  /\ Zpos (fst (shl_align mx ex ex'))
     = Zpos mx * 2 ^ (ex - Z.min ex ex').
Proof.
  unfold shl_align. destruct (ex' - ex) as [|d|d] eqn:E; cbn [fst snd].
  - replace (Z.min ex ex') with ex by lia. rewrite Z.sub_diag. lia.
  - replace (Z.min ex ex') with ex by lia. rewrite Z.sub_diag. lia.
  - replace (Z.min ex ex') with ex' by lia. rewrite iter_xO_pow.
    split; [reflexivity|]. f_equal. f_equal. lia.
Qed.

Lemma of_int_pos (k : Z) :
  0 < k < 2 ^ 63 ->
  exists p1 e1,
    of_int k = Ok (S754_finite false p1 e1)
    /\ -52 <= e1 <= 11
    /\ Zpos p1 < 2 ^ 53
    /\ Zpos p1 * 2 ^ (e1 + 52) <= k * (2 ^ 52 + 1).
Proof.
  intros [Hk Hk63]. destruct k as [|q|q]; try lia.
  unfold of_int, binary_normalize, binary_round.
  pose proof (shl_align_spec q 0 (fexp prec emax (Z.pos (digits2_pos q) + 0))) as [Hez Hmz].
  destruct (shl_align q 0 _) as [mz ez]. cbn [fst snd] in Hez, Hmz.
  pose proof (Zdigits2_bounds (Zpos q) Hk) as [Hlo Hhi].
  change (Zdigits2 (Z.pos q)) with (Z.pos (digits2_pos q)) in Hlo, Hhi.
  set (d := Z.pos (digits2_pos q)) in *.
  assert (Hd1 : 1 <= d) by (subst d; lia).
  assert (Hd63 : d <= 63).
  { pose proof (Zdigits2_le_pow (Zpos q) 63 Hk Hk63) as H. exact H. }
  assert (Eez : ez = Z.min 0 (d - 53)).
  { rewrite Hez. unfold fexp, SpecFloat.emin, prec, emax. lia. }
  rewrite <- Hez in Hmz. rewrite Z.sub_0_l in Hmz.
  assert (Hdz : Zdigits2 (Zpos mz) = d - ez).
  { rewrite Zdigits2_log2 by lia. rewrite Hmz, Z.log2_mul_pow2 by lia.
    pose proof (Zdigits2_log2 (Zpos q) Hk) as Hq.
    change (Zdigits2 (Z.pos q)) with d in Hq. lia. }
  destruct (binary_round_aux_normal false (Zpos mz) ez loc_Exact ltac:(lia) ltac:(lia))
    as (p3 & e3 & Hr & He3 & Hb & Hp3).
  rewrite Hdz in He3, Hb.
  assert (Hle : (e3 <=? emax - prec) = true) by (apply Z.leb_le; unfold emax, prec; lia).
  rewrite Hle in Hr. rewrite Hr.
  exists p3, e3. split; [reflexivity|]. split; [lia|]. split; [assumption|].
  replace (e3 + 52) with ((e3 - ez) + (ez + 52)) by lia.
  rewrite Z.pow_add_r by lia.
  assert (Hs : 2 ^ Z.max 0 (d - ez - 53) * 2 ^ (ez + 52) = 2 ^ (d - 1)).
  { rewrite <- Z.pow_add_r by lia. f_equal. lia. }
  assert (Hz : Zpos mz * 2 ^ (ez + 52) = Zpos q * 2 ^ 52).
  { rewrite Hmz, <- Z.mul_assoc, <- Z.pow_add_r by lia. f_equal. f_equal. lia. }
  assert (Hpp : 0 < 2 ^ (ez + 52)) by (apply Z.pow_pos_nonneg; lia).
  assert (Hpq : 0 < 2 ^ (e3 - ez)) by (apply Z.pow_pos_nonneg; lia).
  set (A := 2 ^ (e3 - ez)) in *. set (B := 2 ^ (ez + 52)) in *.
  set (C := 2 ^ Z.max 0 (d - ez - 53)) in *.
  assert (Z.pos p3 * A * B <= (Z.pos mz + C) * B) by nia.
  nia.
Qed.

Lemma mul_pct_bound (p1 M : positive) (e1 : Z) :
  -52 <= e1 <= 11 ->
  Zpos p1 < 2 ^ 53 ->
  Zpos M < 2 ^ 53 ->
  exists p2 e2,
    mul (S754_finite false p1 e1) (S754_finite false M (-53))
    = S754_finite false p2 e2
    /\ e1 - 53 <= e2
    /\ Zpos p2 * 2 ^ (e2 - e1 + 53) <= Zpos p1 * (Zpos M + 2).
Proof.
  intros He1 Hp1 HM. unfold mul, SFmul. cbn [xorb].
  rewrite Pos2Z.inj_mul.
  set (m := Zpos p1 * Zpos M).
  assert (Hm : 0 < m) by (subst m; lia).
  assert (Hmhi : m < 2 ^ 106).
  { change (2 ^ 106) with (2 ^ 53 * 2 ^ 53). subst m. nia. }
  pose proof (Zdigits2_le_pow m 106 Hm Hmhi) as Hd.
  assert (Hd1 : 1 <= Zdigits2 m) by (destruct m; simpl in *; lia).
  destruct (binary_round_aux_normal false m (e1 + -53) loc_Exact Hm ltac:(lia))
    as (p3 & e3 & Hr & He3 & Hb & Hp3).
  assert (Hle : (e3 <=? emax - prec) = true) by (apply Z.leb_le; unfold emax, prec; lia).
  rewrite Hle in Hr. rewrite Hr.
  exists p3, e3. split; [reflexivity|]. split; [lia|].
  replace (e3 - e1 + 53) with (e3 - (e1 + -53)) by lia.
  assert (Hc : 2 ^ Z.max 0 (Zdigits2 m - 53) <= 2 * Zpos p1).
  { destruct (Z_le_gt_dec (Zdigits2 m) 53) as [H|H].
    - replace (Z.max 0 (Zdigits2 m - 53)) with 0 by lia. simpl. lia.
    - replace (Z.max 0 (Zdigits2 m - 53)) with (Zdigits2 m - 54 + 1) by lia.
      rewrite Z.pow_add_r by lia. change (2 ^ 1) with 2.
      pose proof (Zdigits2_bounds m Hm) as [Hlo _].
      replace (Zdigits2 m - 1) with (Zdigits2 m - 54 + 53) in Hlo by lia.
      rewrite Z.pow_add_r in Hlo by lia.
      assert (0 < 2 ^ (Zdigits2 m - 54)) by (apply Z.pow_pos_nonneg; lia).
      subst m. nia. }
  subst m. nia.
Qed.

Lemma round_half_even_bounds (m sh : Z) :
  0 <= m -> 0 < sh ->
  m / 2 ^ sh <= round_half_even m sh <= m / 2 ^ sh + 1
  /\ (m mod 2 ^ sh = 0 -> round_half_even m sh = m / 2 ^ sh).
Proof.
  intros Hm Hsh. unfold round_half_even.
  rewrite Z.shiftr_div_pow2, Z.shiftl_mul_pow2, Z.shiftl_mul_pow2 by lia.
  assert (Hp : 0 < 2 ^ sh) by (apply Z.pow_pos_nonneg; lia).
  pose proof (Z.div_mod m (2 ^ sh) ltac:(lia)) as Hdm.
  rewrite Z.mul_1_l.
  destruct (Z.compare_spec (2 * (m - m / 2 ^ sh * 2 ^ sh)) (2 ^ sh)) as [H|H|H].
  - split; [destruct (Z.even _); lia|]. intros Hz. nia.
  - split; [lia|reflexivity].
  - split; [lia|]. intros Hz. nia.
Qed.

Lemma round_le (p : positive) (e k sc : Z) :
  0 <= sc -> 0 <= e + sc ->
  Zpos p * 2 ^ (e + sc) <= k * 2 ^ sc ->
  exists r, round (S754_finite false p e) = Ok r /\ 0 <= r <= k.
Proof.
  intros Hsc Hesc Hb. unfold round.
  assert (Hps : 0 < 2 ^ sc) by (apply Z.pow_pos_nonneg; lia).
  destruct (Z.leb_spec 0 e) as [He|He].
  - eexists. split; [reflexivity|].
    rewrite Z.shiftl_mul_pow2 by assumption.
    rewrite Z.pow_add_r in Hb by lia.
    assert (0 < 2 ^ e) by (apply Z.pow_pos_nonneg; lia). nia.
  - eexists. split; [reflexivity|].
    destruct (round_half_even_bounds (Zpos p) (- e) ltac:(lia) ltac:(lia)) as [[Hlo Hhi] Hex].
    assert (Hpe : 0 < 2 ^ (- e)) by (apply Z.pow_pos_nonneg; lia).
    assert (Hs : 2 ^ sc = 2 ^ (e + sc) * 2 ^ (- e)).
    { rewrite <- Z.pow_add_r by lia. f_equal. lia. }
    assert (Hpes : 0 < 2 ^ (e + sc)) by (apply Z.pow_pos_nonneg; lia).
    assert (Hpk : Zpos p <= k * 2 ^ (- e)) by (rewrite Hs in Hb; nia).
    assert (0 <= Zpos p / 2 ^ (- e)) by (apply Z.div_pos; lia).
    split; [lia|].
    pose proof (Z.div_mod (Zpos p) (2 ^ (- e)) ltac:(lia)) as Hdm.
    pose proof (Z.mod_pos_bound (Zpos p) (2 ^ (- e)) Hpe) as Hmb.
    assert (Hq : Zpos p / 2 ^ (- e) <= k) by nia.
    destruct (Z.eq_dec (Zpos p / 2 ^ (- e)) k) as [E|E]; [|lia].
    rewrite Hex; [lia|]. nia.
Qed.

Lemma percentile_index_bound (k : Z) (M : positive) :
  0 <= k < 2 ^ 63 ->
  Zpos M <= 2 ^ 53 - 4 ->
  exists f r,
    of_int k = Ok f
    /\ round (mul f (S754_finite false M (-53))) = Ok r
    /\ 0 <= r <= k.
Proof.
  intros [Hk0 Hk] HM.
  destruct (Z.eq_dec k 0) as [->|Hnz].
  - exists (S754_zero false), 0. repeat split; reflexivity || lia.
  - destruct (of_int_pos k ltac:(lia)) as (p1 & e1 & Hof & He1 & Hp1 & Hb1).
    destruct (mul_pct_bound p1 M e1 He1 Hp1 ltac:(lia)) as (p2 & e2 & Hmul & He2 & Hb2).
    destruct (round_le p2 e2 k 105 ltac:(lia) ltac:(lia)) as (r & Hr & Hrange).
    + replace (e2 + 105) with ((e2 - e1 + 53) + (e1 + 52)) by lia.
      rewrite Z.pow_add_r by lia.
      assert (0 < 2 ^ (e1 + 52)) by (apply Z.pow_pos_nonneg; lia).
      assert (0 < 2 ^ (e2 - e1 + 53)) by (apply Z.pow_pos_nonneg; lia).
      set (A := 2 ^ (e2 - e1 + 53)) in *. set (B := 2 ^ (e1 + 52)) in *.
      assert (H1 : Zpos p2 * A * B <= Zpos p1 * (Zpos M + 2) * B) by nia.
      assert (H2 : Zpos p1 * B * (Zpos M + 2) <= k * (2 ^ 52 + 1) * (Zpos M + 2)) by nia.
      assert (H3 : (2 ^ 52 + 1) * (Zpos M + 2) <= 2 ^ 105).
      { change (2 ^ 105) with (2 ^ 52 * 2 ^ 53). nia. }
      nia.
    + exists (S754_finite false p1 e1), r. rewrite Hmul. auto.
Qed.

Lemma literal_1000 : literal "1000.0" = S754_finite false 8796093022208000 (-43).
Proof. vm_compute. reflexivity. Qed.

Lemma literal_050 : literal "0.50" = S754_finite false 4503599627370496 (-53).
Proof. vm_compute. reflexivity. Qed.

Lemma literal_095 : literal "0.95" = S754_finite false 8556839292003942 (-53).
Proof. vm_compute. reflexivity. Qed.



End FloatFacts.

(** ** Dictionaries *)

Section DictFacts.

Context {V : Type}.
Implicit Types (d : dict V) (k : string) (v : V).

Lemma get_set_same k v d : get k (set k v d) = Some v.
Proof.
  induction d as [|[k' v'] d IH]; simpl.
  - now rewrite String.eqb_refl.
  - destruct (String.eqb k' k) eqn:E; simpl.
    + now rewrite String.eqb_refl.
    + now rewrite E.
Qed.

Lemma get_set_other k k' v d : k <> k' -> get k (set k' v d) = get k d.
Proof.
  intros Hne. induction d as [|[k0 v0] d IH]; simpl.
  - destruct (String.eqb_spec k' k); congruence.
  - destruct (String.eqb_spec k0 k') as [->|H0]; simpl.
    + destruct (String.eqb_spec k' k); congruence.
    + destruct (String.eqb_spec k0 k); congruence.
Qed.

Lemma get_none_not_in k d : get k d = None <-> ~ In k (keys d).
Proof.
  induction d as [|[k0 v0] d IH]; simpl.
  - tauto.
  - destruct (String.eqb_spec k0 k) as [->|H0].
    + split; [discriminate|tauto].
    + rewrite IH. tauto.
Qed.

Lemma set_fresh k v d : get k d = None -> set k v d = d ++ [(k, v)].
Proof.
  induction d as [|[k0 v0] d IH]; simpl; [reflexivity|].
  destruct (String.eqb_spec k0 k); [discriminate|].
  intros H. now rewrite IH.
Qed.

Lemma keys_set_in k k' v d : In k (keys (set k' v d)) -> k = k' \/ In k (keys d).
Proof.
  induction d as [|[k0 v0] d IH]; simpl.
  - intuition.
  - destruct (String.eqb_spec k0 k') as [->|H0]; simpl; intuition.
Qed.

Lemma keys_set_present k v d : get k d <> None -> keys (set k v d) = keys d.
Proof.
  induction d as [|[k0 v0] d IH]; simpl; [congruence|].
  destruct (String.eqb_spec k0 k) as [->|H0]; simpl; [reflexivity|].
  intros H. now rewrite IH.
Qed.

Lemma NoDup_keys_set k v d : NoDup (keys d) -> NoDup (keys (set k v d)).
Proof.
  intros Hnd. destruct (get k d) eqn:E.
  - rewrite keys_set_present by congruence. assumption.
  - rewrite set_fresh by assumption. unfold keys. rewrite map_app. simpl.
    apply get_none_not_in in E.
    apply NoDup_app; [assumption|repeat constructor; simpl; tauto|].
    intros x Hx [<-|[]]. exact (E Hx).
Qed.

End DictFacts.

(** ** Metric identifiers *)

Lemma length_append (a b : string) :
  String.length (a ++ b) = (String.length a + String.length b)%nat.
Proof.
  induction a as [|c a IH]; simpl; congruence.
Qed.

Lemma append_cancel_r (a b t : string) : (a ++ t = b ++ t)%string -> a = b.
Proof.
  revert b. induction a as [|c a IH]; intros [|c' b] H; simpl in H.
  - reflexivity.
  - exfalso. apply (f_equal String.length) in H. simpl in H.
    rewrite length_append in H. lia.
  - exfalso. apply (f_equal String.length) in H. simpl in H.
    rewrite length_append in H. lia.
  - injection H as -> H. f_equal. now apply IH.
Qed.

Lemma loading_metric_id_inj (a b : string) :
  loading_metric_id a = loading_metric_id b -> a = b.
Proof.
  unfold loading_metric_id. simpl. intros H. injection H as H.
  now apply append_cancel_r in H.
Qed.

Lemma aggregate_metric_id_inj (a b : string) :
  aggregate_metric_id a = aggregate_metric_id b -> a = b.
Proof.
  unfold aggregate_metric_id. simpl. intros H. now injection H.
Qed.

Lemma loading_not_aggregate (a b : string) :
  loading_metric_id a <> aggregate_metric_id b.
Proof. discriminate. Qed.

Lemma loading_not_frame (a : string) : prefix "frametime_" (loading_metric_id a) = false.
Proof. reflexivity. Qed.

Lemma aggregate_not_frame (a : string) : prefix "frametime_" (aggregate_metric_id a) = false.
Proof. reflexivity. Qed.

(** ** Sorting *)

Lemma SFcompare_antisym (x y : float) :
  SFcompare y x = option_map CompOpp (SFcompare x y).
Proof.
  destruct x as [sx|sx| |sx mx ex], y as [sy|sy| |sy my ey]; simpl;
    try reflexivity;
    try (destruct sx; reflexivity); try (destruct sy; reflexivity);
    try (destruct sx, sy; reflexivity).
  pose proof (Pos.compare_cont_antisym mx my Eq) as Hm. simpl in Hm.
  destruct sx, sy; try reflexivity; f_equal;
    rewrite (Z.compare_antisym ex ey); destruct (ex ?= ey)%Z; simpl;
    try reflexivity; rewrite <- Hm; try reflexivity.
Qed.

Lemma ltb_asym (x y : float) : ltb x y = true -> ltb y x = false.
Proof.
  unfold ltb, SFltb. rewrite (SFcompare_antisym x y).
  destruct (SFcompare x y) as [[]|]; simpl; congruence.
Qed.

Lemma insert_sorted_perm (x : float) (l : list float) :
  Permutation (insert_sorted x l) (x :: l).
Proof.
  induction l as [|y l IH]; simpl; [reflexivity|].
  destruct (ltb y x); [|reflexivity].
  rewrite IH. apply perm_swap.
Qed.

Lemma sorted_perm (l : list float) : Permutation (sorted l) l.
Proof.
  induction l as [|x l IH]; simpl; [reflexivity|].
  unfold sorted in *. simpl. rewrite insert_sorted_perm. now constructor.
Qed.

Lemma sorted_length (l : list float) : List.length (sorted l) = List.length l.
Proof. apply Permutation_length, sorted_perm. Qed.

Lemma sorted_in (x : float) (l : list float) : In x (sorted l) <-> In x l.
Proof.
  split; apply Permutation_in; [|symmetry]; apply sorted_perm.
Qed.

Lemma insert_sorted_ascending (x : float) (l : list float) :
  ascending l -> ascending (insert_sorted x l).
Proof.
  unfold ascending. induction l as [|y l IH]; intros Hs; simpl.
  - repeat constructor.
  - destruct (ltb y x) eqn:E.
    + inversion Hs as [|? ? Hs' Hhd]; subst.
      constructor; [now apply IH|].
      destruct l as [|z l]; simpl.
      * constructor. now apply ltb_asym.
      * destruct (ltb z x) eqn:E'.
        -- constructor. now inversion Hhd.
        -- constructor. now apply ltb_asym.
    + constructor; [assumption|]. now constructor.
Qed.

Lemma sorted_ascending (l : list float) : ascending (sorted l).
Proof.
  induction l as [|x l IH]; [constructor|].
  apply insert_sorted_ascending, IH.
Qed.

(** *** Without NaN: the ascending stable arrangement, and the only one *)

Lemma compare_le_trans_float (a b c : float) :
  is_nan b = false ->
  SFcompare a b <> Some Gt -> SFcompare b c <> Some Gt ->
  is_nan a = false -> is_nan c = false ->
  SFcompare a c <> Some Gt.
Proof.
  intros Hb Hab Hbc Ha Hc.
  destruct a as [sa|sa| |sa ma ea], b as [sb|sb| |sb mb eb],
    c as [sc|sc| |sc mc ec]; try discriminate;
    cbn [SFcompare] in *;
    try (destruct sa; try discriminate; try congruence);
    try (destruct sb; try discriminate; try congruence);
    try (destruct sc; try discriminate; try congruence).
  all: rewrite ?Pos.compare_cont_spec in *; cbn [Pos.switch_Eq] in *.
  all: destruct (Z.compare_spec ea eb); try congruence;
    destruct (Z.compare_spec eb ec); try congruence;
    destruct (Z.compare_spec ea ec); try congruence; try lia; subst.
  all: destruct (Pos.compare_spec ma mb); cbn in *; try congruence;
    destruct (Pos.compare_spec mb mc); cbn in *; try congruence;
    destruct (Pos.compare_spec ma mc); cbn in *; try congruence; lia.
Qed.

Lemma compare_no_nan (a b : float) :
  is_nan a = false -> is_nan b = false -> exists c, SFcompare a b = Some c.
Proof.
  destruct a, b; try discriminate; intros _ _; cbn [SFcompare]; eauto.
Qed.

Lemma float_le_compare (a b : float) :
  float_le a b <-> SFcompare a b <> Some Gt.
Proof.
  unfold float_le, ltb, SFltb. rewrite (SFcompare_antisym a b).
  destruct (SFcompare a b) as [[]|]; simpl; split; congruence.
Qed.

Lemma float_le_trans (a b c : float) :
  is_nan b = false -> float_le a b -> float_le b c -> float_le a c.
Proof.
  intros Hb Hab Hbc.
  destruct (is_nan a) eqn:Ha; [destruct a; try discriminate; now destruct c|].
  destruct (is_nan c) eqn:Hc;
    [destruct c; try discriminate; unfold float_le; now destruct a|].
  rewrite float_le_compare in *. now apply (compare_le_trans_float a b c).
Qed.

Lemma eqb_true (x y : float) :
  eqb x y = true -> float_le x y /\ float_le y x /\ is_nan x = false.
Proof.
  unfold eqb, SFeqb. intros H. rewrite !float_le_compare.
  rewrite (SFcompare_antisym x y).
  destruct (SFcompare x y) as [[]|] eqn:E; try discriminate.
  repeat split; simpl; try congruence. now destruct x.
Qed.

Lemma float_le_antisym (x y : float) :
  is_nan x = false -> is_nan y = false ->
  float_le x y -> float_le y x -> eqb x y = true.
Proof.
  intros Hx Hy. rewrite !float_le_compare, (SFcompare_antisym x y).
  unfold eqb, SFeqb. destruct (compare_no_nan x y Hx Hy) as (c & ->).
  destruct c; simpl; congruence.
Qed.

Lemma insert_sorted_strongly (x : float) (l : list float) :
  is_nan x = false -> no_nan l ->
  StronglySorted float_le l -> StronglySorted float_le (insert_sorted x l).
Proof.
  intros Hx. induction l as [|y l IH]; intros Hn Hs; simpl.
  - repeat constructor.
  - inversion Hs as [|? ? Hl Hy]; subst. inversion Hn as [|? ? Hyn Hln]; subst.
    destruct (ltb y x) eqn:E.
    + constructor; [now apply IH|].
      rewrite Forall_forall. intros z Hz.
      apply (Permutation_in _ (insert_sorted_perm x l)) in Hz as [<-|Hz].
      * now apply ltb_asym.
      * rewrite Forall_forall in Hy. now apply Hy.
    + constructor; [exact Hs|]. constructor; [exact E|].
      rewrite Forall_forall in *. intros z Hz.
      apply (float_le_trans x y z Hyn E). now apply Hy.
Qed.

Lemma sorted_no_nan (l : list float) : no_nan l -> no_nan (sorted l).
Proof.
  unfold no_nan. rewrite !Forall_forall. intros H x Hx. apply H.
  now apply sorted_in.
Qed.

Lemma sorted_strongly (l : list float) :
  no_nan l -> StronglySorted float_le (sorted l).
Proof.
  induction l as [|x l IH]; intros Hn; [constructor|].
  inversion Hn; subst. change (sorted (x :: l)) with (insert_sorted x (sorted l)).
  apply insert_sorted_strongly; auto using sorted_no_nan.
Qed.

Lemma insert_sorted_stable (x a : float) (l : list float) :
  filter (eqb x) (insert_sorted a l) = filter (eqb x) (a :: l).
Proof.
  induction l as [|y l IH]; [reflexivity|].
  cbn [insert_sorted]. destruct (ltb y a) eqn:E; [|reflexivity].
  cbn [filter] in *. rewrite IH.
  destruct (eqb x y) eqn:Exy, (eqb x a) eqn:Exa; try reflexivity.
  exfalso. apply eqb_true in Exy as (Hxy & _ & Hx), Exa as (_ & Hax & _).
  pose proof (float_le_trans a x y Hx Hax Hxy) as H. unfold float_le in H.
  congruence.
Qed.

Lemma sorted_stable (x : float) (l : list float) :
  filter (eqb x) (sorted l) = filter (eqb x) l.
Proof.
  induction l as [|a l IH]; [reflexivity|].
  change (sorted (a :: l)) with (insert_sorted a (sorted l)).
  rewrite insert_sorted_stable. cbn [filter]. now rewrite IH.
Qed.

Lemma float_le_refl (a : float) : float_le a a.
Proof.
  unfold float_le. destruct (ltb a a) eqn:E; [|reflexivity].
  now rewrite (ltb_asym a a E) in E.
Qed.

Lemma stable_sort_unique (l1 l2 : list float) :
  no_nan l1 ->
  Permutation l1 l2 ->
  StronglySorted float_le l1 -> StronglySorted float_le l2 ->
  (forall x, filter (eqb x) l1 = filter (eqb x) l2) ->
  l1 = l2.
Proof.
  revert l2. induction l1 as [|a t1 IH]; intros l2 Hn Hp Hs1 Hs2 Hf.
  - now apply Permutation_nil in Hp.
  - destruct l2 as [|b t2]; [now apply Permutation_sym, Permutation_nil in Hp|].
    inversion Hn as [|? ? Ha Hn1]; subst.
    inversion Hs1 as [|? ? Hs1' Hall1]; subst.
    inversion Hs2 as [|? ? Hs2' Hall2]; subst.
    rewrite Forall_forall in Hall1, Hall2.
    assert (Hb : is_nan b = false).
    { unfold no_nan in Hn. rewrite Forall_forall in Hn. apply Hn.
      apply (Permutation_in _ (Permutation_sym Hp)). now left. }
    assert (Hba : float_le b a).
    { pose proof (Permutation_in _ Hp (in_eq a t1)) as Hin.
      destruct Hin as [<-|Hin]; [apply float_le_refl|now apply Hall2]. }
    assert (Hab : float_le a b).
    { pose proof (Permutation_in _ (Permutation_sym Hp) (in_eq b t2)) as Hin.
      destruct Hin as [<-|Hin]; [apply float_le_refl|now apply Hall1]. }
    pose proof (float_le_antisym a b Ha Hb Hab Hba) as Eab.
    pose proof (float_le_antisym a a Ha Ha (float_le_refl a) (float_le_refl a)) as Eaa.
    pose proof (Hf a) as Hfa. cbn [filter] in Hfa. rewrite Eaa, Eab in Hfa.
    injection Hfa as <- _.
    f_equal. apply IH; auto.
    + now apply Permutation_cons_inv in Hp.
    + intros x. specialize (Hf x). cbn [filter] in Hf.
      destruct (eqb x a); [now injection Hf|exact Hf].
Qed.

Lemma sorted_spec (l : list float) :
  no_nan l ->
  stable_sort_of l (sorted l)
  /\ forall l', stable_sort_of l l' -> l' = sorted l.
Proof.
  intros Hn. split.
  - split; [apply sorted_perm|]. split; [now apply sorted_strongly|].
    intros x. apply sorted_stable.
  - intros l' (Hp & Hs & Hf). symmetry.
    apply stable_sort_unique.
    + now apply sorted_no_nan.
    + rewrite sorted_perm. now symmetry.
    + now apply sorted_strongly.
    + exact Hs.
    + intros x. now rewrite sorted_stable, Hf.
Qed.

Lemma sorted_arrangement (l : list float) :
  no_nan l -> ascending_arrangement l (sorted l).
Proof. apply sorted_spec. Qed.

Lemma nonneg_no_nan (x : float) : nonneg_float x -> is_nan x = false.
Proof. now destruct x. Qed.

(** ** Indexing, median, percentile *)

Lemma list_getitem_in_range {A : Type} (data : list A) (k : Z) :
  (0 <= k < Z.of_nat (List.length data))%Z ->
  exists x, list_getitem data k = Ok x /\ nth_error data (Z.to_nat k) = Some x.
Proof.
  intros Hk. unfold list_getitem.
  destruct (Z.ltb_spec k 0) as [H|H]; [lia|].
  destruct (Z.leb_spec 0 k) as [H0|H0]; [|lia].
  destruct (Z.ltb_spec k (Z.of_nat (List.length data))) as [H1|H1]; [|lia].
  simpl. destruct (nth_error data (Z.to_nat k)) as [x|] eqn:E.
  - now exists x.
  - apply nth_error_None in E. lia.
Qed.

Lemma of_int_two : of_int 2 = Ok two.
Proof. reflexivity. Qed.

Lemma median_spec (x : float) (l : list float) :
  exists v, median (x :: l) = Ok v /\ spec_median (x :: l) = Some v.
Proof.
  unfold median, spec_median.
  pose proof (sorted_length (x :: l)) as Hlen.
  set (s := sorted (x :: l)) in *. set (n := List.length s) in *.
  simpl in Hlen.
  destruct (Nat.eqb_spec n 0) as [H0|H0]; [lia|].
  pose proof (Nat.div_mod_eq n 2) as Hdm.
  pose proof (Nat.mod_upper_bound n 2 ltac:(lia)) as Hmb.
  destruct (Nat.eqb_spec (n mod 2) 1) as [H1|H1].
  - assert (Hodd : Nat.odd n = true).
    { apply Nat.odd_spec. exists (n / 2)%nat. lia. }
    rewrite Hodd.
    destruct (list_getitem_in_range s (Z.of_nat (n / 2)) ltac:(fold n; lia))
      as (v & Hv & Hn).
    rewrite Nat2Z.id in Hn. exists v. now split.
  - assert (Hodd : Nat.odd n = false).
    { destruct (Nat.odd n) eqn:E; [|reflexivity].
      apply Nat.odd_spec in E as [q Hq]. lia. }
    rewrite Hodd.
    destruct (list_getitem_in_range s (Z.of_nat (n / 2) - 1)%Z ltac:(fold n; lia))
      as (a & Ha & Hna).
    destruct (list_getitem_in_range s (Z.of_nat (n / 2)) ltac:(fold n; lia))
      as (b & Hb & Hnb).
    rewrite Nat2Z.id in Hnb.
    replace (Z.to_nat (Z.of_nat (n / 2) - 1)) with (n / 2 - 1)%nat in Hna by lia.
    rewrite Ha, Hb, Hna, Hnb. cbn [bind]. rewrite of_int_two. cbn [bind].
    eexists. split; reflexivity.
Qed.

Lemma percentile_nonempty (data : list float) (pct : float) :
  data <> [] ->
  percentile data pct
  = (n1 <- of_int (Z.of_nat (List.length data) - 1) ;;
     k <- round (mul n1 pct) ;;
     list_getitem data k).
Proof.
  destruct data; [congruence|reflexivity].
Qed.

Lemma percentile_spec (data : list float) (M : positive) :
  data <> [] ->
  (Z.of_nat (List.length data) <= PY_SSIZE_T_MAX)%Z ->
  (Zpos M <= 2 ^ 53 - 4)%Z ->
  exists k v,
    percentile_index (List.length data) (S754_finite false M (-53)) = Ok k
    /\ (0 <= k < Z.of_nat (List.length data))%Z
    /\ nth_error data (Z.to_nat k) = Some v
    /\ percentile data (S754_finite false M (-53)) = Ok v.
Proof.
  intros Hne Hlen HM. unfold PY_SSIZE_T_MAX in Hlen.
  assert (Hpos : (0 < Z.of_nat (List.length data))%Z)
    by (destruct data; [congruence|simpl; lia]).
  destruct (percentile_index_bound (Z.of_nat (List.length data) - 1) M
              ltac:(lia) HM) as (f & r & Hf & Hr & Hrange).
  destruct (list_getitem_in_range data r ltac:(lia)) as (v & Hv & Hn).
  exists r, v. rewrite (percentile_nonempty data _ Hne).
  unfold percentile_index. rewrite Hf. cbn [bind]. rewrite Hr. cbn [bind].
  repeat split; try lia; assumption.
Qed.

(** ** The three phases of the reducer *)

Lemma Forall_keys_set {V : Type} (P : string -> Prop) (k : string) (v : V)
  (d : dict V) :
  P k -> Forall P (keys d) -> Forall P (keys (set k v d)).
Proof.
  intros Hk Hd. apply Forall_forall. intros x Hx.
  apply keys_set_in in Hx as [->|Hx]; [assumption|].
  rewrite Forall_forall in Hd. now apply Hd.
Qed.

Lemma loading_phase_get (lt : dict float) (r0 : dict float) (label : string) :
  NoDup (keys lt) ->
  get (loading_metric_id label) (fold_left loading_step lt r0)
  = match get label lt with
    | Some v => Some v
    | None => get (loading_metric_id label) r0
    end.
Proof.
  revert r0. induction lt as [|[l v] lt IH]; intros r0 Hnd; simpl; [reflexivity|].
  inversion Hnd as [|? ? Hnotin Hnd']; subst.
  rewrite IH by assumption.
  destruct (String.eqb_spec l label) as [->|Hne].
  - apply get_none_not_in in Hnotin. rewrite Hnotin. apply get_set_same.
  - destruct (get label lt); [reflexivity|].
    apply get_set_other. intros H. apply loading_metric_id_inj in H. congruence.
Qed.

Lemma loading_phase_other (lt : dict float) (r0 : dict float) (k : string) :
  (forall label, k <> loading_metric_id label) ->
  get k (fold_left loading_step lt r0) = get k r0.
Proof.
  intros Hk. revert r0. induction lt as [|[l v] lt IH]; intros r0; simpl; [reflexivity|].
  rewrite IH. apply get_set_other, Hk.
Qed.

Lemma loading_phase_keys (lt : dict float) (r0 : dict float) :
  Forall not_frame (keys r0) -> Forall not_frame (keys (fold_left loading_step lt r0)).
Proof.
  revert r0. induction lt as [|[l v] lt IH]; intros r0 H; simpl; [assumption|].
  apply IH, Forall_keys_set; [apply loading_not_frame|assumption].
Qed.

Lemma aggregate_step_spec (r : dict float) (label : string) (vals : list float) :
  aggregate_step r (label, vals)
  = Ok match median_of vals with
       | Some v => set (aggregate_metric_id label) v r
       | None => r
       end
  /\ (vals <> [] -> median_of vals <> None).
Proof.
  destruct vals as [|x l]; simpl; [split; [reflexivity|congruence]|].
  destruct (median_spec x l) as (v & Hv & Hs).
  unfold aggregate_step. rewrite Hv. cbn [try_except bind]. rewrite Hs.
  split; [reflexivity|congruence].
Qed.

Lemma aggregate_phase_spec (agg : dict (list float)) (r0 : dict float) :
  exists r,
    for_each aggregate_step agg r0 = Ok r
    /\ (NoDup (keys agg) ->
        forall label,
          get (aggregate_metric_id label) r
          = match get label agg with
            | Some (x :: l) => spec_median (x :: l)
            | _ => get (aggregate_metric_id label) r0
            end)
    /\ (forall k, (forall label, k <> aggregate_metric_id label) ->
                  get k r = get k r0)
    /\ (Forall not_frame (keys r0) -> Forall not_frame (keys r)).
Proof.
  revert r0. induction agg as [|[l vals] agg IH]; intros r0.
  - exists r0. simpl. repeat split; auto.
  - destruct (aggregate_step_spec r0 l vals) as [Hstep Hsome].
    set (r1 := match median_of vals with
               | Some v => set (aggregate_metric_id l) v r0
               | None => r0
               end) in *.
    destruct (IH r1) as (r & Hr & Hget & Hother & Hkeys).
    exists r. cbn [for_each]. rewrite Hstep. cbn [bind].
    split; [exact Hr|]. split; [|split].
    + intros Hnd label. inversion Hnd as [|? ? Hnotin Hnd']; subst.
      rewrite (Hget Hnd' label). simpl.
      destruct (String.eqb_spec l label) as [->|Hne].
      * apply get_none_not_in in Hnotin. rewrite Hnotin.
        subst r1. destruct vals as [|x vs]; simpl; [reflexivity|].
        destruct (median_spec x vs) as (v & _ & Hs). rewrite Hs.
        apply get_set_same.
      * assert (Hr1 : get (aggregate_metric_id label) r1
                      = get (aggregate_metric_id label) r0).
        { subst r1. destruct (median_of vals); [|reflexivity].
          apply get_set_other. intros H.
          apply aggregate_metric_id_inj in H. congruence. }
        rewrite Hr1. reflexivity.
    + intros k Hk. rewrite (Hother k Hk). subst r1.
      destruct (median_of vals); [|reflexivity]. apply get_set_other, Hk.
    + intros H0. apply Hkeys. subst r1.
      destruct (median_of vals); [|assumption].
      apply Forall_keys_set; [apply aggregate_not_frame|assumption].
Qed.

Lemma get_app {V : Type} (k : string) (d1 d2 : dict V) :
  get k (d1 ++ d2) = match get k d1 with
                     | Some v => Some v
                     | None => get k d2
                     end.
Proof.
  induction d1 as [|[k' v'] d1 IH]; simpl; [reflexivity|].
  destruct (String.eqb k' k); [reflexivity|exact IH].
Qed.

Lemma not_frame_get_none (k : string) (r : dict float) :
  Forall not_frame (keys r) -> prefix "frametime_" k = true -> get k r = None.
Proof.
  intros Hr Hk. apply get_none_not_in. intros Hin.
  rewrite Forall_forall in Hr. specialize (Hr k Hin). unfold not_frame in Hr.
  congruence.
Qed.

Lemma filter_not_frame (r : dict float) :
  Forall not_frame (keys r) -> frame_metric_ids r = [].
Proof.
  unfold frame_metric_ids. induction 1 as [|k ks Hk _ IH]; simpl; [reflexivity|].
  unfold not_frame in Hk. now rewrite Hk.
Qed.

Lemma compute_metrics_unfold (m : LogMetrics) :
  compute_metrics m
  = (r <- for_each aggregate_step (aggregate_samples m)
            (fold_left loading_step (loading_times m) Dict.empty) ;;
     match frametimes m with
     | [] => Ok (r, m)
     | _ =>
         let sorted_frames := sorted (frametimes m) in
         p50 <- percentile sorted_frames (literal "0.50") ;;
         let r := set "frametime_p50_ms" p50 r in
         p95 <- percentile sorted_frames (literal "0.95") ;;
         let r := set "frametime_p95_ms" p95 r in
         Ok (r, m)
     end).
Proof. reflexivity. Qed.

Lemma compute_metrics_spec (m : LogMetrics) :
  (Z.of_nat (List.length (frametimes m)) <= PY_SSIZE_T_MAX)%Z ->
  exists r report,
    samples_report m r
    /\ compute_metrics m = Ok (report, m)
    /\ Forall not_frame (keys r)
    /\ match frametimes m with
       | [] => report = r
       | _ :: _ =>
           exists k50 k95 v50 v95,
             percentile_index (List.length (frametimes m)) (literal "0.50") = Ok k50
             /\ percentile_index (List.length (frametimes m)) (literal "0.95") = Ok k95
             /\ nth_error (sorted (frametimes m)) (Z.to_nat k50) = Some v50
             /\ nth_error (sorted (frametimes m)) (Z.to_nat k95) = Some v95
             /\ report = r ++ [("frametime_p50_ms", v50); ("frametime_p95_ms", v95)]
       end.
Proof.
  intros Hlen.
  destruct (aggregate_phase_spec (aggregate_samples m)
              (fold_left loading_step (loading_times m) Dict.empty))
    as (r & Hr & _ & _ & Hkeys).
  assert (Hnf : Forall not_frame (keys r)).
  { apply Hkeys, loading_phase_keys. constructor. }
  rewrite compute_metrics_unfold. unfold samples_report. rewrite Hr. cbn [bind].
  destruct (frametimes m) as [|x fs] eqn:Efs.
  - exists r, r. repeat split; auto.
  - rewrite <- Efs in *.
    assert (Hne : sorted (frametimes m) <> []).
    { intros H. pose proof (sorted_length (frametimes m)) as Hl.
      rewrite H, Efs in Hl. discriminate. }
    pose proof (sorted_length (frametimes m)) as Hsl.
    destruct (percentile_spec (sorted (frametimes m)) 4503599627370496 Hne
                ltac:(rewrite Hsl; exact Hlen) ltac:(vm_compute; discriminate))
      as (k50 & v50 & Hi50 & _ & Hn50 & Hp50).
    destruct (percentile_spec (sorted (frametimes m)) 8556839292003942 Hne
                ltac:(rewrite Hsl; exact Hlen) ltac:(vm_compute; discriminate))
      as (k95 & v95 & Hi95 & _ & Hn95 & Hp95).
    rewrite <- literal_050 in Hi50, Hp50. rewrite <- literal_095 in Hi95, Hp95.
    rewrite Hsl in Hi50, Hi95.
    rewrite Hp50. cbn [bind]. rewrite Hp95. cbn [bind].
    exists r, (r ++ [("frametime_p50_ms", v50); ("frametime_p95_ms", v95)]).
    split; [reflexivity|]. split; [|split; [assumption|]].
    + do 2 f_equal. f_equal.
      rewrite (set_fresh "frametime_p50_ms" v50 r)
        by (apply not_frame_get_none; [assumption|reflexivity]).
      rewrite set_fresh.
      * rewrite <- app_assoc. reflexivity.
      * rewrite get_app, (not_frame_get_none "frametime_p95_ms" r Hnf eq_refl).
        reflexivity.
    + exists k50, k95, v50, v95. repeat split; assumption.
Qed.

(** ** Trimming *)

Lemma rstrip_by_idem (p : ascii -> bool) (s : string) :
  PyStr.rstrip_by p (PyStr.rstrip_by p s) = PyStr.rstrip_by p s.
Proof.
  induction s as [|c s IH]; simpl; [reflexivity|].
  destruct (PyStr.rstrip_by p s) as [|c' r] eqn:E.
  - destruct (p c) eqn:Ep; simpl; [reflexivity|]. now rewrite Ep.
  - simpl in *. now rewrite IH.
Qed.

Lemma lstrip_by_head (p : ascii -> bool) (s : string) :
  match PyStr.lstrip_by p s with
  | EmptyString => True
  | String c _ => p c = false
  end.
Proof.
  induction s as [|c s IH]; simpl; [exact I|].
  destruct (p c) eqn:E; [exact IH|exact E].
Qed.

Lemma strip_trimmed (s : string) : trimmed (PyStr.strip s).
Proof.
  unfold trimmed, PyStr.strip.
  pose proof (lstrip_by_head PyStr.isspace s) as Hh.
  destruct (PyStr.lstrip_by PyStr.isspace s) as [|c y]; [reflexivity|].
  assert (Hr : exists r, PyStr.rstrip_by PyStr.isspace (String c y) = String c r).
  { simpl. destruct (PyStr.rstrip_by PyStr.isspace y); [rewrite Hh|]; eauto. }
  destruct Hr as [r Hr]. rewrite Hr. 
  cbn [PyStr.lstrip_by]. rewrite Hh. rewrite <- Hr. apply rstrip_by_idem.
Qed.

(** ** Conversions that cannot fail the run *)

Lemma of_str_raises (s : string) (e : exn) : of_str s = Raise e -> e = ValueError.
Proof.
  unfold of_str.
  destruct (without_underscores (to_ascii s)) as [t|]; [|congruence].
  destruct (parse_inf_or_nan _) as [[x [|c r]]|]; try congruence.
  destruct (parse_sign _) as [neg body].
  destruct (parse_number body) as [[[n ex] [|c r]]|]; congruence.
Qed.

Lemma try_of_str (s : string) :
  try_except (of_str s) ValueError (Ok (literal "0.0")) = Ok (float_or_zero s).
Proof.
  unfold float_or_zero. destruct (of_str s) as [v|e] eqn:E; [reflexivity|].
  apply of_str_raises in E as ->. reflexivity.
Qed.

Lemma filter_map_comm {A B : Type} (p : B -> bool) (f : A -> B) (l : list A) :
  filter p (map f l) = map f (filter (fun x => p (f x)) l).
Proof.
  induction l as [|x l IH]; simpl; [reflexivity|].
  destruct (p (f x)); simpl; now rewrite IH.
Qed.

Lemma parse_legend_spec (legend_str : string) :
  parse_legend legend_str = nonempty_tokens legend_str.
Proof.
  unfold parse_legend, nonempty_tokens. now rewrite filter_map_comm.
Qed.

Lemma value_loop_spec (tokens : list string) (acc : list float) :
  for_each value_step tokens acc
  = Ok (acc ++ map float_or_zero
                 (filter (fun t => negb (PyStr.is_empty t)) (map PyStr.strip tokens))).
Proof.
  revert acc. induction tokens as [|t ts IH]; intros acc; simpl.
  - now rewrite app_nil_r.
  - unfold value_step at 1.
    destruct (PyStr.is_empty (PyStr.strip t)); simpl.
    + apply IH.
    + rewrite try_of_str. cbn [bind]. rewrite IH, <- app_assoc. reflexivity.
Qed.

Lemma parse_values_spec (values_str : string) :
  parse_values values_str = Ok (map float_or_zero (nonempty_tokens values_str)).
Proof.
  exact (value_loop_spec (PyStr.split ";"%char values_str) []).
Qed.

Lemma nonempty_tokens_trimmed (s : string) :
  Forall (fun t => trimmed t /\ t <> EmptyString) (nonempty_tokens s).
Proof.
  unfold nonempty_tokens. apply Forall_forall. intros t Ht.
  apply filter_In in Ht as [Hin Hne]. apply in_map_iff in Hin as (u & <- & _).
  split; [apply strip_trimmed|]. intros E. rewrite E in Hne. discriminate.
Qed.

(** ** Recording a frame rate *)

Lemma ltb_zero_not_zero (fps : float) : ltb zero fps = true -> eqb fps zero = false.
Proof.
  unfold ltb, eqb, SFltb, SFeqb, zero.
  destruct fps as [s|s| |s m e]; simpl; try discriminate;
    destruct s; simpl; congruence.
Qed.

Lemma leb_zero_not_ltb (fps : float) : leb fps zero && ltb zero fps = false.
Proof.
  destruct fps as [s|s| |s m e]; try reflexivity; destruct s; reflexivity.
Qed.

Lemma record_fps_spec (self : LogMetrics) (fps : float) :
  record_fps self fps
  = Ok (if ltb zero fps
        then append_frametime self (SFdiv prec emax (literal "1000.0") fps)
        else self).
Proof.
  unfold record_fps. destruct (ltb zero fps) eqn:E; [|reflexivity].
  unfold div. rewrite (ltb_zero_not_zero fps E). reflexivity.
Qed.

(** ** One line *)

Lemma parse_line_spec (metrics : LogMetrics) (events_fh : list event)
  (line : string) :
  exists metrics' p,
    parse_line (metrics, events_fh) line
    = Ok (metrics', events_fh ++ [{| raw := PyStr.rstrip_newline line; kv := p |}])
    /\ record_payload metrics p = Ok metrics'.
Proof.
  unfold parse_line.
  destruct (Re.loading_re _) as [[g1 g2]|].
  { rewrite try_of_str. cbn [bind]. eexists _, (Some (LoadingTime _ _)).
    split; reflexivity. }
  destruct (Re.aggregate_re _) as [[[name legend_str] values_str]|].
  { rewrite parse_values_spec. cbn [bind]. eexists _, (Some (Aggregate _ _)).
    split; reflexivity. }
  destruct (Re.fps_re _) as [g1|].
  { destruct (of_str g1) as [fps|e] eqn:E; cbn [bind].
    - rewrite record_fps_spec. cbn [bind try_except].
      eexists _, (Some (FrameRate fps)). split; [reflexivity|].
      cbn [record_payload]. now rewrite record_fps_spec.
    - apply of_str_raises in E as ->. cbn [try_except exn_eqb bind].
      exists metrics, None. split; reflexivity. }
  exists metrics, None. split; reflexivity.
Qed.

(** ** A whole file *)

Lemma parse_lines_spec (lines : list string) (metrics : LogMetrics)
  (events_fh : list event) :
  exists metrics' new_events,
    for_each parse_line lines (metrics, events_fh)
    = Ok (metrics', events_fh ++ new_events)
    /\ map raw new_events = map PyStr.rstrip_newline lines
    /\ for_each record_payload (map kv new_events) metrics = Ok metrics'.
Proof.
  revert metrics events_fh. induction lines as [|line lines IH]; intros metrics events_fh.
  - exists metrics, []. rewrite app_nil_r. repeat split; reflexivity.
  - destruct (parse_line_spec metrics events_fh line) as (m1 & p & Hline & Hrec).
    destruct (IH m1 (events_fh ++ [{| raw := PyStr.rstrip_newline line; kv := p |}]))
      as (m2 & evs & Hrest & Hraw & Hkv).
    exists m2, ({| raw := PyStr.rstrip_newline line; kv := p |} :: evs).
    cbn [for_each]. rewrite Hline. cbn [bind]. rewrite Hrest, <- app_assoc.
    split; [reflexivity|]. split.
    + simpl. now rewrite Hraw.
    + simpl. rewrite Hrec. cbn [bind]. exact Hkv.
Qed.

Lemma lines_of_concat (s : string) : fold_right append EmptyString (lines_of s) = s.
Proof.
  induction s as [|c s IH]; simpl; [reflexivity|].
  destruct (Ascii.eqb c "010"%char); simpl; [now rewrite IH|].
  destruct s as [|c' s']; [reflexivity|].
  destruct (lines_of (String c' s')) as [|l ls]; [discriminate|].
  simpl in *. now rewrite IH.
Qed.

Lemma lines_of_length (s : string) : (List.length (lines_of s) <= String.length s)%nat.
Proof.
  induction s as [|c s IH]; simpl; [lia|].
  destruct (Ascii.eqb c "010"%char); simpl; [lia|].
  destruct s as [|c' s']; [simpl; lia|].
  destruct (lines_of (String c' s')) as [|l ls]; simpl in *; lia.
Qed.

Lemma universal_newlines_length (s : string) :
  (String.length (universal_newlines s) <= String.length s)%nat.
Proof.
  remember (String.length s) as n eqn:En.
  assert (Hn : (String.length s <= n)%nat) by lia. clear En.
  revert s Hn.
  induction n as [n IH] using lt_wf_ind. intros s Hn.
  destruct s as [|c s]; [simpl; lia|].
  cbn [universal_newlines]. simpl in Hn.
  destruct (Ascii.eqb c "013"%char).
  - destruct s as [|c' s']; [simpl; lia|].
    simpl in Hn. destruct (Ascii.eqb c' "010"%char); cbn [String.length].
    + pose proof (IH (String.length s') ltac:(lia) s' ltac:(lia)). lia.
    + pose proof (IH (S (String.length s')) ltac:(lia) (String c' s') ltac:(simpl; lia)).
      simpl in *. lia.
  - cbn [String.length].
    pose proof (IH (String.length s) ltac:(lia) s ltac:(lia)). lia.
Qed.

Lemma file_lines_length (text : string) :
  (List.length (file_lines text) <= String.length text)%nat.
Proof.
  unfold file_lines.
  pose proof (lines_of_length (universal_newlines text)).
  pose proof (universal_newlines_length text). lia.
Qed.

(** ** The report before the frame-time metrics *)

Lemma samples_report_loading (m : LogMetrics) (r : dict float) (label : string) :
  samples_report m r ->
  NoDup (keys (loading_times m)) ->
  get (loading_metric_id label) r = get label (loading_times m).
Proof.
  unfold samples_report. intros Hr Hnd.
  destruct (aggregate_phase_spec (aggregate_samples m)
              (fold_left loading_step (loading_times m) Dict.empty))
    as (r' & Hr' & _ & Hother & _).
  rewrite Hr in Hr'. injection Hr' as <-.
  rewrite Hother by (intros l; apply loading_not_aggregate).
  rewrite loading_phase_get by assumption.
  destruct (get label (loading_times m)); reflexivity.
Qed.

Lemma samples_report_aggregate (m : LogMetrics) (r : dict float) (label : string) :
  samples_report m r ->
  NoDup (keys (aggregate_samples m)) ->
  get (aggregate_metric_id label) r
  = match get label (aggregate_samples m) with
    | Some (x :: l) => spec_median (x :: l)
    | _ => None
    end.
Proof.
  unfold samples_report. intros Hr Hnd.
  destruct (aggregate_phase_spec (aggregate_samples m)
              (fold_left loading_step (loading_times m) Dict.empty))
    as (r' & Hr' & Hget & _ & _).
  rewrite Hr in Hr'. injection Hr' as <-.
  rewrite (Hget Hnd label).
  rewrite loading_phase_other
    by (intros l H; symmetry in H; revert H; apply loading_not_aggregate).
  destruct (get label (aggregate_samples m)) as [[|x l]|]; reflexivity.
Qed.

Lemma report_get_not_frame (m : LogMetrics) (r report : dict float) (k : string) :
  prefix "frametime_" k = false ->
  match frametimes m with
  | [] => report = r
  | _ :: _ =>
      exists (k50 k95 : Z) v50 v95,
        percentile_index (List.length (frametimes m)) (literal "0.50") = Ok k50
        /\ percentile_index (List.length (frametimes m)) (literal "0.95") = Ok k95
        /\ nth_error (sorted (frametimes m)) (Z.to_nat k50) = Some v50
        /\ nth_error (sorted (frametimes m)) (Z.to_nat k95) = Some v95
        /\ report = r ++ [("frametime_p50_ms", v50); ("frametime_p95_ms", v95)]
  end ->
  get k report = get k r.
Proof.
  intros Hk Hrep. destruct (frametimes m).
  - now subst.
  - destruct Hrep as (k50 & k95 & v50 & v95 & _ & _ & _ & _ & ->).
    rewrite get_app. destruct (get k r); [reflexivity|].
    cbn [get].
    destruct (String.eqb_spec "frametime_p50_ms" k) as [E|_];
      [rewrite <- E in Hk; vm_compute in Hk; discriminate|].
    destruct (String.eqb_spec "frametime_p95_ms" k) as [E|_];
      [rewrite <- E in Hk; vm_compute in Hk; discriminate|].
    reflexivity.
Qed.

(** C1: for every accumulator whose list of frame times is not empty, the
    reducer emits exactly the two frame-time metrics [frametime_p50_ms] and
    [frametime_p95_ms], each the element at index [round((n-1) * p)] of the
    frame times sorted in ascending order, with [p] 0.50 and 0.95 and [n]
    their number; when the list is empty the report holds neither metric.
    The frame times hold no NaN, as is the case of all that [record_fps]
    stores (lemma [frame_time_no_nan]); their sorted list is then the one
    arrangement that is ascending and keeps equal values in their order. *)
Theorem C1_frametime_percentiles (m : LogMetrics) :
  (Z.of_nat (List.length (frametimes m)) <= PY_SSIZE_T_MAX)%Z ->
  no_nan (frametimes m) ->
  exists report,
    compute_metrics m = Ok (report, m)
    /\ ascending_arrangement (frametimes m) (sorted (frametimes m))
    /\ ascending (sorted (frametimes m))
    /\ Permutation (sorted (frametimes m)) (frametimes m)
    /\ match frametimes m with
       | [] =>
           frame_metric_ids report = []
           /\ get "frametime_p50_ms" report = None
           /\ get "frametime_p95_ms" report = None
       | _ :: _ =>
           exists k50 k95 v50 v95,
             percentile_index (List.length (frametimes m)) (literal "0.50") = Ok k50
             /\ percentile_index (List.length (frametimes m)) (literal "0.95") = Ok k95
             /\ nth_error (sorted (frametimes m)) (Z.to_nat k50) = Some v50
             /\ nth_error (sorted (frametimes m)) (Z.to_nat k95) = Some v95
             /\ get "frametime_p50_ms" report = Some v50
             /\ get "frametime_p95_ms" report = Some v95
             /\ frame_metric_ids report = ["frametime_p50_ms"; "frametime_p95_ms"]
       end.
Proof.
  intros Hlen Hnan.
  destruct (compute_metrics_spec m Hlen) as (r & report & _ & Hcm & Hnf & Hrep).
  exists report. split; [assumption|].
  split; [now apply sorted_arrangement|].
  split; [apply sorted_ascending|]. split; [apply sorted_perm|].
  clear Hnan. destruct (frametimes m) as [|x fs].
  - subst report. split; [now apply filter_not_frame|].
    split; apply not_frame_get_none; auto.
  - destruct Hrep as (k50 & k95 & v50 & v95 & H1 & H2 & H3 & H4 & ->).
    exists k50, k95, v50, v95. repeat (split; [assumption|]).
    rewrite !get_app.
    rewrite (not_frame_get_none "frametime_p50_ms" r Hnf eq_refl).
    rewrite (not_frame_get_none "frametime_p95_ms" r Hnf eq_refl).
    split; [reflexivity|]. split; [reflexivity|].
    unfold frame_metric_ids, keys. rewrite map_app, filter_app.
    fold (keys r). fold (frame_metric_ids r).
    now rewrite (filter_not_frame r Hnf).
Qed.

Lemma C1_frametime_percentiles_witness :
  (Z.of_nat (List.length (frametimes sample_frames)) <= PY_SSIZE_T_MAX)%Z
  /\ no_nan (frametimes sample_frames)
  /\ exists report, compute_metrics sample_frames = Ok (report, sample_frames).
Proof.
  assert (Hnan : no_nan (frametimes sample_frames))
    by (repeat (constructor; [vm_compute; reflexivity|]); constructor).
  split; [vm_compute; discriminate|]. split; [exact Hnan|].
  destruct (C1_frametime_percentiles sample_frames) as (report & H & _).
  - vm_compute; discriminate.
  - exact Hnan.
  - exists report. exact H.
Defined.

(** ** Replaying the payloads of the events *)

Lemma record_payload_frames (m m' : LogMetrics) (p : option payload) :
  record_payload m p = Ok m' ->
  (List.length (frametimes m') <= S (List.length (frametimes m)))%nat.
Proof.
  destruct p as [[l v|lg vs|fps]|]; cbn [record_payload].
  - intros [= <-]. simpl. lia.
  - intros [= <-]. simpl. lia.
  - rewrite record_fps_spec. intros [= <-].
    destruct (ltb zero fps); simpl; [rewrite length_app; simpl|]; lia.
  - intros [= <-]. lia.
Qed.




(** C4: for every label of the accumulator with at least one sample, the
    reducer emits [aggregate_median_{label}], the standard median of the
    samples (for an even number of samples, the average of the two middle
    values of the sorted samples); a label with an empty sample list gets
    no metric, and the reducer does not fail.  The samples hold no NaN;
    their sorted list is then the one arrangement that is ascending and
    keeps equal values in their order. *)
Theorem C4_aggregate_median (m : LogMetrics) (label : string)
  (samples : list float) :
  NoDup (keys (aggregate_samples m)) ->
  (Z.of_nat (List.length (frametimes m)) <= PY_SSIZE_T_MAX)%Z ->
  get label (aggregate_samples m) = Some samples ->
  no_nan samples ->
  exists report,
    compute_metrics m = Ok (report, m)
    /\ ascending_arrangement samples (sorted samples)
    /\ match samples with
       | [] => get (aggregate_metric_id label) report = None
       | _ :: _ =>
           exists v,
             spec_median samples = Some v
             /\ median samples = Ok v
             /\ get (aggregate_metric_id label) report = Some v
       end.
Proof.
  intros Hnd Hlen Hget Hnan.
  destruct (compute_metrics_spec m Hlen) as (r & report & Hr & Hcm & _ & Hrep).
  exists report. split; [exact Hcm|].
  split; [now apply sorted_arrangement|]. clear Hnan.
  pose proof (report_get_not_frame m r report _ (aggregate_not_frame label) Hrep) as Hrg.
  pose proof (samples_report_aggregate m r label Hr Hnd) as Hagg.
  rewrite Hget in Hagg. rewrite Hrg, Hagg.
  destruct samples as [|x l]; [reflexivity|].
  destruct (median_spec x l) as (v & Hv & Hs). exists v. now rewrite Hs.
Qed.

Lemma C4_aggregate_median_witness :
  NoDup (keys (aggregate_samples sample_aggregates))
  /\ (Z.of_nat (List.length (frametimes sample_aggregates)) <= PY_SSIZE_T_MAX)%Z
  /\ get "GPUTime" (aggregate_samples sample_aggregates)
     = Some [literal "5"; literal "3"; literal "4"]
  /\ no_nan [literal "5"; literal "3"; literal "4"]
  /\ exists report,
      compute_metrics sample_aggregates = Ok (report, sample_aggregates)
      /\ ascending_arrangement [literal "5"; literal "3"; literal "4"]
           (sorted [literal "5"; literal "3"; literal "4"])
      /\ exists v,
          spec_median [literal "5"; literal "3"; literal "4"] = Some v
          /\ median [literal "5"; literal "3"; literal "4"] = Ok v
          /\ get (aggregate_metric_id "GPUTime") report = Some v.
Proof.
  assert (Hnd : NoDup (keys (aggregate_samples sample_aggregates))).
  { repeat constructor; simpl; intuition discriminate. }
  assert (Hnan : no_nan [literal "5"; literal "3"; literal "4"])
    by (repeat (constructor; [vm_compute; reflexivity|]); constructor).
  split; [exact Hnd|]. split; [vm_compute; discriminate|].
  split; [reflexivity|]. split; [exact Hnan|].
  apply (C4_aggregate_median sample_aggregates "GPUTime"
           [literal "5"; literal "3"; literal "4"] Hnd).
  - vm_compute; discriminate.
  - reflexivity.
  - exact Hnan.
Defined.

(** The example of the specification: three aggregate lines with values
    5,7; 3,9; 4,5 give the medians 4.0 and 7.0. *)
Example aggregate_median_example :
  (report <- file_report
     ("AGGREGATE_X|GPUTime;RenderThread|5.0;7.0" ++ line_break
      ++ "AGGREGATE_X|GPUTime;RenderThread|3;9" ++ line_break
      ++ "AGGREGATE_X|GPUTime;RenderThread|4;5" ++ line_break) ;;
   Ok (get "aggregate_median_GPUTime" report,
       get "aggregate_median_RenderThread" report))
  = Ok (Some (literal "4.0"), Some (literal "7.0")).
Proof. vm_compute. reflexivity. Qed.

(** The example of the specification: frame rates 100, 50 and 200 give the
    frame times 10, 20 and 5, hence 10.0 at index 1 and 20.0 at index 2. *)
Example frametime_example :
  (report <- file_report
     ("Perf: FPS=100" ++ line_break ++ "Perf: FPS=50" ++ line_break
      ++ "Perf: FPS=200" ++ line_break) ;;
   Ok (get "frametime_p50_ms" report, get "frametime_p95_ms" report))
  = Ok (Some (literal "10.0"), Some (literal "20.0")).
Proof. vm_compute. reflexivity. Qed.

(** A tie of [round] goes to the even index: with two frame times the
    median index is 0, not 1. *)
Example percentile_index_tie :
  percentile_index 2 (literal "0.50") = Ok 0%Z
  /\ percentile_index 4 (literal "0.50") = Ok 2%Z.
Proof. split; vm_compute; reflexivity. Qed.

(** C5: recording a frame rate [fps] appends exactly one entry, of value
    [1000.0 / fps], to the frame times when [fps > 0], and leaves the
    accumulator as it is otherwise, in particular when [fps <= 0]; it never
    fails.  The lines [Perf: FPS=0] and [Perf: FPS=-5], with or without
    their terminator, leave the accumulator unchanged. *)
Theorem C5_record_fps (self : LogMetrics) (fps : float) :
  record_fps self fps
  = Ok (if ltb zero fps
        then append_frametime self (SFdiv prec emax (literal "1000.0") fps)
        else self)
  /\ leb fps zero && ltb zero fps = false
  /\ (forall events_fh (terminated : bool),
         parse_line (self, events_fh)
           ("Perf: FPS=0" ++ if terminated then line_break else EmptyString)
         = Ok (self, events_fh ++ [{| raw := "Perf: FPS=0";
                                      kv := Some (FrameRate zero) |}]))
  /\ (forall events_fh (terminated : bool),
         parse_line (self, events_fh)
           ("Perf: FPS=-5" ++ if terminated then line_break else EmptyString)
         = Ok (self, events_fh ++ [{| raw := "Perf: FPS=-5"; kv := None |}])).
Proof.
  split; [apply record_fps_spec|]. split; [apply leb_zero_not_ltb|].
  split; intros events_fh [|]; reflexivity.
Qed.

(** C6: for every input file and every line of it, whatever the line is
    classified as, exactly one event carrying the text of the line is
    appended to the event stream, in the order of the lines. *)
Theorem C6_event_stream (text : string) (metrics : LogMetrics)
  (events_fh : list event) :
  exists metrics' new_events,
    parse_log_file text metrics events_fh = Ok (metrics', events_fh ++ new_events)
    /\ map raw new_events = map PyStr.rstrip_newline (file_lines text)
    /\ List.length new_events = List.length (file_lines text)
    /\ fold_right append EmptyString (file_lines text) = universal_newlines text.
Proof.
  destruct (parse_lines_spec (file_lines text) metrics events_fh)
    as (m & evs & Hparse & Hraw & _).
  exists m, evs. split; [exact Hparse|]. split; [exact Hraw|]. split.
  - rewrite <- (length_map raw), Hraw. apply length_map.
  - apply lines_of_concat.
Qed.

(** C8: reducing an accumulator yields a report and leaves the accumulator
    as it was; reducing it a second time yields the same report. *)
Theorem C8_reducer_pure (m : LogMetrics) :
  (Z.of_nat (List.length (frametimes m)) <= PY_SSIZE_T_MAX)%Z ->
  exists report,
    compute_metrics m = Ok (report, m)
    /\ ('(_, m1) <- compute_metrics m ;; compute_metrics m1) = Ok (report, m).
Proof.
  intros Hlen.
  destruct (compute_metrics_spec m Hlen) as (r & report & _ & Hcm & _).
  exists report. split; [exact Hcm|]. rewrite Hcm. cbn [bind]. exact Hcm.
Qed.

Lemma C8_reducer_pure_witness :
  (Z.of_nat (List.length (frametimes sample_frames)) <= PY_SSIZE_T_MAX)%Z
  /\ exists report,
      compute_metrics sample_frames = Ok (report, sample_frames)
      /\ ('(_, m1) <- compute_metrics sample_frames ;; compute_metrics m1)
         = Ok (report, sample_frames).
Proof.
  split; [vm_compute; discriminate|].
  apply (C8_reducer_pure sample_frames). vm_compute; discriminate.
Defined.

(** ** Aggregate lines *)

Lemma aggregate_not_loading (raw : string) :
  Re.aggregate_re raw <> None -> Re.loading_re raw = None.
Proof.
  unfold Re.aggregate_re, Re.loading_re.
  destruct raw as [|c r]; [simpl; congruence|].
  cbn [PyStr.strip_prefix].
  destruct (Ascii.eqb_spec "A"%char c) as [<-|Hne]; [reflexivity|congruence].
Qed.

(** C2, as stated, fails: an empty value token is dropped, it does not
    become 0.0. *)
Lemma C2_counterexample :
  parse_line (new_metrics, []) "AGGREGATE_X|A;B|1.0;;2.0"
  = Ok (record_aggregate new_metrics ["A"; "B"] [literal "1.0"; literal "2.0"],
        [{| raw := "AGGREGATE_X|A;B|1.0;;2.0";
            kv := Some (Aggregate ["A"; "B"] [literal "1.0"; literal "2.0"]) |}])
  /\ spec_values_keep_empty "1.0;;2.0"
     = [literal "1.0"; literal "0.0"; literal "2.0"].
Proof.
  split; vm_compute; reflexivity.
Qed.

(** C2 (amended): for every line classified as an aggregate observation,
    each legend token and each value token is trimmed of surrounding
    whitespace, and a token that is empty after trimming is dropped, from
    the legend list and from the value list alike; a value token that is
    not empty and does not parse as a number contributes 0.0; the two
    lists may have different lengths. *)
Theorem C2_aggregate_tokens (metrics : LogMetrics) (events_fh : list event)
  (line name legend_str values_str : string) :
  Re.aggregate_re (PyStr.rstrip_newline line) = Some (name, legend_str, values_str) ->
  parse_line (metrics, events_fh) line
  = Ok (record_aggregate metrics (nonempty_tokens legend_str)
          (map float_or_zero (nonempty_tokens values_str)),
        events_fh ++ [{| raw := PyStr.rstrip_newline line;
                         kv := Some (Aggregate (nonempty_tokens legend_str)
                                       (map float_or_zero (nonempty_tokens values_str))) |}])
  /\ Forall (fun t => trimmed t /\ t <> EmptyString) (nonempty_tokens legend_str)
  /\ Forall (fun t => trimmed t /\ t <> EmptyString) (nonempty_tokens values_str)
  /\ float_or_zero "n/a" = literal "0.0"
  /\ List.length (nonempty_tokens "A;B")
     <> List.length (map float_or_zero (nonempty_tokens "1.0")).
Proof.
  intros Hre. split; [|split; [|split; [|split]]].
  - unfold parse_line.
    rewrite (aggregate_not_loading _ ltac:(rewrite Hre; discriminate)), Hre.
    rewrite parse_values_spec, parse_legend_spec. reflexivity.
  - apply nonempty_tokens_trimmed.
  - apply nonempty_tokens_trimmed.
  - vm_compute. reflexivity.
  - vm_compute. discriminate.
Qed.

Lemma C2_aggregate_tokens_witness :
  Re.aggregate_re (PyStr.rstrip_newline "AGGREGATE_X|A; ;B|1.0;;n/a")
  = Some ("X", "A; ;B", "1.0;;n/a")
  /\ parse_line (new_metrics, []) "AGGREGATE_X|A; ;B|1.0;;n/a"
     = Ok (record_aggregate new_metrics (nonempty_tokens "A; ;B")
             (map float_or_zero (nonempty_tokens "1.0;;n/a")),
           [] ++ [{| raw := PyStr.rstrip_newline "AGGREGATE_X|A; ;B|1.0;;n/a";
                     kv := Some (Aggregate (nonempty_tokens "A; ;B")
                                   (map float_or_zero (nonempty_tokens "1.0;;n/a"))) |}]).
Proof.
  split; [reflexivity|].
  apply (proj1 (C2_aggregate_tokens new_metrics [] "AGGREGATE_X|A; ;B|1.0;;n/a"
                  "X" "A; ;B" "1.0;;n/a" eq_refl)).
Defined.

(** ** The sign of a frame time *)





Lemma nth_error_sorted_in (l : list float) (n : nat) (v : float) :
  nth_error (sorted l) n = Some v -> In v l.
Proof.
  intros H. apply sorted_in. eapply nth_error_In, H.
Qed.




(** ** Role inference *)

Lemma truthy_mem {V : Type} (k : string) (d : option (dict V)) :
  truthy d && mem k (entries d) = mem k (entries d).
Proof.
  destruct d as [[|[k' v] d]|]; reflexivity.
Qed.

Lemma infer_role_basename (filename : string) (rolemap : option (dict string)) :
  infer_role filename rolemap
  = Ok (spec_infer_role (PyStr.basename filename) rolemap).
Proof.
  unfold infer_role, spec_infer_role.
  rewrite truthy_mem. unfold mem, getitem.
  destruct (get (PyStr.basename filename) (entries rolemap)) as [role|];
    [reflexivity|].
  destruct (PyStr.str_in "client" _); [reflexivity|].
  destruct (PyStr.str_in "server" _); [reflexivity|].
  destruct (PyStr.str_in "dedicated" _); reflexivity.
Qed.

(** C7, as stated, fails on a path with a directory part: the name
    ["client/foo.log"] contains "client", and ["logs/foo.log"] is an entry
    of the mapping, yet neither the substring rule nor the entry applies. *)
Lemma C7_counterexample :
  infer_role "client/foo.log" None
    <> Ok (spec_infer_role "client/foo.log" None)
  /\ infer_role "logs/foo.log" (Some [("logs/foo.log", "server")])
    <> Ok (spec_infer_role "logs/foo.log" (Some [("logs/foo.log", "server")])).
Proof.
  split; vm_compute; discriminate.
Qed.

(** C7 (amended): for every filename, role inference applies the rule to
    the basename of the filename: it returns the mapped role when the
    basename is an entry of the override mapping; otherwise,
    case-insensitively, 'client' if the basename contains "client",
    'server' if it contains "server" and not "client", 'dedicated' if it
    contains "dedicated", and 'unknown' otherwise.  'ClientLog.txt' maps
    to client, 'ServerClient.log' to client, 'Dedicated01.log' to
    dedicated and 'foo.log' to unknown. *)
Theorem C7_infer_role_rule :
  (forall filename rolemap,
      infer_role filename rolemap
      = Ok (spec_infer_role (PyStr.basename filename) rolemap))
  /\ infer_role "ClientLog.txt" None = Ok "client"
  /\ infer_role "ServerClient.log" None = Ok "client"
  /\ infer_role "Dedicated01.log" None = Ok "dedicated"
  /\ infer_role "foo.log" None = Ok "unknown".
Proof.
  split; [exact infer_role_basename|].
  repeat split; reflexivity.
Qed.

(** C10: for every filename, either the basename of the filename is an
    entry of the override mapping, and role inference returns the role of
    that entry, or it is not, and role inference returns one of 'client',
    'server', 'dedicated', 'unknown'.  The lookup uses the basename: an
    entry keyed by a full path is not found. *)
Theorem C10_infer_role_range :
  (forall filename rolemap,
      match get (PyStr.basename filename) (entries rolemap) with
      | Some role => infer_role filename rolemap = Ok role
      | None =>
          exists role, infer_role filename rolemap = Ok role /\ In role roles
      end)
  /\ infer_role "logs/foo.log" (Some [("logs/foo.log", "tester")]) = Ok "unknown"
  /\ infer_role "logs/foo.log" (Some [("foo.log", "tester")]) = Ok "tester".
Proof.
  split; [|split; reflexivity].
  intros filename rolemap. rewrite infer_role_basename.
  unfold spec_infer_role, roles.
  destruct (get (PyStr.basename filename) (entries rolemap)) as [role|];
    [reflexivity|].
  destruct (PyStr.str_in "client" _); [eexists; split; [reflexivity|simpl; tauto]|].
  destruct (PyStr.str_in "server" _); [eexists; split; [reflexivity|simpl; tauto]|].
  destruct (PyStr.str_in "dedicated" _); eexists; (split; [reflexivity|simpl; tauto]).
Qed.

(* ################################################################# *)
(** * Further properties *)

Local Close Scope Z_scope.
(* ################################################################# *)
(** * Further properties of the accumulator *)

Lemma setdefault_append_get (label l : string) (v : float) (d : dict (list float)) :
  get label (setdefault_append l v d)
  = if String.eqb l label
    then Some (match get label d with Some old => old | None => [] end ++ [v])
    else get label d.
Proof.
  unfold setdefault_append.
  destruct (String.eqb_spec l label) as [->|Hne].
  - destruct (get label d); simpl; now rewrite get_set_same.
  - destruct (get l d); apply get_set_other; congruence.
Qed.

Lemma aggregate_loop_get (label : string) (ps : list (string * float))
  (d : dict (list float)) :
  get label (fold_left (fun d '(l, v) => setdefault_append l v d) ps d)
  = match map snd (filter (fun p => String.eqb (fst p) label) ps) with
    | [] => get label d
    | added => Some (match get label d with Some old => old | None => [] end ++ added)
    end.
Proof.
  revert d. induction ps as [|[l v] ps IH]; intros d; simpl; [reflexivity|].
  rewrite IH, setdefault_append_get.
  destruct (String.eqb l label); simpl; [|reflexivity].
  destruct (map snd (filter _ ps)) as [|a added].
  - reflexivity.
  - now rewrite <- app_assoc.
Qed.

(** X1: after [record_aggregate], a label that the legend does not pair
    with a value keeps its samples, and any other label has its former
    samples (none for a new label) followed by the values paired with it,
    in order; the loading times and the frame times are untouched. *)
Theorem record_aggregate_lookup (self : LogMetrics) (legend : list string)
  (values : list float) (label : string) :
  get label (aggregate_samples (record_aggregate self legend values))
  = match paired_values label legend values with
    | [] => get label (aggregate_samples self)
    | added =>
        Some (match get label (aggregate_samples self) with
              | Some old => old
              | None => []
              end ++ added)
    end
  /\ loading_times (record_aggregate self legend values) = loading_times self
  /\ frametimes (record_aggregate self legend values) = frametimes self.
Proof.
  split; [|split; reflexivity].
  exact (aggregate_loop_get label (combine legend values) (aggregate_samples self)).
Qed.

(** X2: [record_aggregate] pairs legend and values by position and ignores
    what either list has beyond the length of the other. *)
Theorem record_aggregate_truncates (self : LogMetrics) (legend : list string)
  (values : list float) :
  record_aggregate self legend values
  = record_aggregate self (firstn (List.length values) legend)
      (firstn (List.length legend) values).
Proof.
  unfold record_aggregate. f_equal. f_equal.
  revert values. induction legend as [|l legend IH]; intros [|v values]; simpl;
    try reflexivity.
  now rewrite <- IH.
Qed.

Lemma Forall_set {V : Type} (P : string * V -> Prop) (k : string) (v : V)
  (d : dict V) :
  P (k, v) -> Forall P d -> Forall P (set k v d).
Proof.
  intros Hk. induction 1 as [|[k' v'] d Hp Hd IH]; simpl.
  - now constructor.
  - destruct (String.eqb k' k); constructor; assumption.
Qed.

Lemma setdefault_append_well_formed (l : string) (v : float)
  (d : dict (list float)) :
  NoDup (keys d) /\ Forall (fun p => snd p <> []) d ->
  NoDup (keys (setdefault_append l v d))
  /\ Forall (fun p => snd p <> []) (setdefault_append l v d).
Proof.
  intros [Hnd Hne]. unfold setdefault_append.
  destruct (get l d) as [vals|]; (split; [now apply NoDup_keys_set|]);
    apply Forall_set; try assumption; simpl.
  - destruct vals; discriminate.
  - discriminate.
Qed.

Lemma record_aggregate_well_formed (self : LogMetrics) (legend : list string)
  (values : list float) :
  well_formed self -> well_formed (record_aggregate self legend values).
Proof.
  unfold well_formed, record_aggregate. cbn [loading_times aggregate_samples].
  intros (Hl & Ha & Hn). split; [assumption|].
  generalize (combine legend values) as ps. intros ps.
  assert (H : NoDup (keys (aggregate_samples self))
              /\ Forall (fun p => snd p <> []) (aggregate_samples self)) by now split.
  revert H. generalize (aggregate_samples self) as d.
  induction ps as [|[l v] ps IH]; intros d H; simpl; [exact H|].
  apply IH, setdefault_append_well_formed, H.
Qed.

Lemma apply_op_well_formed (m0 : LogMetrics) (op : record_op) :
  well_formed m0 ->
  exists m,
    apply_op m0 op = Ok m
    /\ well_formed m
    /\ frametimes m = frametimes m0 ++ frame_times_of (recorded_fps [op]).
Proof.
  intros Hwf. destruct op as [l v|lg vs|fps]; cbn [apply_op].
  - eexists. split; [reflexivity|]. split.
    + destruct Hwf as (Hl & Ha & Hn). repeat split; try assumption.
      now apply NoDup_keys_set.
    + simpl. now rewrite app_nil_r.
  - eexists. split; [reflexivity|]. split.
    + now apply record_aggregate_well_formed.
    + simpl. now rewrite app_nil_r.
  - rewrite record_fps_spec. eexists. split; [reflexivity|].
    unfold frame_times_of, recorded_fps. simpl.
    destruct (ltb zero fps); simpl; [|now rewrite app_nil_r].
    split; [exact Hwf|reflexivity].
Qed.

Lemma recorded_fps_cons (op : record_op) (ops : list record_op) :
  recorded_fps (op :: ops) = recorded_fps [op] ++ recorded_fps ops.
Proof.
  unfold recorded_fps. simpl. now rewrite app_nil_r.
Qed.

Lemma frame_times_of_app (a b : list float) :
  frame_times_of (a ++ b) = frame_times_of a ++ frame_times_of b.
Proof.
  unfold frame_times_of. now rewrite filter_app, map_app.
Qed.

Lemma run_ops_well_formed (ops : list record_op) (m0 : LogMetrics) :
  well_formed m0 ->
  exists m,
    for_each apply_op ops m0 = Ok m
    /\ well_formed m
    /\ frametimes m = frametimes m0 ++ frame_times_of (recorded_fps ops).
Proof.
  revert m0. induction ops as [|op ops IH]; intros m0 Hwf.
  - exists m0. simpl. split; [reflexivity|]. split; [assumption|].
    now rewrite app_nil_r.
  - destruct (apply_op_well_formed m0 op Hwf) as (m1 & H1 & Hwf1 & Hf1).
    destruct (IH m1 Hwf1) as (m & Hm & Hwfm & Hfm).
    exists m. cbn [for_each]. rewrite H1. cbn [bind].
    split; [exact Hm|]. split; [assumption|].
    rewrite (recorded_fps_cons op ops), frame_times_of_app, app_assoc, <- Hf1.
    exact Hfm.
Qed.

Lemma new_metrics_well_formed : well_formed new_metrics.
Proof.
  repeat split; constructor.
Qed.

(** X3: no sequence of record operations on a new accumulator fails, and
    the accumulator it builds has unique labels in both mappings and no
    label with an empty sample list. *)
Theorem record_ops_well_formed (ops : list record_op) :
  exists m, for_each apply_op ops new_metrics = Ok m /\ well_formed m.
Proof.
  destruct (run_ops_well_formed ops new_metrics new_metrics_well_formed)
    as (m & Hm & Hwf & _).
  now exists m.
Qed.

(** X4: the frame times of an accumulator are append-only and ordered: after
    a sequence of record operations they are the frame times held before,
    followed by [1000.0 / fps] for each recorded [fps > 0], in the order of
    recording; every other frame rate leaves no trace. *)
Theorem record_ops_frametimes (ops : list record_op) (m0 : LogMetrics) :
  exists m,
    for_each apply_op ops m0 = Ok m
    /\ frametimes m = frametimes m0 ++ frame_times_of (recorded_fps ops).
Proof.
  revert m0. induction ops as [|op ops IH]; intros m0.
  - exists m0. simpl. now rewrite app_nil_r.
  - assert (H1 : exists m1, apply_op m0 op = Ok m1
                 /\ frametimes m1 = frametimes m0 ++ frame_times_of (recorded_fps [op])).
    { destruct op as [l v|lg vs|fps]; cbn [apply_op];
        try (eexists; split; [reflexivity|]; simpl; now rewrite app_nil_r).
      rewrite record_fps_spec. eexists. split; [reflexivity|].
      unfold frame_times_of, recorded_fps. simpl.
      destruct (ltb zero fps); simpl; [reflexivity|now rewrite app_nil_r]. }
    destruct H1 as (m1 & H1 & Hf1). destruct (IH m1) as (m & Hm & Hfm).
    exists m. cbn [for_each]. rewrite H1. cbn [bind]. split; [exact Hm|].
    rewrite (recorded_fps_cons op ops), frame_times_of_app, app_assoc, <- Hf1.
    exact Hfm.
Qed.

(* ################################################################# *)
(** * Further properties of the reducer *)

Lemma keys_app {V : Type} (a b : dict V) : keys (a ++ b) = keys a ++ keys b.
Proof. apply map_app. Qed.

Lemma loading_phase_key_list (lt r0 : dict float) :
  NoDup (keys lt) ->
  (forall l, In l (keys lt) -> ~ In (loading_metric_id l) (keys r0)) ->
  keys (fold_left loading_step lt r0)
  = keys r0 ++ map loading_metric_id (keys lt).
Proof.
  revert r0. induction lt as [|[l v] lt IH]; intros r0 Hnd Hfresh; simpl.
  - now rewrite app_nil_r.
  - inversion Hnd as [|? ? Hnotin Hnd']; subst.
    assert (Hl : get (loading_metric_id l) r0 = None).
    { apply get_none_not_in, Hfresh. now left. }
    rewrite (set_fresh _ v r0 Hl), IH; [| assumption |].
    + rewrite keys_app, <- app_assoc. reflexivity.
    + intros l' Hl' Hin. rewrite keys_app in Hin.
      apply in_app_or in Hin as [Hin|[Heq|[]]].
      * apply (Hfresh l'); [now right|assumption].
      * apply loading_metric_id_inj in Heq. subst l'. exact (Hnotin Hl').
Qed.

Lemma median_of_none (vals : list float) : median_of vals = None <-> vals = [].
Proof.
  split; [|now intros ->].
  destruct vals as [|x l]; [reflexivity|]. simpl.
  destruct (median_spec x l) as (v & _ & Hs). rewrite Hs. discriminate.
Qed.

Lemma aggregate_phase_key_list (agg : dict (list float)) (r0 r : dict float) :
  NoDup (keys agg) ->
  (forall l, In l (keys agg) -> ~ In (aggregate_metric_id l) (keys r0)) ->
  for_each aggregate_step agg r0 = Ok r ->
  keys r = keys r0 ++ map aggregate_metric_id (sampled_labels agg).
Proof.
  revert r0. induction agg as [|[l vals] agg IH]; intros r0 Hnd Hfresh Hrun.
  - simpl in Hrun. injection Hrun as <-. unfold sampled_labels. simpl.
    now rewrite app_nil_r.
  - inversion Hnd as [|? ? Hnotin Hnd']; subst.
    cbn [for_each] in Hrun.
    destruct (aggregate_step_spec r0 l vals) as [Hstep _].
    rewrite Hstep in Hrun. cbn [bind] in Hrun.
    unfold sampled_labels. cbn [filter snd].
    destruct vals as [|x vs].
    + simpl in Hrun. apply (IH r0 Hnd'); [|exact Hrun].
      intros l' Hl'. apply Hfresh. now right.
    + destruct (median_of (x :: vs)) as [v|] eqn:Em;
        [|apply median_of_none in Em; discriminate].
      assert (Hl : get (aggregate_metric_id l) r0 = None).
      { apply get_none_not_in, Hfresh. now left. }
      rewrite (set_fresh _ v r0 Hl) in Hrun.
      rewrite (IH _ Hnd') with (2 := Hrun).
      * rewrite keys_app, <- app_assoc. reflexivity.
      * intros l' Hl' Hin. rewrite keys_app in Hin.
        apply in_app_or in Hin as [Hin|[Heq|[]]].
        -- apply (Hfresh l'); [now right|assumption].
        -- apply aggregate_metric_id_inj in Heq. subst l'. exact (Hnotin Hl').
Qed.

Lemma samples_report_keys (m : LogMetrics) (r : dict float) :
  samples_report m r ->
  NoDup (keys (loading_times m)) ->
  NoDup (keys (aggregate_samples m)) ->
  keys r = map loading_metric_id (keys (loading_times m))
           ++ map aggregate_metric_id (sampled_labels (aggregate_samples m)).
Proof.
  unfold samples_report. intros Hr Hl Ha.
  rewrite (aggregate_phase_key_list _ _ _ Ha) with (2 := Hr).
  - rewrite loading_phase_key_list; [reflexivity|assumption|].
    intros l _ [].
  - intros l _ Hin.
    rewrite loading_phase_key_list in Hin; [|assumption|intros ? _ []].
    simpl in Hin. apply in_map_iff in Hin as (l' & Heq & _).
    exact (loading_not_aggregate l' l Heq).
Qed.

Lemma loading_phase_nodup (lt r0 : dict float) :
  NoDup (keys r0) -> NoDup (keys (fold_left loading_step lt r0)).
Proof.
  revert r0. induction lt as [|[l v] lt IH]; intros r0 H0; simpl; [assumption|].
  apply IH. now apply NoDup_keys_set.
Qed.

Lemma aggregate_phase_nodup (agg : dict (list float)) (r0 r : dict float) :
  NoDup (keys r0) -> for_each aggregate_step agg r0 = Ok r -> NoDup (keys r).
Proof.
  revert r0. induction agg as [|[l vals] agg IH]; intros r0 H0 Hrun.
  - simpl in Hrun. now injection Hrun as <-.
  - cbn [for_each] in Hrun.
    destruct (aggregate_step_spec r0 l vals) as [Hstep _].
    rewrite Hstep in Hrun. cbn [bind] in Hrun.
    apply (IH _) with (2 := Hrun).
    destruct (median_of vals); [now apply NoDup_keys_set|assumption].
Qed.

Lemma samples_report_nodup (m : LogMetrics) (r : dict float) :
  samples_report m r -> NoDup (keys r).
Proof.
  unfold samples_report. apply aggregate_phase_nodup, loading_phase_nodup.
  constructor.
Qed.

(** X5: the report lists its metrics in the order of emission: one
    [loading_time_{label}_ms] per loading-time label, in the order the
    labels were first seen, then one [aggregate_median_{label}] per label
    with samples, in that order too, then the two frame-time metrics when
    there are frame times; no metric identifier occurs twice. *)
Theorem report_metric_order (m : LogMetrics) :
  NoDup (keys (loading_times m)) ->
  NoDup (keys (aggregate_samples m)) ->
  (Z.of_nat (List.length (frametimes m)) <= PY_SSIZE_T_MAX)%Z ->
  exists report,
    compute_metrics m = Ok (report, m)
    /\ keys report = metric_ids m
    /\ NoDup (keys report).
Proof.
  intros Hl Ha Hlen.
  destruct (compute_metrics_spec m Hlen) as (r & report & Hr & Hcm & Hnf & Hrep).
  exists report. split; [exact Hcm|].
  pose proof (samples_report_keys m r Hr Hl Ha) as Hk.
  pose proof (samples_report_nodup m r Hr) as Hnd.
  unfold metric_ids. destruct (frametimes m) as [|x fs].
  - subst report. rewrite app_nil_r. now split.
  - destruct Hrep as (k50 & k95 & v50 & v95 & _ & _ & _ & _ & ->).
    rewrite keys_app, Hk, <- app_assoc. split; [reflexivity|].
    rewrite app_assoc, <- Hk.
    apply NoDup_app; [assumption| |].
    + repeat constructor; simpl; intuition discriminate.
    + intros k Hin Hk'. rewrite Forall_forall in Hnf. specialize (Hnf k Hin).
      unfold not_frame in Hnf.
      destruct Hk' as [<-|[<-|[]]]; discriminate.
Qed.

Lemma report_metric_order_witness :
  NoDup (keys (loading_times sample_aggregates))
  /\ NoDup (keys (aggregate_samples sample_aggregates))
  /\ (Z.of_nat (List.length (frametimes sample_aggregates)) <= PY_SSIZE_T_MAX)%Z
  /\ exists report,
      compute_metrics sample_aggregates = Ok (report, sample_aggregates)
      /\ keys report = metric_ids sample_aggregates
      /\ NoDup (keys report).
Proof.
  assert (H1 : NoDup (keys (loading_times sample_aggregates))) by constructor.
  assert (H2 : NoDup (keys (aggregate_samples sample_aggregates))).
  { repeat constructor; simpl; intuition discriminate. }
  split; [exact H1|]. split; [exact H2|]. split; [vm_compute; discriminate|].
  apply (report_metric_order sample_aggregates H1 H2). vm_compute; discriminate.
Defined.

Lemma get_some_in {V : Type} (k : string) (v : V) (d : dict V) :
  get k d = Some v -> In (k, v) d.
Proof.
  induction d as [|[k' v'] d IH]; simpl; [discriminate|].
  destruct (String.eqb_spec k' k) as [->|Hne].
  - intros [= ->]. now left.
  - intros H. right. now apply IH.
Qed.

Lemma in_keys_get {V : Type} (k : string) (d : dict V) :
  In k (keys d) -> exists v, get k d = Some v.
Proof.
  intros Hin. destruct (get k d) as [v|] eqn:E; [now exists v|].
  apply get_none_not_in in E. contradiction.
Qed.

(** X6: the frame-time metrics are recorded samples, never interpolated:
    each of [frametime_p50_ms] and [frametime_p95_ms], when the report has
    it, is an element of the frame times; with a single frame time both
    metrics are that frame time. *)
Theorem frametime_metrics_are_samples (m : LogMetrics) :
  (Z.of_nat (List.length (frametimes m)) <= PY_SSIZE_T_MAX)%Z ->
  exists report,
    compute_metrics m = Ok (report, m)
    /\ (forall key v,
           In key ["frametime_p50_ms"; "frametime_p95_ms"] ->
           get key report = Some v -> In v (frametimes m))
    /\ (forall x,
           frametimes m = [x] ->
           get "frametime_p50_ms" report = Some x
           /\ get "frametime_p95_ms" report = Some x).
Proof.
  intros Hlen.
  destruct (compute_metrics_spec m Hlen) as (r & report & _ & Hcm & Hnf & Hrep).
  exists report. split; [exact Hcm|].
  assert (Hkey : forall key, In key ["frametime_p50_ms"; "frametime_p95_ms"] ->
                             get key r = None).
  { intros key Hkey. apply not_frame_get_none; [assumption|].
    destruct Hkey as [<-|[<-|[]]]; reflexivity. }
  destruct (frametimes m) as [|y fs] eqn:Efs.
  - subst report. split.
    + intros key v Hk Hget. rewrite (Hkey key Hk) in Hget. discriminate.
    + intros x Hx. discriminate.
  - rewrite <- Efs in *.
    destruct Hrep as (k50 & k95 & v50 & v95 & _ & _ & H50 & H95 & ->).
    apply nth_error_sorted_in in H50, H95.
    assert (G50 : get "frametime_p50_ms"
                    (r ++ [("frametime_p50_ms", v50); ("frametime_p95_ms", v95)])
                  = Some v50).
    { rewrite get_app, Hkey by (simpl; auto). reflexivity. }
    assert (G95 : get "frametime_p95_ms"
                    (r ++ [("frametime_p50_ms", v50); ("frametime_p95_ms", v95)])
                  = Some v95).
    { rewrite get_app, Hkey by (simpl; auto). reflexivity. }
    split.
    + intros key v [<-|[<-|[]]] Hget.
      * rewrite G50 in Hget. now injection Hget as <-.
      * rewrite G95 in Hget. now injection Hget as <-.
    + intros x Hx. rewrite Hx in H50, H95.
      destruct H50 as [<-|[]]. destruct H95 as [<-|[]]. now split.
Qed.

Lemma frametime_metrics_are_samples_witness :
  (Z.of_nat (List.length (frametimes sample_frames)) <= PY_SSIZE_T_MAX)%Z
  /\ exists report,
      compute_metrics sample_frames = Ok (report, sample_frames)
      /\ (forall key v,
             In key ["frametime_p50_ms"; "frametime_p95_ms"] ->
             get key report = Some v -> In v (frametimes sample_frames)).
Proof.
  split; [vm_compute; discriminate|].
  destruct (frametime_metrics_are_samples sample_frames) as (report & H1 & H2 & _).
  - vm_compute; discriminate.
  - exists report. now split.
Defined.

(** X7: the reducer drops nothing that was recorded: after any sequence of
    record operations on a new accumulator, the report has a metric
    [loading_time_{label}_ms] for every loading-time label, with the value
    recorded for it, and a metric [aggregate_median_{label}] for every
    aggregate label of the accumulator (the guard against an empty sample
    list never applies). *)
Theorem recorded_labels_have_metrics (ops : list record_op) :
  (Z.of_nat (List.length ops) <= PY_SSIZE_T_MAX)%Z ->
  exists m report,
    for_each apply_op ops new_metrics = Ok m
    /\ compute_metrics m = Ok (report, m)
    /\ (forall label,
           In label (keys (loading_times m)) ->
           get (loading_metric_id label) report = get label (loading_times m)
           /\ get label (loading_times m) <> None)
    /\ (forall label,
           In label (keys (aggregate_samples m)) ->
           exists samples v,
             get label (aggregate_samples m) = Some samples
             /\ samples <> []
             /\ get (aggregate_metric_id label) report = Some v).
Proof.
  intros Hlen.
  destruct (run_ops_well_formed ops new_metrics new_metrics_well_formed)
    as (m & Hm & (Hl & Ha & Hne) & Hfr).
  assert (Hfl : (List.length (frametimes m) <= List.length ops)%nat).
  { rewrite Hfr. simpl. unfold frame_times_of, recorded_fps.
    rewrite length_map.
    etransitivity; [apply filter_length_le|].
    clear. induction ops as [|[| |] ops IH]; simpl; lia. }
  destruct (compute_metrics_spec m ltac:(lia)) as (r & report & Hr & Hcm & _ & Hrep).
  exists m, report. split; [exact Hm|]. split; [exact Hcm|]. split.
  - intros label Hin.
    rewrite (report_get_not_frame m r report _ (loading_not_frame label) Hrep).
    rewrite (samples_report_loading m r label Hr Hl). split; [reflexivity|].
    destruct (in_keys_get label _ Hin) as (v & ->). discriminate.
  - intros label Hin.
    destruct (in_keys_get label _ Hin) as (samples & Hget).
    pose proof (get_some_in _ _ _ Hget) as Hin'.
    rewrite Forall_forall in Hne. specialize (Hne _ Hin'). simpl in Hne.
    destruct samples as [|x l]; [congruence|].
    destruct (median_spec x l) as (v & Hv & Hs).
    exists (x :: l), v. split; [exact Hget|]. split; [discriminate|].
    rewrite (report_get_not_frame m r report _ (aggregate_not_frame label) Hrep).
    rewrite (samples_report_aggregate m r label Hr Ha), Hget. exact Hs.
Qed.

Lemma recorded_labels_have_metrics_witness :
  (Z.of_nat (List.length [OpAggregate ["A"; "B"] [literal "1"]; OpLoadingTime "S" zero])
   <= PY_SSIZE_T_MAX)%Z
  /\ exists m report,
      for_each apply_op [OpAggregate ["A"; "B"] [literal "1"]; OpLoadingTime "S" zero]
        new_metrics = Ok m
      /\ compute_metrics m = Ok (report, m).
Proof.
  split; [vm_compute; discriminate|].
  destruct (recorded_labels_have_metrics
              [OpAggregate ["A"; "B"] [literal "1"]; OpLoadingTime "S" zero])
    as (m & report & H1 & H2 & _).
  - vm_compute; discriminate.
  - exists m, report. now split.
Defined.

(* ################################################################# *)
(** * Further properties of the parser *)

(** ** Numbers captured by the patterns always convert *)

Lemma append_empty_r (s : string) : (s ++ EmptyString)%string = s.
Proof.
  induction s as [|c s IH]; simpl; congruence.
Qed.

Lemma digit_facts (c : ascii) :
  PyStr.is_digit c = true ->
  to_ascii_char c = c
  /\ is_underscore c = false
  /\ is_c_space c = false
  /\ PyStr.lower_char c = c
  /\ Ascii.eqb c "."%char = false
  /\ Ascii.eqb "_"%char c = false
  /\ parse_sign (String c EmptyString) = (false, String c EmptyString)
  /\ Ascii.eqb "i"%char c = false
  /\ Ascii.eqb "n"%char c = false.
Proof.
  destruct c as [[] [] [] [] [] [] [] []]; intros H;
    try discriminate H; repeat split; reflexivity.
Qed.

Lemma span_app (p : ascii -> bool) (a b : string) :
  all_chars p a = true ->
  match b with EmptyString => True | String c _ => p c = false end ->
  PyStr.span p (a ++ b) = (a, b).
Proof.
  intros Ha Hb. induction a as [|c a IH]; simpl in *.
  - destruct b as [|c b]; [reflexivity|]. simpl. now rewrite Hb.
  - apply andb_true_iff in Ha as [Hc Ha]. now rewrite Hc, IH.
Qed.

Lemma span_spec (p : ascii -> bool) (s : string) :
  all_chars p (fst (PyStr.span p s)) = true
  /\ match snd (PyStr.span p s) with
     | EmptyString => True
     | String c _ => p c = false
     end
  /\ (fst (PyStr.span p s) ++ snd (PyStr.span p s))%string = s.
Proof.
  induction s as [|c s IH]; simpl; [auto|].
  destruct (p c) eqn:E.
  - destruct (PyStr.span p s) as [a b]. simpl in *. rewrite E.
    destruct IH as (H1 & H2 & H3). now rewrite H1, H3.
  - simpl. now rewrite E.
Qed.

Lemma number_shape (s g : string) :
  Re.number s = Some g ->
  exists ip fp,
    g = number_text ip fp
    /\ all_chars PyStr.is_digit ip = true
    /\ all_chars PyStr.is_digit fp = true
    /\ ip <> EmptyString.
Proof.
  unfold Re.number.
  pose proof (span_spec PyStr.is_digit s) as (Hip & _ & _).
  destruct (PyStr.span PyStr.is_digit s) as [ip r]. cbn [fst snd] in Hip.
  destruct ip as [|c ip]; [discriminate|]. cbn [PyStr.is_empty].
  assert (Hplain : Some (String c ip) = Some g ->
                   exists ip' fp, g = number_text ip' fp
                     /\ all_chars PyStr.is_digit ip' = true
                     /\ all_chars PyStr.is_digit fp = true
                     /\ ip' <> EmptyString).
  { intros [= <-]. exists (String c ip), EmptyString.
    unfold number_text. simpl. rewrite append_empty_r.
    repeat split; [assumption|discriminate]. }
  destruct r as [|d r']; [exact Hplain|].
  destruct (Ascii.eqb_spec d "."%char) as [->|Hd].
  - pose proof (span_spec PyStr.is_digit r') as (Hfp & _ & _).
    destruct (PyStr.span PyStr.is_digit r') as [fp rest]. cbn [fst] in Hfp.
    destruct fp as [|f fp]; cbn [PyStr.is_empty]; [exact Hplain|].
    intros [= <-]. exists (String c ip), (String f fp).
    repeat split; [assumption|assumption|discriminate].
  - destruct d as [[] [] [] [] [] [] [] []]; try exact Hplain.
    now contradiction Hd.
Qed.

Lemma plain_facts (c : ascii) :
  plain_char c = true ->
  to_ascii_char c = c
  /\ is_c_space c = false
  /\ c <> "_"%char.
Proof.
  destruct c as [[] [] [] [] [] [] [] []]; intros H;
    try discriminate H; repeat split; try reflexivity; discriminate.
Qed.

Lemma head_digit_facts (c : ascii) (rest : string) :
  PyStr.is_digit c = true ->
  parse_sign (String c rest) = (false, String c rest)
  /\ parse_inf_or_nan (String c rest) = None.
Proof.
  intros H.
  assert (Hs : parse_sign (String c rest) = (false, String c rest)).
  { destruct c as [[] [] [] [] [] [] [] []]; try discriminate H; reflexivity. }
  split; [exact Hs|].
  unfold parse_inf_or_nan. rewrite Hs.
  destruct c as [[] [] [] [] [] [] [] []]; try discriminate H; reflexivity.
Qed.

Lemma all_chars_app (p : ascii -> bool) (a b : string) :
  all_chars p (a ++ b) = all_chars p a && all_chars p b.
Proof.
  induction a as [|c a IH]; simpl; [reflexivity|].
  now rewrite IH, andb_assoc.
Qed.

Lemma all_chars_impl (p q : ascii -> bool) (s : string) :
  (forall c, p c = true -> q c = true) ->
  all_chars p s = true -> all_chars q s = true.
Proof.
  intros Hpq. induction s as [|c s IH]; simpl; [reflexivity|].
  intros H. apply andb_true_iff in H as [Hc Hs].
  now rewrite (Hpq c Hc), IH.
Qed.

Lemma number_text_plain (ip fp : string) :
  all_chars PyStr.is_digit ip = true ->
  all_chars PyStr.is_digit fp = true ->
  all_chars plain_char (number_text ip fp) = true.
Proof.
  intros Hip Hfp. unfold number_text. rewrite all_chars_app.
  assert (Hd : forall c, PyStr.is_digit c = true -> plain_char c = true).
  { intros c Hc. unfold plain_char. now rewrite Hc. }
  rewrite (all_chars_impl _ _ ip Hd Hip).
  pose proof (all_chars_impl _ _ fp Hd Hfp) as Hq.
  destruct fp as [|f fp]; [reflexivity|]. cbn [PyStr.is_empty andb].
  change (all_chars plain_char (String "."%char (String f fp)))
    with (plain_char "."%char && all_chars plain_char (String f fp)).
  rewrite Hq. reflexivity.
Qed.

Lemma to_ascii_plain (s : string) :
  all_chars plain_char s = true -> to_ascii s = s.
Proof.
  induction s as [|c s IH]; simpl; [reflexivity|].
  intros H. apply andb_true_iff in H as [Hc Hs].
  destruct (plain_facts c Hc) as (-> & _). now rewrite IH.
Qed.

Lemma no_underscore_plain (s : string) :
  all_chars plain_char s = true -> PyStr.str_in "_" s = false.
Proof.
  induction s as [|c s IH]; [reflexivity|].
  cbn [all_chars PyStr.str_in prefix].
  intros H. apply andb_true_iff in H as [Hc Hs].
  destruct (plain_facts c Hc) as (_ & _ & Hne).
  destruct (ascii_dec "_" c) as [E|_]; [congruence|]. now apply IH.
Qed.

Lemma rstrip_plain (s : string) :
  all_chars plain_char s = true -> PyStr.rstrip_by is_c_space s = s.
Proof.
  induction s as [|c s IH]; simpl; [reflexivity|].
  intros H. apply andb_true_iff in H as [Hc Hs].
  destruct (plain_facts c Hc) as (_ & Hsp & _).
  rewrite (IH Hs), Hsp. now destruct s.
Qed.

Lemma lstrip_plain (s : string) :
  all_chars plain_char s = true -> PyStr.lstrip_by is_c_space s = s.
Proof.
  destruct s as [|c s]; simpl; [reflexivity|].
  intros H. apply andb_true_iff in H as [Hc Hs].
  destruct (plain_facts c Hc) as (_ & Hsp & _). now rewrite Hsp.
Qed.

Lemma parse_number_text (ip fp : string) :
  all_chars PyStr.is_digit ip = true ->
  all_chars PyStr.is_digit fp = true ->
  ip <> EmptyString ->
  parse_number (number_text ip fp)
  = Some (digits_value 0 (ip ++ fp), (- Z.of_nat (String.length fp))%Z, EmptyString).
Proof.
  intros Hip Hfp Hne. unfold parse_number, number_text.
  destruct fp as [|f fp]; cbn [PyStr.is_empty].
  - rewrite (span_app PyStr.is_digit ip EmptyString Hip I).
    destruct ip; [congruence|]. reflexivity.
  - rewrite (span_app PyStr.is_digit ip (String "."%char (String f fp)) Hip eq_refl).
    pose proof (span_app PyStr.is_digit (String f fp) EmptyString Hfp I) as Hs.
    rewrite append_empty_r in Hs. rewrite Hs.
    destruct ip; [congruence|]. reflexivity.
Qed.

Lemma of_str_number_text (ip fp : string) :
  all_chars PyStr.is_digit ip = true ->
  all_chars PyStr.is_digit fp = true ->
  ip <> EmptyString ->
  of_str (number_text ip fp)
  = Ok (of_decimal false (digits_value 0 (ip ++ fp))
          (- Z.of_nat (String.length fp))).
Proof.
  intros Hip Hfp Hne.
  pose proof (number_text_plain ip fp Hip Hfp) as Hplain.
  unfold of_str. rewrite (to_ascii_plain _ Hplain).
  unfold without_underscores. rewrite (no_underscore_plain _ Hplain).
  rewrite (lstrip_plain _ Hplain), (rstrip_plain _ Hplain).
  pose proof (parse_number_text ip fp Hip Hfp Hne) as Hpn.
  destruct ip as [|c ip]; [congruence|].
  simpl in Hip. apply andb_true_iff in Hip as [Hc _].
  change (number_text (String c ip) fp)
    with (String c (ip ++ (if PyStr.is_empty fp then EmptyString
                           else String "."%char fp))) in *.
  destruct (head_digit_facts c (ip ++ (if PyStr.is_empty fp then EmptyString
                                       else String "."%char fp)) Hc) as [Hs Hin].
  rewrite Hin, Hs, Hpn. reflexivity.
Qed.

Lemma binary_round_aux_nonneg (m e : Z) (l : location) :
  (0 <= m)%Z -> nonneg_float (binary_round_aux prec emax false m e l).
Proof.
  intros Hm.
  destruct (binary_round_aux_spec false m e l Hm) as (m2 & Hm2 & ->).
  assert (H0 : (0 <= m / 2 ^ shift_of m e)%Z).
  { apply Z.div_pos; [assumption|]. apply Z.pow_pos_nonneg; [lia|].
    unfold shift_of. lia. }
  assert (H3 : (0 <= m2 / 2 ^ shift_of m2 (e + shift_of m e))%Z).
  { apply Z.div_pos; [lia|]. apply Z.pow_pos_nonneg; [lia|].
    unfold shift_of. lia. }
  destruct (m2 / 2 ^ shift_of m2 (e + shift_of m e))%Z as [|p|p]; [reflexivity| |lia].
  destruct (_ <=? _)%Z; reflexivity.
Qed.

Lemma of_decimal_nonneg (n e : Z) : nonneg_float (of_decimal false n e).
Proof.
  unfold of_decimal. destruct n as [|p|p]; try reflexivity.
  destruct (0 <=? e)%Z.
  - destruct (Z.pos p * 10 ^ e)%Z as [|m|m]; try reflexivity.
    unfold binary_round. destruct (shl_align _ _ _) as [mz ez].
    apply binary_round_aux_nonneg. lia.
  - unfold SFdiv_core_binary.
    set (m' := match (0 - 0 - _)%Z with Z.pos _ => _ | Z0 => _ | Z.neg _ => _ end).
    assert (Hm' : (0 <= m')%Z).
    { subst m'. destruct (0 - 0 - _)%Z; try lia.
      rewrite Z.shiftl_mul_pow2 by lia.
      apply Z.mul_nonneg_nonneg; [lia|]. apply Z.pow_nonneg. lia. }
    assert (Hq : (0 <= m' / 10 ^ (- e))%Z).
    { destruct (Z_le_gt_dec 0 (- e)) as [He|He].
      - apply Z.div_pos; [assumption|]. apply Z.pow_pos_nonneg; lia.
      - rewrite Z.pow_neg_r by lia. now rewrite Z.div_0_r. }
    unfold Z.div in Hq. destruct (Z.div_eucl m' (10 ^ (- e))) as [q r].
    now apply binary_round_aux_nonneg.
Qed.

Lemma number_converts (s g : string) :
  Re.number s = Some g ->
  exists v, of_str g = Ok v /\ nonneg_float v.
Proof.
  intros H. apply number_shape in H as (ip & fp & -> & Hip & Hfp & Hne).
  rewrite (of_str_number_text ip fp Hip Hfp Hne).
  eexists. split; [reflexivity|]. apply of_decimal_nonneg.
Qed.

(** X8: a number captured by the loading-time or frame-rate pattern always
    converts: [float] does not fail on it, and the value is not negative
    and not a NaN. *)
Theorem captured_number_converts (s g : string) :
  Re.number s = Some g ->
  exists v, of_str g = Ok v /\ nonneg_float v.
Proof. apply number_converts. Qed.

Lemma captured_number_converts_witness :
  Re.number "12.5 ms" = Some "12.5"
  /\ exists v, of_str "12.5" = Ok v /\ nonneg_float v.
Proof.
  split; [reflexivity|].
  apply (captured_number_converts "12.5 ms" "12.5" eq_refl).
Defined.

(** ** One line, by the pattern it matches *)

Lemma loading_re_number (raw g1 g2 : string) :
  Re.loading_re raw = Some (g1, g2) -> exists s, Re.number s = Some g2.
Proof.
  unfold Re.loading_re.
  destruct (PyStr.strip_prefix _ raw) as [r|]; [|discriminate].
  destruct (PyStr.span _ r) as [label r1].
  destruct (PyStr.is_empty label); [discriminate|].
  destruct r1 as [|c r2]; [discriminate|].
  destruct (Re.number r2) as [num|] eqn:E; [|discriminate].
  intros [= _ <-]. now exists r2.
Qed.

Lemma fps_re_number (raw g : string) :
  Re.fps_re raw = Some g -> exists s, Re.number s = Some g.
Proof.
  induction raw as [|c raw IH]; cbn [Re.fps_re].
  - destruct (Re.fps_re_at EmptyString) eqn:E; [|discriminate].
    unfold Re.fps_re_at in E. simpl in E. discriminate.
  - destruct (Re.fps_re_at (String c raw)) as [g'|] eqn:E.
    + intros [= <-]. unfold Re.fps_re_at in E.
      destruct (PyStr.strip_prefix _ _) as [r|]; [|discriminate]. now exists r.
    + exact IH.
Qed.

(** X9: a line that matches the loading-time pattern always records the
    number it carries: the value is [float] of the captured text, not
    negative and not a NaN, the fallback to 0.0 is never taken, and the
    label is recorded trimmed. *)
Theorem loading_line_payload (metrics : LogMetrics) (events_fh : list event)
  (line g1 g2 : string) :
  Re.loading_re (PyStr.rstrip_newline line) = Some (g1, g2) ->
  exists v,
    of_str g2 = Ok v
    /\ nonneg_float v
    /\ trimmed (PyStr.strip g1)
    /\ parse_line (metrics, events_fh) line
       = Ok (record_loading_time metrics (PyStr.strip g1) v,
             events_fh ++ [{| raw := PyStr.rstrip_newline line;
                              kv := Some (LoadingTime (PyStr.strip g1) v) |}]).
Proof.
  intros Hre. destruct (loading_re_number _ _ _ Hre) as (s & Hs).
  destruct (number_converts s g2 Hs) as (v & Hv & Hnn).
  exists v. split; [exact Hv|]. split; [exact Hnn|].
  split; [apply strip_trimmed|].
  unfold parse_line. rewrite Hre, Hv. reflexivity.
Qed.

Lemma loading_line_payload_witness :
  Re.loading_re (PyStr.rstrip_newline "LOADING_TIME| Session =12.5")
  = Some (" Session ", "12.5")
  /\ exists v,
      of_str "12.5" = Ok v
      /\ nonneg_float v
      /\ trimmed (PyStr.strip " Session ")
      /\ parse_line (new_metrics, []) "LOADING_TIME| Session =12.5"
         = Ok (record_loading_time new_metrics (PyStr.strip " Session ") v,
               [] ++ [{| raw := PyStr.rstrip_newline "LOADING_TIME| Session =12.5";
                         kv := Some (LoadingTime (PyStr.strip " Session ") v) |}]).
Proof.
  split; [reflexivity|].
  apply (loading_line_payload new_metrics [] "LOADING_TIME| Session =12.5"
           " Session " "12.5" eq_refl).
Defined.

(** X10: a line that matches neither the loading-time nor the aggregate
    pattern and contains a frame rate is always classified as a frame
    rate: [float] does not fail on the captured text, the event carries
    the frame rate, which is not negative and not a NaN, and the
    accumulator gains the frame time exactly when the rate is positive. *)
Theorem fps_line_payload (metrics : LogMetrics) (events_fh : list event)
  (line g : string) :
  Re.loading_re (PyStr.rstrip_newline line) = None ->
  Re.aggregate_re (PyStr.rstrip_newline line) = None ->
  Re.fps_re (PyStr.rstrip_newline line) = Some g ->
  exists fps,
    of_str g = Ok fps
    /\ nonneg_float fps
    /\ parse_line (metrics, events_fh) line
       = Ok (if ltb zero fps
             then append_frametime metrics (SFdiv prec emax (literal "1000.0") fps)
             else metrics,
             events_fh ++ [{| raw := PyStr.rstrip_newline line;
                              kv := Some (FrameRate fps) |}]).
Proof.
  intros Hl Ha Hf. destruct (fps_re_number _ _ Hf) as (s & Hs).
  destruct (number_converts s g Hs) as (fps & Hv & Hnn).
  exists fps. split; [exact Hv|]. split; [exact Hnn|].
  unfold parse_line. rewrite Hl, Ha, Hf, Hv. cbn [bind].
  rewrite record_fps_spec. reflexivity.
Qed.

Lemma fps_line_payload_witness :
  Re.loading_re (PyStr.rstrip_newline "12:00 Perf: FPS=60.5 ok") = None
  /\ Re.aggregate_re (PyStr.rstrip_newline "12:00 Perf: FPS=60.5 ok") = None
  /\ Re.fps_re (PyStr.rstrip_newline "12:00 Perf: FPS=60.5 ok") = Some "60.5"
  /\ exists fps, of_str "60.5" = Ok fps /\ nonneg_float fps.
Proof.
  split; [reflexivity|]. split; [reflexivity|]. split; [reflexivity|].
  destruct (fps_line_payload new_metrics [] "12:00 Perf: FPS=60.5 ok" "60.5"
              eq_refl eq_refl eq_refl) as (fps & H1 & H2 & _).
  exists fps. now split.
Defined.

Lemma loading_not_aggregate_re (raw : string) :
  Re.loading_re raw <> None -> Re.aggregate_re raw = None.
Proof.
  intros H. destruct (Re.aggregate_re raw) eqn:E; [|reflexivity].
  exfalso. apply H, aggregate_not_loading. rewrite E. discriminate.
Qed.

(** X11: the loading-time and the aggregate pattern never match the same
    line, and a line that matches either of them leaves the frame times as
    they are, even when it also contains a frame rate: the first matching
    rule decides. *)
Theorem first_rule_wins (metrics : LogMetrics) (events_fh : list event)
  (line : string) :
  Re.loading_re (PyStr.rstrip_newline line) <> None
  \/ Re.aggregate_re (PyStr.rstrip_newline line) <> None ->
  (Re.loading_re (PyStr.rstrip_newline line) = None
   \/ Re.aggregate_re (PyStr.rstrip_newline line) = None)
  /\ exists metrics' e,
      parse_line (metrics, events_fh) line = Ok (metrics', events_fh ++ [e])
      /\ frametimes metrics' = frametimes metrics
      /\ match kv e with
         | Some (FrameRate _) | None => False
         | _ => True
         end.
Proof.
  intros H. split.
  - destruct H as [H|H]; [right; now apply loading_not_aggregate_re|
                          left; now apply aggregate_not_loading].
  - unfold parse_line.
    destruct (Re.loading_re _) as [[g1 g2]|] eqn:El.
    + rewrite try_of_str. cbn [bind]. eexists _, _. split; [reflexivity|].
      split; [reflexivity|exact I].
    + destruct H as [H|H]; [congruence|].
      destruct (Re.aggregate_re _) as [[[name lg] vs]|]; [|congruence].
      rewrite parse_values_spec. cbn [bind]. eexists _, _. split; [reflexivity|].
      split; [reflexivity|exact I].
Qed.

Lemma first_rule_wins_witness :
  (Re.loading_re (PyStr.rstrip_newline "LOADING_TIME|A=1 Perf: FPS=60") <> None
   \/ Re.aggregate_re (PyStr.rstrip_newline "LOADING_TIME|A=1 Perf: FPS=60") <> None)
  /\ exists metrics' e,
      parse_line (new_metrics, []) "LOADING_TIME|A=1 Perf: FPS=60"
      = Ok (metrics', [] ++ [e])
      /\ frametimes metrics' = frametimes new_metrics.
Proof.
  assert (H : Re.loading_re (PyStr.rstrip_newline "LOADING_TIME|A=1 Perf: FPS=60") <> None
              \/ Re.aggregate_re (PyStr.rstrip_newline "LOADING_TIME|A=1 Perf: FPS=60") <> None).
  { left. vm_compute. discriminate. }
  split; [exact H|].
  destruct (first_rule_wins new_metrics [] "LOADING_TIME|A=1 Perf: FPS=60" H)
    as (_ & m' & e & H1 & H2 & _).
  exists m', e. now split.
Defined.

(** ** A whole file: what the event stream retains *)

Lemma replay_frametimes (events : list event) (m0 m : LogMetrics) :
  for_each record_payload (map kv events) m0 = Ok m ->
  frametimes m = frametimes m0 ++ frame_times_of (event_fps events).
Proof.
  revert m0. induction events as [|e events IH]; intros m0 Hrun.
  - simpl in Hrun. injection Hrun as <-. simpl. now rewrite app_nil_r.
  - cbn [map for_each] in Hrun.
    destruct (record_payload m0 (kv e)) as [m1|] eqn:E1; [|discriminate].
    cbn [bind] in Hrun. rewrite (IH m1 Hrun).
    assert (H1 : frametimes m1
                 = frametimes m0 ++ frame_times_of (event_fps [e])).
    { unfold event_fps, frame_times_of. simpl.
      destruct (kv e) as [[l v|lg vs|fps]|]; cbn [record_payload] in E1.
      - injection E1 as <-. simpl. now rewrite app_nil_r.
      - injection E1 as <-. simpl. now rewrite app_nil_r.
      - rewrite record_fps_spec in E1. injection E1 as <-. simpl.
        destruct (ltb zero fps); simpl; [reflexivity|now rewrite app_nil_r].
      - injection E1 as <-. simpl. now rewrite app_nil_r. }
    rewrite H1, <- app_assoc, <- frame_times_of_app. do 2 f_equal.
    unfold event_fps. simpl. now rewrite app_nil_r.
Qed.

(** X12: the event stream determines the accumulator: after a file is
    parsed, replaying the payloads of the events it emitted, each through
    the record method of its kind, rebuilds the accumulator, and the frame
    times gained are [1000.0 / fps] for the positive frame rates of the
    events, in order. *)
Theorem events_determine_metrics (text : string) (metrics : LogMetrics)
  (events_fh : list event) :
  exists metrics' new_events,
    parse_log_file text metrics events_fh = Ok (metrics', events_fh ++ new_events)
    /\ for_each record_payload (map kv new_events) metrics = Ok metrics'
    /\ frametimes metrics'
       = frametimes metrics ++ frame_times_of (event_fps new_events).
Proof.
  destruct (parse_lines_spec (file_lines text) metrics events_fh)
    as (m & evs & Hparse & _ & Hreplay).
  exists m, evs. split; [exact Hparse|]. split; [exact Hreplay|].
  now apply replay_frametimes.
Qed.

Lemma rstrip_newline_cons (c : ascii) (s : string) :
  Ascii.eqb "010"%char c = false ->
  PyStr.rstrip_newline (String c s) = String c (PyStr.rstrip_newline s).
Proof.
  intros Hc. unfold PyStr.rstrip_newline. cbn [PyStr.rstrip_by]. rewrite Hc.
  now destruct (PyStr.rstrip_by _ s).
Qed.

Lemma lines_of_cons (c : ascii) (s : string) :
  lines_of (String c s)
  = if Ascii.eqb c "010"%char then String c EmptyString :: lines_of s
    else match s with
         | EmptyString => [String c EmptyString]
         | _ => match lines_of s with
                | [] => [String c EmptyString]
                | l :: ls => String c l :: ls
                end
         end.
Proof. destruct s; reflexivity. Qed.

Lemma lines_of_nonempty (c : ascii) (s : string) : lines_of (String c s) <> [].
Proof.
  rewrite lines_of_cons. destruct (Ascii.eqb c "010"%char); [discriminate|].
  destruct s; [discriminate|]. destruct (lines_of _); discriminate.
Qed.

Lemma raw_lines_newline (s : string) :
  raw_lines (String "010"%char s) = EmptyString :: raw_lines s.
Proof. reflexivity. Qed.

Lemma raw_lines_other (c : ascii) (s : string) :
  Ascii.eqb c "010"%char = false ->
  raw_lines (String c s)
  = match raw_lines s with
    | [] => [String c EmptyString]
    | r :: rs => String c r :: rs
    end.
Proof.
  intros Hc.
  assert (Hc' : Ascii.eqb "010"%char c = false) by now rewrite Ascii.eqb_sym.
  unfold raw_lines. rewrite lines_of_cons, Hc.
  destruct s as [|c' s'].
  - simpl. now rewrite rstrip_newline_cons.
  - pose proof (lines_of_nonempty c' s') as Hne.
    destruct (lines_of (String c' s')) as [|l ls]; [congruence|].
    cbn [map]. now rewrite rstrip_newline_cons.
Qed.

Lemma concat_cons_char (sep : string) (c : ascii) (r : string) (rs : list string) :
  String.concat sep (String c r :: rs) = String c (String.concat sep (r :: rs)).
Proof.
  destruct rs; reflexivity.
Qed.

Lemma raw_lines_rebuild (t : string) :
  (String.concat line_break (raw_lines t)
   ++ (if ends_with_newline t then line_break else EmptyString))%string = t.
Proof.
  induction t as [|c t IH]; [reflexivity|].
  destruct (Ascii.eqb_spec c "010"%char) as [->|Hc].
  - rewrite raw_lines_newline. destruct t as [|c' t'].
    + reflexivity.
    + pose proof (lines_of_nonempty c' t') as Hne.
      unfold raw_lines in *. destruct (lines_of (String c' t')) as [|l ls];
        [congruence|].
      cbn [map] in *. cbn [String.concat].
      change (ends_with_newline (String "010"%char (String c' t')))
        with (ends_with_newline (String c' t')).
      cbn [append line_break]. f_equal. exact IH.
  - apply Ascii.eqb_neq in Hc. rewrite (raw_lines_other c t Hc).
    destruct t as [|c' t'].
    + simpl. rewrite Hc. reflexivity.
    + change (ends_with_newline (String c (String c' t')))
        with (ends_with_newline (String c' t')).
      pose proof (lines_of_nonempty c' t') as Hne.
      unfold raw_lines in *. destruct (lines_of (String c' t')) as [|l ls];
        [congruence|].
      cbn [map] in *. rewrite concat_cons_char. cbn [append]. f_equal. exact IH.
Qed.

Lemma raw_lines_no_newline (t : string) :
  Forall (fun r => all_chars (fun c => negb (Ascii.eqb c "010"%char)) r = true)
    (raw_lines t).
Proof.
  induction t as [|c t IH]; [constructor|].
  destruct (Ascii.eqb_spec c "010"%char) as [->|Hc].
  - rewrite raw_lines_newline. now constructor.
  - apply Ascii.eqb_neq in Hc. rewrite (raw_lines_other c t Hc).
    destruct (raw_lines t) as [|r rs].
    + constructor; [|constructor]. simpl. now rewrite Hc.
    + inversion IH; subst. constructor; [|assumption]. simpl. now rewrite Hc.
Qed.

(** X13: the event stream retains the file: the raw texts of the events of
    a file contain no line terminator, and joined by line terminators, with
    one more at the end when the text ends with one, they are the text of
    the file (after the translation of line ends on reading). *)
Theorem raw_texts_rebuild_file (text : string) (metrics : LogMetrics)
  (events_fh : list event) :
  exists metrics' new_events,
    parse_log_file text metrics events_fh = Ok (metrics', events_fh ++ new_events)
    /\ (String.concat line_break (map raw new_events)
        ++ (if ends_with_newline (universal_newlines text)
            then line_break else EmptyString))%string
       = universal_newlines text
    /\ Forall (fun e => all_chars (fun c => negb (Ascii.eqb c "010"%char)) (raw e) = true)
         new_events.
Proof.
  destruct (parse_lines_spec (file_lines text) metrics events_fh)
    as (m & evs & Hparse & Hraw & _).
  exists m, evs. split; [exact Hparse|].
  unfold file_lines in Hraw. fold (raw_lines (universal_newlines text)) in Hraw.
  split.
  - rewrite Hraw. apply raw_lines_rebuild.
  - pose proof (raw_lines_no_newline (universal_newlines text)) as H.
    rewrite <- Hraw in H. rewrite Forall_map in H. exact H.
Qed.

(* ################################################################# *)
(** * The role map file *)

Lemma str_in_char_span (c : ascii) (s : string) :
  PyStr.str_in (String c EmptyString) s
  = match snd (PyStr.span (fun x => negb (Ascii.eqb x c)) s) with
    | EmptyString => false
    | String _ _ => true
    end.
Proof.
  induction s as [|d s IH]; [reflexivity|].
  cbn [PyStr.str_in prefix PyStr.span].
  destruct (ascii_dec c d) as [<-|Hne].
  - rewrite Ascii.eqb_refl. cbn [negb snd]. now destruct s.
  - assert (Hd : Ascii.eqb d c = false) by (apply Ascii.eqb_neq; congruence).
    rewrite Hd. cbn [negb orb]. rewrite IH.
    now destruct (PyStr.span _ s).
Qed.

Lemma rolemap_line_entry (mapping : dict string) (line : string) :
  rolemap_line mapping line
  = Ok match rolemap_entry line with
       | Some (k, v) => set k v mapping
       | None => mapping
       end.
Proof.
  unfold rolemap_line, rolemap_entry.
  destruct (PyStr.is_empty _ || prefix "#" _); [reflexivity|].
  rewrite (str_in_char_span "="%char). unfold split_once.
  destruct (PyStr.span _ (PyStr.strip line)) as [fname rest]. cbn [snd].
  destruct rest; reflexivity.
Qed.

Lemma all_chars_lstrip (p q : ascii -> bool) (s : string) :
  all_chars q s = true -> all_chars q (PyStr.lstrip_by p s) = true.
Proof.
  induction s as [|c s IH]; simpl; [reflexivity|].
  intros H. destruct (p c); [|exact H].
  apply andb_true_iff in H as [_ H]. now apply IH.
Qed.

Lemma all_chars_rstrip (p q : ascii -> bool) (s : string) :
  all_chars q s = true -> all_chars q (PyStr.rstrip_by p s) = true.
Proof.
  induction s as [|c s IH]; simpl; [reflexivity|].
  intros H. apply andb_true_iff in H as [Hc Hs]. specialize (IH Hs).
  destruct (PyStr.rstrip_by p s) as [|d r].
  - destruct (p c); [reflexivity|]. simpl. now rewrite Hc.
  - cbn [all_chars] in *. now rewrite Hc, IH.
Qed.

Lemma rstrip_by_cons (p : ascii -> bool) (c : ascii) (s : string) :
  p c = false -> exists r, PyStr.rstrip_by p (String c s) = String c r.
Proof.
  intros Hc. simpl. destruct (PyStr.rstrip_by p s); [rewrite Hc|]; eauto.
Qed.

Lemma strip_head (s : string) :
  match PyStr.strip s with
  | EmptyString => True
  | String c _ => PyStr.isspace c = false
  end.
Proof.
  unfold PyStr.strip. pose proof (lstrip_by_head PyStr.isspace s) as H.
  destruct (PyStr.lstrip_by PyStr.isspace s) as [|c y]; [exact I|].
  destruct (rstrip_by_cons PyStr.isspace c y H) as [r ->]. exact H.
Qed.

Lemma rolemap_entry_ok (line k v : string) :
  rolemap_entry line = Some (k, v) -> overridable k /\ trimmed v.
Proof.
  unfold rolemap_entry. pose proof (strip_head line) as Hhead.
  destruct (PyStr.strip line) as [|c0 l] eqn:El; [discriminate|].
  cbn [PyStr.is_empty orb].
  destruct (prefix "#" (String c0 l)) eqn:Ehash; [discriminate|].
  pose proof (span_spec (fun c => negb (Ascii.eqb c "="%char)) (String c0 l))
    as (Hall & _ & Happ).
  destruct (PyStr.span _ (String c0 l)) as [fname rest]. cbn [fst snd] in *.
  destruct rest as [|e role]; [discriminate|]. intros [= <- <-].
  split; [|apply strip_trimmed].
  split; [apply strip_trimmed|]. split.
  - unfold no_equals, PyStr.strip. now apply all_chars_rstrip, all_chars_lstrip.
  - destruct fname as [|f0 fname]; [reflexivity|].
    injection Happ as -> _.
    unfold PyStr.strip. cbn [PyStr.lstrip_by]. rewrite Hhead.
    destruct (rstrip_by_cons PyStr.isspace c0 fname Hhead) as [r ->].
    cbn [prefix] in *. destruct (ascii_dec "#" c0); [|reflexivity].
    destruct l; discriminate.
Qed.

Lemma rolemap_loop_spec (lines : list string) (m0 : dict string) :
  exists m,
    for_each rolemap_line lines m0 = Ok m
    /\ (NoDup (keys m0) -> NoDup (keys m))
    /\ (Forall (fun p => overridable (fst p) /\ trimmed (snd p)) m0 ->
        Forall (fun p => overridable (fst p) /\ trimmed (snd p)) m)
    /\ (forall name,
           get name m
           = fold_left (fun acc line =>
                 match rolemap_entry line with
                 | Some (k, v) => if String.eqb k name then Some v else acc
                 | None => acc
                 end) lines (get name m0)).
Proof.
  revert m0. induction lines as [|line lines IH]; intros m0.
  - exists m0. simpl. auto.
  - cbn [for_each]. rewrite rolemap_line_entry. cbn [bind].
    set (m1 := match rolemap_entry line with
               | Some (k, v) => set k v m0
               | None => m0
               end).
    destruct (IH m1) as (m & Hm & Hnd & Hok & Hget).
    exists m. split; [exact Hm|]. split; [|split].
    + intros H0. apply Hnd. subst m1.
      destruct (rolemap_entry line) as [[k v]|]; [now apply NoDup_keys_set|assumption].
    + intros H0. apply Hok. subst m1.
      destruct (rolemap_entry line) as [[k v]|] eqn:E; [|assumption].
      apply Forall_set; [|assumption]. exact (rolemap_entry_ok line k v E).
    + intros name. rewrite Hget. cbn [fold_left]. f_equal. subst m1.
      destruct (rolemap_entry line) as [[k v]|]; [|reflexivity].
      destruct (String.eqb_spec k name) as [->|Hne].
      * apply get_set_same.
      * apply get_set_other. congruence.
Qed.

Lemma read_rolemap_total_aux (open_text : string -> option string)
  (path : option string) :
  exists rolemap, read_rolemap open_text path = Ok rolemap.
Proof.
  destruct path as [[|c p]|]; try (exists None; reflexivity).
  unfold read_rolemap. destruct (open_text (String c p)) as [text|].
  - destruct (rolemap_loop_spec (file_lines text) Dict.empty) as (m & -> & _).
    cbn [bind]. eexists. reflexivity.
  - exists None. reflexivity.
Qed.

(** X14: [read_rolemap] never fails and never returns an empty mapping:
    the result is either no mapping or a mapping with at least one entry;
    it is no mapping when no path is given, when the path is empty, and
    when the file cannot be opened. *)
Theorem read_rolemap_total (open_text : string -> option string)
  (path : option string) :
  (exists rolemap,
      read_rolemap open_text path = Ok rolemap /\ rolemap <> Some [])
  /\ read_rolemap open_text None = Ok None
  /\ read_rolemap open_text (Some EmptyString) = Ok None
  /\ read_rolemap (fun _ => None) path = Ok None.
Proof.
  split; [|split; [reflexivity|split; [reflexivity|]]].
  - destruct path as [[|c p]|]; try (exists None; split; [reflexivity|discriminate]).
    unfold read_rolemap. destruct (open_text (String c p)) as [text|].
    + destruct (rolemap_loop_spec (file_lines text) Dict.empty) as (m & -> & _).
      cbn [bind]. destruct m; eexists; (split; [reflexivity|discriminate]).
    + exists None. split; [reflexivity|discriminate].
  - destruct path as [[|c p]|]; reflexivity.
Qed.

(** X15: the mapping read from a role map file gives each file name the
    role of the last line that names it (last write wins); lines that are
    blank, start with [#] or have no [=] contribute nothing. *)
Theorem read_rolemap_lookup (open_text : string -> option string)
  (p text : string) :
  p <> EmptyString ->
  open_text p = Some text ->
  exists rolemap,
    read_rolemap open_text (Some p) = Ok rolemap
    /\ forall name,
         get name (entries rolemap) = last_entry name (file_lines text).
Proof.
  intros Hp Hopen. unfold read_rolemap. destruct p as [|c p]; [congruence|].
  rewrite Hopen.
  destruct (rolemap_loop_spec (file_lines text) Dict.empty) as (m & -> & _ & _ & Hget).
  cbn [bind]. eexists. split; [reflexivity|].
  intros name. transitivity (get name m); [now destruct m|].
  rewrite Hget. reflexivity.
Qed.

Lemma read_rolemap_entries_aux (open_text : string -> option string)
  (path : option string) (mapping : dict string) :
  read_rolemap open_text path = Ok (Some mapping) ->
  NoDup (keys mapping)
  /\ Forall (fun p => overridable (fst p) /\ trimmed (snd p)) mapping.
Proof.
  unfold read_rolemap. destruct path as [[|c p]|]; try discriminate.
  destruct (open_text (String c p)) as [text|]; [|discriminate].
  destruct (rolemap_loop_spec (file_lines text) Dict.empty)
    as (m & -> & Hnd & Hok & _).
  cbn [bind]. destruct m as [|e m]; [discriminate|]. intros [= <-].
  split; [apply Hnd|apply Hok]; constructor.
Qed.

(** X16: every entry of the mapping read from a role map file has a file
    name and a role without surrounding whitespace, and a file name that
    contains no [=] and does not start with [#]; no file name occurs
    twice. *)
Theorem read_rolemap_entries (open_text : string -> option string)
  (path : option string) (mapping : dict string) :
  read_rolemap open_text path = Ok (Some mapping) ->
  NoDup (keys mapping)
  /\ Forall (fun p => overridable (fst p) /\ trimmed (snd p)) mapping.
Proof. apply read_rolemap_entries_aux. Qed.

(** X17: a log file whose base name has surrounding whitespace, contains
    [=] or starts with [#] cannot be given a role by any role map file:
    its role is the one inferred from the name alone. *)
Theorem unnameable_files_keep_role (open_text : string -> option string)
  (path : option string) (rolemap : option (dict string)) (filename : string) :
  read_rolemap open_text path = Ok rolemap ->
  ~ overridable (PyStr.basename filename) ->
  infer_role filename rolemap = infer_role filename None.
Proof.
  intros Hread Hno. rewrite !infer_role_basename. f_equal.
  unfold spec_infer_role.
  destruct (get (PyStr.basename filename) (entries rolemap)) as [role|] eqn:Hget;
    [|reflexivity].
  exfalso. apply Hno. apply get_some_in in Hget.
  destruct rolemap as [mapping|]; [|destruct Hget].
  destruct (read_rolemap_entries_aux open_text path mapping Hread) as [_ Hall].
  rewrite Forall_forall in Hall. exact (proj1 (Hall _ Hget)).
Qed.

Lemma unnameable_files_keep_role_witness :
  infer_role "a=b.log"
    (Some [("a", "b.log=tester")])
  = infer_role "a=b.log" None.
Proof.
  apply (unnameable_files_keep_role
           (fun _ => Some "a=b.log=tester") (Some "roles.txt")).
  - reflexivity.
  - intros (_ & H & _). vm_compute in H. discriminate H.
Defined.

Lemma read_rolemap_lookup_witness :
  exists rolemap,
    read_rolemap (fun _ => Some "# roles
a.log = client
b.log=server
a.log=dedicated") (Some "roles.txt") = Ok rolemap
    /\ forall name,
         get name (entries rolemap)
         = last_entry name (file_lines "# roles
a.log = client
b.log=server
a.log=dedicated").
Proof.
  apply (read_rolemap_lookup _ "roles.txt"); [discriminate|reflexivity].
Defined.

Lemma read_rolemap_entries_witness :
  NoDup (keys [("a.log", "dedicated"); ("b.log", "server")])
  /\ Forall (fun p => overridable (fst p) /\ trimmed (snd p))
       [("a.log", "dedicated"); ("b.log", "server")].
Proof.
  apply (read_rolemap_entries
           (fun _ => Some "# roles
a.log = client
b.log=server
a.log=dedicated") (Some "roles.txt")).
  reflexivity.
Defined.

(** ** A run over a directory *)

Lemma parse_line_classify (metrics : LogMetrics) (events_fh : list event)
  (line : string) :
  exists metrics',
    parse_line (metrics, events_fh) line = Ok (metrics', events_fh ++ [classify line])
    /\ record_payload metrics (kv (classify line)) = Ok metrics'.
Proof.
  unfold parse_line, classify.
  destruct (Re.loading_re _) as [[g1 g2]|].
  { rewrite try_of_str. cbn [bind]. eexists. split; reflexivity. }
  destruct (Re.aggregate_re _) as [[[name legend_str] values_str]|].
  { rewrite parse_values_spec, parse_legend_spec. cbn [bind].
    eexists. split; reflexivity. }
  destruct (Re.fps_re _) as [g1|].
  { destruct (of_str g1) as [fps|e] eqn:E; cbn [bind].
    - rewrite record_fps_spec. cbn [bind try_except].
      eexists. split; [reflexivity|].
      cbn [record_payload kv]. now rewrite record_fps_spec.
    - apply of_str_raises in E as ->. cbn [try_except exn_eqb bind].
      exists metrics. split; reflexivity. }
  exists metrics. split; reflexivity.
Qed.

Lemma parse_lines_classify (lines : list string) (metrics : LogMetrics)
  (events_fh : list event) :
  exists metrics',
    for_each parse_line lines (metrics, events_fh)
    = Ok (metrics', events_fh ++ map classify lines)
    /\ for_each record_payload (map kv (map classify lines)) metrics = Ok metrics'.
Proof.
  revert metrics events_fh.
  induction lines as [|line lines IH]; intros metrics events_fh.
  - exists metrics. rewrite app_nil_r. split; reflexivity.
  - destruct (parse_line_classify metrics events_fh line) as (m1 & Hline & Hrec).
    destruct (IH m1 (events_fh ++ [classify line])) as (m2 & Hrest & Hkv).
    exists m2. cbn [for_each map]. rewrite Hline, Hrec. cbn [bind].
    rewrite Hrest, <- app_assoc. split; [reflexivity|exact Hkv].
Qed.

Lemma parse_log_file_events (text : string) (metrics : LogMetrics)
  (events_fh : list event) :
  exists metrics',
    parse_log_file text metrics events_fh = Ok (metrics', events_fh ++ file_events text)
    /\ for_each record_payload (map kv (file_events text)) metrics = Ok metrics'.
Proof. apply parse_lines_classify. Qed.

Lemma record_payloads_frames (ps : list (option payload)) (m m' : LogMetrics) :
  for_each record_payload ps m = Ok m' ->
  (List.length (frametimes m') <= List.length (frametimes m) + List.length ps)%nat.
Proof.
  revert m. induction ps as [|p ps IH]; intros m; cbn [for_each].
  - intros [= <-]. simpl. lia.
  - destruct (record_payload m p) as [m1|e] eqn:E; cbn [bind]; [|discriminate].
    intros H. apply IH in H. apply record_payload_frames in E. simpl. lia.
Qed.

Lemma file_report_ok (text : string) (events_fh : list event) :
  (Z.of_nat (String.length text) <= PY_SSIZE_T_MAX)%Z ->
  exists metrics report,
    parse_log_file text new_metrics events_fh
    = Ok (metrics, events_fh ++ file_events text)
    /\ compute_metrics metrics = Ok (report, metrics)
    /\ file_report text = Ok report.
Proof.
  intros Hlen.
  destruct (parse_log_file_events text new_metrics events_fh) as (m & Hp & Hrec).
  destruct (parse_log_file_events text new_metrics []) as (m0 & Hp0 & Hrec0).
  assert (m0 = m) as -> by congruence.
  pose proof (record_payloads_frames _ _ _ Hrec) as Hfr.
  unfold file_events in Hfr. rewrite !length_map in Hfr.
  pose proof (file_lines_length text) as Hl.
  change (List.length (frametimes new_metrics)) with 0%nat in Hfr.
  destruct (compute_metrics_spec m) as (r & report & _ & Hc & _); [lia|].
  exists m, report. split; [exact Hp|]. split; [exact Hc|].
  unfold file_report. rewrite Hp0. cbn [bind]. rewrite Hc. reflexivity.
Qed.

(** ** No NaN among what the reducer sorts *)

Lemma frame_time_no_nan (fps : float) :
  ltb zero fps = true ->
  is_nan (SFdiv prec emax (literal "1000.0") fps) = false.
Proof.
  intros Hpos. rewrite literal_1000.
  destruct fps as [s|s| |s m e]; try discriminate;
    (destruct s; [discriminate|]); [reflexivity|].
  cbn [SFdiv xorb]. unfold SFdiv_core_binary.
  set (m' := match (_ - _ - _)%Z with Z.pos _ => _ | Z0 => _ | Z.neg _ => _ end).
  assert (Hm' : (0 <= m')%Z).
  { subst m'. destruct (_ - _ - _)%Z; try lia.
    rewrite Z.shiftl_mul_pow2 by lia.
    apply Z.mul_nonneg_nonneg; [lia|]. apply Z.pow_nonneg. lia. }
  assert (Hq : (0 <= m' / Z.pos m)%Z) by (apply Z.div_pos; lia).
  unfold Z.div in Hq. destruct (Z.div_eucl m' (Z.pos m)) as [q r].
  now apply nonneg_no_nan, binary_round_aux_nonneg.
Qed.

Lemma frame_times_no_nan (fps : list float) : no_nan (frame_times_of fps).
Proof.
  unfold no_nan, frame_times_of. rewrite Forall_forall. intros ft Hin.
  apply in_map_iff in Hin as (x & <- & Hx). apply filter_In in Hx as [_ Hx].
  now apply frame_time_no_nan.
Qed.

Lemma setdefault_append_no_nan (l : string) (v : float) (d : dict (list float)) :
  is_nan v = false ->
  Forall (fun p => no_nan (snd p)) d ->
  Forall (fun p => no_nan (snd p)) (setdefault_append l v d).
Proof.
  intros Hv Hd. unfold setdefault_append.
  destruct (get l d) as [vals|] eqn:E; apply Forall_set; auto; cbn [snd].
  - apply get_some_in in E. rewrite Forall_forall in Hd.
    apply Forall_app. split; [exact (Hd _ E)|]. now repeat constructor.
  - now repeat constructor.
Qed.

Lemma record_aggregate_no_nan (self : LogMetrics) (legend : list string)
  (values : list float) :
  no_nan values -> sorts_no_nan self ->
  sorts_no_nan (record_aggregate self legend values).
Proof.
  intros Hv [Hf Ha]. split; [exact Hf|]. cbn [record_aggregate aggregate_samples].
  assert (Hps : Forall (fun p => is_nan (snd p) = false) (combine legend values)).
  { unfold no_nan in Hv. rewrite Forall_forall in *. intros [l v] Hin.
    apply in_combine_r in Hin. now apply Hv. }
  revert Ha. generalize (aggregate_samples self).
  induction Hps as [|[l v] ps Hp _ IH]; intros d Hd; [exact Hd|].
  cbn [fold_left]. apply IH. now apply setdefault_append_no_nan.
Qed.

Lemma record_payload_no_nan (m m' : LogMetrics) (e : event) :
  record_payload m (kv e) = Ok m' ->
  nan_free_event e = true ->
  sorts_no_nan m -> sorts_no_nan m'.
Proof.
  unfold nan_free_event. destruct (kv e) as [[label value|legend values|fps]|];
    cbn [record_payload]; intros Hrec Hn Hm.
  - injection Hrec as <-. exact Hm.
  - injection Hrec as <-. apply record_aggregate_no_nan; [|exact Hm].
    unfold no_nan. rewrite Forall_forall. rewrite forallb_forall in Hn.
    intros x Hx. apply Hn in Hx. now apply negb_true_iff in Hx.
  - rewrite record_fps_spec in Hrec. injection Hrec as <-.
    destruct (ltb zero fps) eqn:E; [|exact Hm].
    destruct Hm as [Hf Ha]. split; [|exact Ha].
    cbn [append_frametime frametimes]. apply Forall_app. split; [exact Hf|].
    constructor; [now apply frame_time_no_nan|constructor].
  - injection Hrec as <-. exact Hm.
Qed.

Lemma replay_no_nan (events : list event) (m0 m : LogMetrics) :
  for_each record_payload (map kv events) m0 = Ok m ->
  nan_free events = true ->
  sorts_no_nan m0 -> sorts_no_nan m.
Proof.
  revert m0. induction events as [|e events IH]; intros m0; cbn [map for_each].
  - now intros [= <-].
  - destruct (record_payload m0 (kv e)) as [m1|x] eqn:E; cbn [bind]; [|discriminate].
    intros Hrest Hn Hm0. cbn [nan_free forallb] in Hn.
    apply andb_true_iff in Hn as [He Hn].
    apply (IH m1 Hrest Hn). exact (record_payload_no_nan m0 m1 e E He Hm0).
Qed.

Lemma new_metrics_no_nan : sorts_no_nan new_metrics.
Proof. split; constructor. Qed.

Lemma file_accumulator_no_nan (text : string) :
  nan_free (file_events text) = true ->
  exists m,
    parse_log_file text new_metrics [] = Ok (m, file_events text)
    /\ sorts_no_nan m.
Proof.
  intros Hn.
  destruct (parse_log_file_events text new_metrics []) as (m & Hp & Hrec).
  exists m. split; [exact Hp|].
  exact (replay_no_nan _ _ _ Hrec Hn new_metrics_no_nan).
Qed.

Lemma Forall2_and_left {A B : Type} (P : A -> B -> Prop) (Q : A -> Prop)
  (l : list A) (l' : list B) :
  Forall2 P l l' -> Forall Q l -> Forall2 (fun a b => P a b /\ Q a) l l'.
Proof.
  induction 1 as [|a b l l' Hab _ IH]; intros HQ; [constructor|].
  inversion HQ; subst. constructor; auto.
Qed.

(** ** The two loops of a run *)

Lemma process_files_spec (indir : dict dir_entry) (names : list string)
  (events_fh : list event) (aggregated_metrics : list (string * dict float)) :
  Forall (fun ft => (Z.of_nat (String.length (snd ft)) <= PY_SSIZE_T_MAX)%Z)
    (readable_prefix indir names) ->
  exists reports,
    Forall2 (fun ft report => file_report (snd ft) = Ok report)
      (readable_prefix indir names) reports
    /\ process_files indir names events_fh aggregated_metrics
       = (events_fh
            ++ flat_map (fun ft => file_events (snd ft)) (readable_prefix indir names),
          aggregated_metrics
            ++ combine (map fst (readable_prefix indir names)) reports,
          if all_readable indir names then Completed else FileError).
Proof.
  revert events_fh aggregated_metrics.
  induction names as [|fname names IH]; intros events_fh aggregated_metrics Hlen.
  - exists []. split; [constructor|]. simpl. now rewrite !app_nil_r.
  - cbn [readable_prefix process_files all_readable forallb] in *.
    destruct (get fname indir) as [[[text|]|]|].
    + inversion Hlen as [|x l Hx Hl]; subst. cbn [snd] in Hx.
      destruct (file_report_ok text events_fh Hx) as (m & report & Hp & Hc & Hr).
      rewrite Hp, Hc.
      destruct (IH (events_fh ++ file_events text)
                  (aggregated_metrics ++ [(fname, report)]) Hl)
        as (reports & Hall & Hrest).
      exists (report :: reports). split; [constructor; assumption|].
      fold (all_readable indir names). rewrite Hrest.
      cbn [flat_map map combine fst snd andb]. now rewrite <- !app_assoc.
    + exists []. split; [constructor|]. simpl. now rewrite !app_nil_r.
    + fold (all_readable indir names). apply IH, Hlen.
    + fold (all_readable indir names). apply IH, Hlen.
Qed.

Lemma write_rows_spec (machine build origin : string)
  (rolemap : option (dict string))
  (aggregated_metrics : list (string * dict float)) (rows : list (list string)) :
  write_rows machine build origin rolemap aggregated_metrics rows
  = (rows
       ++ flat_map (fun fr =>
            file_rows machine build origin
              (spec_infer_role (PyStr.basename (fst fr)) rolemap) (snd fr))
          aggregated_metrics,
     Completed).
Proof.
  revert rows. induction aggregated_metrics as [|[fname metric_map] rest IH];
    intros rows; cbn [write_rows flat_map].
  - now rewrite app_nil_r.
  - rewrite infer_role_basename, IH, <- app_assoc. reflexivity.
Qed.

Lemma insert_name_perm (x : string) (l : list string) :
  Permutation (insert_name x l) (x :: l).
Proof.
  induction l as [|y l IH]; simpl; [reflexivity|].
  destruct (String.ltb y x); [|reflexivity].
  rewrite IH. apply perm_swap.
Qed.

Lemma sorted_names_perm (names : list string) :
  Permutation (sorted_names names) names.
Proof.
  induction names as [|x l IH]; simpl; [reflexivity|].
  rewrite insert_name_perm. now constructor.
Qed.

Lemma all_readable_sorted (indir : dict dir_entry) (names : list string) :
  all_readable indir (sorted_names names) = all_readable indir names.
Proof.
  unfold all_readable. apply eq_true_iff_eq. rewrite !forallb_forall.
  split; intros H x Hx; apply H;
    [rewrite sorted_names_perm|rewrite <- sorted_names_perm]; exact Hx.
Qed.

Lemma main_spec (open_text : string -> option string) (indir : dict dir_entry)
  (machine build origin : string) (rolemap_path : option string) :
  Forall (fun ft => (Z.of_nat (String.length (snd ft)) <= PY_SSIZE_T_MAX)%Z)
    (readable_prefix indir (sorted_names (keys indir))) ->
  exists rolemap reports,
    read_rolemap open_text rolemap_path = Ok rolemap
    /\ Forall2 (fun ft report => file_report (snd ft) = Ok report)
         (readable_prefix indir (sorted_names (keys indir))) reports
    /\ main open_text indir machine build origin rolemap_path
       = {| events_jsonl :=
              Some (flat_map (fun ft => file_events (snd ft))
                      (readable_prefix indir (sorted_names (keys indir))));
            metrics_csv :=
              if all_readable indir (keys indir) then
                Some (header
                        :: flat_map (fun fr =>
                             file_rows machine build origin
                               (spec_infer_role (PyStr.basename (fst fr)) rolemap)
                               (snd fr))
                             (combine
                                (map fst (readable_prefix indir
                                            (sorted_names (keys indir))))
                                reports))
              else None;
            ended := if all_readable indir (keys indir) then Completed
                     else FileError |}.
Proof.
  intros Hlen.
  destruct (read_rolemap_total_aux open_text rolemap_path) as (rolemap & Hrm).
  destruct (process_files_spec indir (sorted_names (keys indir)) [] [] Hlen)
    as (reports & Hall & Hproc).
  exists rolemap, reports. split; [exact Hrm|]. split; [exact Hall|].
  unfold main. rewrite Hrm, Hproc, all_readable_sorted. cbn [app].
  destruct (all_readable indir (keys indir)); [|reflexivity].
  rewrite write_rows_spec. reflexivity.
Qed.

(** X18: parsing a file never fails and appends to the event stream one
    event per line, in order: the line without its line break, with the
    payload of the first pattern that matches it.  The events depend on
    the text alone, not on the accumulator or on the events written
    before. *)
Theorem file_events_appended (text : string) (metrics : LogMetrics)
  (events_fh : list event) :
  exists metrics',
    parse_log_file text metrics events_fh
    = Ok (metrics', events_fh ++ file_events text).
Proof.
  destruct (parse_log_file_events text metrics events_fh) as (m & H & _).
  now exists m.
Qed.

(** X19: when every regular file of the input directory can be opened,
    no aggregate value in them is a NaN, and the role map, if one is
    named, is a text file or cannot be opened, the run completes:
    [events.jsonl] holds the events of the files in the order of their
    names, and [metrics.csv] holds the header and then, file by file in
    the same order, one row per metric of the report of the file, in the
    order of the report, with the role inferred from the file name and the
    role map.  Without a NaN among the aggregate values no list that the
    reducer sorts holds one, whatever the frame rates. *)
Theorem run_completes (open_text : string -> option string)
  (indir : dict dir_entry) (machine build origin : string)
  (rolemap_path : option string) :
  all_readable indir (keys indir) = true ->
  Forall (fun ft => (Z.of_nat (String.length (snd ft)) <= PY_SSIZE_T_MAX)%Z)
    (readable_prefix indir (sorted_names (keys indir))) ->
  Forall (fun ft => nan_free (file_events (snd ft)) = true)
    (readable_prefix indir (sorted_names (keys indir))) ->
  exists rolemap reports,
    read_rolemap open_text rolemap_path = Ok rolemap
    /\ Forall2 (fun ft report =>
                  file_report (snd ft) = Ok report
                  /\ exists m,
                       parse_log_file (snd ft) new_metrics []
                       = Ok (m, file_events (snd ft))
                       /\ sorts_no_nan m)
         (readable_prefix indir (sorted_names (keys indir))) reports
    /\ main open_text indir machine build origin rolemap_path
       = {| events_jsonl :=
              Some (flat_map (fun ft => file_events (snd ft))
                      (readable_prefix indir (sorted_names (keys indir))));
            metrics_csv :=
              Some (header
                      :: flat_map (fun fr =>
                           file_rows machine build origin
                             (spec_infer_role (PyStr.basename (fst fr)) rolemap)
                             (snd fr))
                           (combine
                              (map fst (readable_prefix indir
                                          (sorted_names (keys indir))))
                              reports));
            ended := Completed |}.
Proof.
  intros Hall Hlen Hnan.
  destruct (main_spec open_text indir machine build origin rolemap_path Hlen)
    as (rolemap & reports & Hrm & Hrep & Hmain).
  rewrite Hall in Hmain. exists rolemap, reports.
  split; [exact Hrm|]. split; [|exact Hmain].
  apply Forall2_and_left; [exact Hrep|].
  rewrite Forall_forall in *. intros ft Hin.
  apply file_accumulator_no_nan, Hnan, Hin.
Qed.

Lemma run_completes_witness :
  exists rolemap reports,
    read_rolemap (fun _ => Some "client.log = dedicated") (Some "roles.txt")
    = Ok rolemap
    /\ Forall2 (fun ft report =>
                  file_report (snd ft) = Ok report
                  /\ exists m,
                       parse_log_file (snd ft) new_metrics []
                       = Ok (m, file_events (snd ft))
                       /\ sorts_no_nan m)
         (readable_prefix sample_dir (sorted_names (keys sample_dir))) reports
    /\ main (fun _ => Some "client.log = dedicated") sample_dir
         "rig" "1.2" "manual" (Some "roles.txt")
       = {| events_jsonl :=
              Some (flat_map (fun ft => file_events (snd ft))
                      (readable_prefix sample_dir (sorted_names (keys sample_dir))));
            metrics_csv :=
              Some (header
                      :: flat_map (fun fr =>
                           file_rows "rig" "1.2" "manual"
                             (spec_infer_role (PyStr.basename (fst fr)) rolemap)
                             (snd fr))
                           (combine
                              (map fst (readable_prefix sample_dir
                                          (sorted_names (keys sample_dir))))
                              reports));
            ended := Completed |}.
Proof.
  apply (run_completes (fun _ => Some "client.log = dedicated") sample_dir
           "rig" "1.2" "manual" (Some "roles.txt")).
  - reflexivity.
  - assert (E : readable_prefix sample_dir (sorted_names (keys sample_dir))
                = [("client.log", "Perf: FPS=50"); ("server.log", two_sessions)])
      by reflexivity.
    rewrite E. repeat constructor; vm_compute; discriminate.
  - assert (E : readable_prefix sample_dir (sorted_names (keys sample_dir))
                = [("client.log", "Perf: FPS=50"); ("server.log", two_sessions)])
      by reflexivity.
    rewrite E. repeat constructor; vm_compute; reflexivity.
Defined.

(** X20: when a regular file of the input directory cannot be opened, the
    run ends with the error, [metrics.csv] is never opened, and
    [events.jsonl] holds the events of the files whose names sort before
    that of the first such file. *)
Theorem run_stops_at_unreadable_file (open_text : string -> option string)
  (indir : dict dir_entry) (machine build origin : string)
  (rolemap_path : option string) :
  all_readable indir (keys indir) = false ->
  Forall (fun ft => (Z.of_nat (String.length (snd ft)) <= PY_SSIZE_T_MAX)%Z)
    (readable_prefix indir (sorted_names (keys indir))) ->
  main open_text indir machine build origin rolemap_path
  = {| events_jsonl :=
         Some (flat_map (fun ft => file_events (snd ft))
                 (readable_prefix indir (sorted_names (keys indir))));
       metrics_csv := None;
       ended := FileError |}.
Proof.
  intros Hall Hlen.
  destruct (main_spec open_text indir machine build origin rolemap_path Hlen)
    as (rolemap & reports & Hrm & Hrep & Hmain).
  now rewrite Hall in Hmain.
Qed.

Lemma run_stops_at_unreadable_file_witness :
  main (fun _ => None) locked_dir "rig" "1.2" "manual" None
  = {| events_jsonl :=
         Some (flat_map (fun ft => file_events (snd ft))
                 (readable_prefix locked_dir (sorted_names (keys locked_dir))));
       metrics_csv := None;
       ended := FileError |}.
Proof.
  apply (run_stops_at_unreadable_file (fun _ => None) locked_dir
           "rig" "1.2" "manual" None).
  - reflexivity.
  - assert (E : readable_prefix locked_dir (sorted_names (keys locked_dir))
                = [("a.log", two_sessions)])
      by reflexivity.
    rewrite E. repeat constructor; vm_compute; discriminate.
Defined.

Example sample_run :
  main (fun _ => Some "client.log = dedicated") sample_dir
    "rig" "1.2" "manual" (Some "roles.txt")
  = {| events_jsonl :=
         Some [{| raw := "Perf: FPS=50"; kv := Some (FrameRate (literal "50")) |};
               {| raw := "LOADING_TIME|Session=12.5";
                  kv := Some (LoadingTime "Session" (literal "12.5")) |};
               {| raw := "LOADING_TIME|Session=20";
                  kv := Some (LoadingTime "Session" (literal "20")) |}];
       metrics_csv :=
         Some [header;
               ["rig"; "1.2"; "manual"; "dedicated"; "frametime_p50_ms"; "20.000"];
               ["rig"; "1.2"; "manual"; "dedicated"; "frametime_p95_ms"; "20.000"];
               ["rig"; "1.2"; "manual"; "server";
                "loading_time_Session_ms"; "20.000"]];
       ended := Completed |}.
Proof. vm_compute. reflexivity. Qed.

(** ** The order of the files *)

Lemma compare_le_trans (a b c : string) :
  String.compare a b <> Gt -> String.compare b c <> Gt -> String.compare a c <> Gt.
Proof.
  revert b c. induction a as [|x a IH]; intros [|y b] [|z c]; simpl;
    try congruence.
  unfold Ascii.compare.
  destruct (N.compare_spec (N_of_ascii x) (N_of_ascii y)) as [Hxy|Hxy|Hxy];
    [| |congruence];
    (destruct (N.compare_spec (N_of_ascii y) (N_of_ascii z)) as [Hyz|Hyz|Hyz];
     [| |congruence]).
  - rewrite Hxy, Hyz, N.compare_refl. apply IH.
  - intros _ _. rewrite Hxy. apply N.compare_lt_iff in Hyz. now rewrite Hyz.
  - intros _ _. rewrite <- Hyz. apply N.compare_lt_iff in Hxy. now rewrite Hxy.
  - intros _ _. assert (H : (N_of_ascii x < N_of_ascii z)%N) by lia.
    apply N.compare_lt_iff in H. now rewrite H.
Qed.

Lemma name_le_trans (a b c : string) : name_le a b -> name_le b c -> name_le a c.
Proof.
  unfold name_le, String.leb. intros H1 H2.
  pose proof (compare_le_trans a b c) as H.
  destruct (String.compare a b); try discriminate;
    destruct (String.compare b c); try discriminate;
    destruct (String.compare a c); try reflexivity;
    exfalso; apply H; congruence.
Qed.

Lemma ltb_name_le (x y : string) : String.ltb x y = true -> name_le x y.
Proof.
  unfold name_le, String.ltb, String.leb. now destruct (String.compare x y).
Qed.

Lemma not_ltb_name_le (x y : string) : String.ltb y x = false -> name_le x y.
Proof.
  unfold name_le, String.ltb, String.leb. rewrite (String.compare_antisym x y).
  now destruct (String.compare y x).
Qed.

Lemma insert_name_sorted (x : string) (l : list string) :
  StronglySorted name_le l -> StronglySorted name_le (insert_name x l).
Proof.
  induction l as [|y l IH]; intros Hs; simpl.
  - repeat constructor.
  - inversion Hs as [|? ? Hl Hy]; subst.
    destruct (String.ltb y x) eqn:E.
    + constructor; [now apply IH|].
      rewrite Forall_forall. intros z Hz.
      apply (Permutation_in _ (insert_name_perm x l)) in Hz as [<-|Hz].
      * now apply ltb_name_le.
      * rewrite Forall_forall in Hy. now apply Hy.
    + constructor; [exact Hs|].
      apply not_ltb_name_le in E. constructor; [exact E|].
      rewrite Forall_forall in *. intros z Hz.
      apply (name_le_trans x y z E). now apply Hy.
Qed.

Lemma sorted_names_sorted (names : list string) :
  StronglySorted name_le (sorted_names names).
Proof.
  induction names as [|x l IH]; simpl; [constructor|].
  now apply insert_name_sorted.
Qed.

Lemma readable_prefix_spec (indir : dict dir_entry) (names : list string) :
  exists rest,
    filter (regular indir) names = map fst (readable_prefix indir names) ++ rest
    /\ match rest with
       | [] => all_readable indir names = true
       | fname :: _ =>
           get fname indir = Some (RegularFile None)
           /\ all_readable indir names = false
       end.
Proof.
  induction names as [|fname names (rest & Hf & Hr)];
    cbn [filter readable_prefix all_readable forallb].
  - exists []. split; reflexivity.
  - fold (all_readable indir names). unfold regular at 1.
    destruct (get fname indir) as [[[text|]|]|] eqn:E.
    + exists rest. cbn [map fst app andb]. now rewrite Hf.
    + exists (fname :: filter (regular indir) names). cbn [map app andb].
      repeat split. exact E.
    + exists rest. now split.
    + exists rest. now split.
Qed.

Lemma readable_prefix_get (indir : dict dir_entry) (names : list string) :
  Forall (fun ft => get (fst ft) indir = Some (RegularFile (Some (snd ft))))
    (readable_prefix indir names).
Proof.
  induction names as [|fname names IH]; cbn [readable_prefix]; [constructor|].
  destruct (get fname indir) as [[[text|]|]|] eqn:E; auto.
Qed.

Lemma texts_bounded_prefix (indir : dict dir_entry) (names : list string) :
  texts_bounded indir ->
  Forall (fun ft => (Z.of_nat (String.length (snd ft)) <= PY_SSIZE_T_MAX)%Z)
    (readable_prefix indir names).
Proof.
  intros Hb. pose proof (readable_prefix_get indir names) as Hg.
  unfold texts_bounded in Hb. rewrite Forall_forall in *.
  intros ft Hin. apply Hg, get_some_in, Hb in Hin. exact Hin.
Qed.

Lemma filter_strongly_sorted {A : Type} (R : A -> A -> Prop) (f : A -> bool)
  (l : list A) :
  StronglySorted R l -> StronglySorted R (filter f l).
Proof.
  induction 1 as [|a l Hs IH Hall]; cbn [filter]; [constructor|].
  destruct (f a); [|exact IH]. constructor; [exact IH|].
  rewrite Forall_forall in *. intros x Hx. apply filter_In in Hx as [Hx _]. auto.
Qed.

Lemma filter_perm {A : Type} (f : A -> bool) (l l' : list A) :
  Permutation l l' -> Permutation (filter f l) (filter f l').
Proof.
  induction 1 as [|x l l' _ IH|x y l|l l' l'' _ IH1 _ IH2]; cbn [filter].
  - constructor.
  - destruct (f x); [now constructor|exact IH].
  - destruct (f x), (f y); try reflexivity. apply perm_swap.
  - now transitivity (filter f l').
Qed.

(** X21: the log files whose events a run writes are the regular files of
    the input directory in ascending order of name, each once, up to the
    first that cannot be opened, where the run ends with the error; names
    that are not regular files are skipped, and with no such file the run
    reads them all and completes. *)
Theorem files_in_name_order (open_text : string -> option string)
  (indir : dict dir_entry) (machine build origin : string)
  (rolemap_path : option string) :
  texts_bounded indir ->
  exists files rest,
    events_jsonl (main open_text indir machine build origin rolemap_path)
    = Some (flat_map (fun ft => file_events (snd ft)) files)
    /\ Forall (fun ft => get (fst ft) indir = Some (RegularFile (Some (snd ft))))
         files
    /\ StronglySorted name_le (map fst files ++ rest)
    /\ Permutation (map fst files ++ rest) (filter (regular indir) (keys indir))
    /\ match rest with
       | [] =>
           ended (main open_text indir machine build origin rolemap_path)
           = Completed
       | fname :: _ =>
           get fname indir = Some (RegularFile None)
           /\ ended (main open_text indir machine build origin rolemap_path)
              = FileError
       end.
Proof.
  intros Hb.
  destruct (main_spec open_text indir machine build origin rolemap_path
              (texts_bounded_prefix indir _ Hb))
    as (rolemap & reports & _ & _ & Hmain).
  destruct (readable_prefix_spec indir (sorted_names (keys indir)))
    as (rest & Hf & Hr).
  rewrite all_readable_sorted in Hr.
  exists (readable_prefix indir (sorted_names (keys indir))), rest.
  rewrite Hmain. cbn [events_jsonl ended].
  split; [reflexivity|]. split; [apply readable_prefix_get|].
  rewrite <- Hf. split; [apply filter_strongly_sorted, sorted_names_sorted|].
  split; [apply filter_perm, sorted_names_perm|].
  destruct rest as [|fname rest]; [now rewrite Hr|].
  destruct Hr as [Hg Hr]. now rewrite Hr.
Qed.

Lemma files_in_name_order_witness :
  exists files rest,
    events_jsonl (main (fun _ => None) locked_dir "rig" "1.2" "manual" None)
    = Some (flat_map (fun ft => file_events (snd ft)) files)
    /\ Forall (fun ft =>
                 get (fst ft) locked_dir = Some (RegularFile (Some (snd ft))))
         files
    /\ StronglySorted name_le (map fst files ++ rest)
    /\ Permutation (map fst files ++ rest)
         (filter (regular locked_dir) (keys locked_dir))
    /\ match rest with
       | [] =>
           ended (main (fun _ => None) locked_dir "rig" "1.2" "manual" None)
           = Completed
       | fname :: _ =>
           get fname locked_dir = Some (RegularFile None)
           /\ ended (main (fun _ => None) locked_dir "rig" "1.2" "manual" None)
              = FileError
       end.
Proof.
  apply (files_in_name_order (fun _ => None) locked_dir "rig" "1.2" "manual" None).
  repeat constructor; vm_compute; discriminate.
Defined.

(** ** The value column *)

Lemma string_of_uint_digits (u : Decimal.uint) :
  all_chars PyStr.is_digit (NilZero.string_of_uint u) = true
  /\ NilZero.string_of_uint u <> EmptyString.
Proof.
  assert (H : forall d, all_chars PyStr.is_digit (NilEmpty.string_of_uint d) = true).
  { induction d; simpl; auto. }
  destruct u; (split; [first [reflexivity|simpl; apply H]|discriminate]).
Qed.

Lemma digit_char_is_digit (d : Z) :
  (0 <= d < 10)%Z -> PyStr.is_digit (digit_char d) = true.
Proof.
  intros H.
  assert (d = 0 \/ d = 1 \/ d = 2 \/ d = 3 \/ d = 4 \/ d = 5 \/ d = 6
          \/ d = 7 \/ d = 8 \/ d = 9)%Z as Hd by lia.
  repeat (destruct Hd as [->|Hd]; [reflexivity|]). now subst.
Qed.

(** X22: the value column of [metrics.csv] holds, for a finite value, a
    decimal numeral with an optional minus sign, at least one integer
    digit and exactly three fractional digits; a value that is not finite
    is never written in that form. *)
Theorem value_column_decimal (value : float) :
  decimal_3 (format_3f value) = is_finite value.
Proof.
  destruct value as [s|s| |s m e]; try (destruct s; reflexivity); [reflexivity|].
  cbn [is_finite format_3f].
  set (n := if (0 <=? e)%Z then (Zpos m * 2 ^ e * 1000)%Z
            else round_half_even (Zpos m * 1000) (- e)).
  assert (Hn : (0 <= n)%Z).
  { subst n. destruct (Z.leb_spec 0 e) as [He|He].
    - assert (0 <= 2 ^ e)%Z by (apply Z.pow_nonneg; lia). nia.
    - destruct (round_half_even_bounds (Zpos m * 1000) (- e)) as [[Hlo _] _];
        [lia|lia|].
      assert (0 <= Zpos m * 1000 / 2 ^ (- e))%Z; [|lia].
      apply Z.div_pos; [lia|]. apply Z.pow_pos_nonneg; lia. }
  pose proof (Z.mod_pos_bound n 1000 ltac:(lia)) as Hr.
  set (r := (n mod 1000)%Z) in *.
  destruct (string_of_uint_digits (N.to_uint (Z.to_N (n / 1000)))) as [Hd Hne].
  destruct (NilZero.string_of_uint _) as [|c digits]; [congruence|].
  cbn [all_chars] in Hd. apply andb_true_iff in Hd as [Hc Hd].
  assert (Hminus : Ascii.eqb c "-" = false).
  { destruct (Ascii.eqb_spec c "-"%char) as [->|]; [discriminate Hc|reflexivity]. }
  set (frac := String "."%char _).
  assert (Hbody : decimal_3 (String c digits ++ frac)%string = true).
  { unfold decimal_3. cbn [append]. rewrite Hminus.
    change (String c (digits ++ frac)%string) with (String c digits ++ frac)%string.
    rewrite span_app; [|cbn [all_chars]; now rewrite Hc, Hd|reflexivity].
    subst frac. cbn [PyStr.is_empty negb andb].
    rewrite !digit_char_is_digit; [reflexivity|..];
      first [apply Z.mod_pos_bound; lia
            |split; [apply Z.div_pos; lia|apply Z.div_lt_upper_bound; lia]]. }
  destruct s; [|exact Hbody].
  unfold decimal_3 in *. cbn [append] in *. rewrite Hminus in Hbody.
  cbn [Ascii.eqb Bool.eqb]. exact Hbody.
Qed.
